(** * Virtual Circuit Lab: the simulation worker (src/simulation-worker.js)

    A shallow embedding of the worker's simulation engine and the proofs of
    its specified properties.

    JavaScript numbers are IEEE 754 binary64 values: they are modelled by
    Rocq's primitive floats, whose operations are the machine's.  Objects
    that the worker mutates through shared references (the entries of
    [simulationState.components] and [simulationState.wires]) live in lists
    updated by index; objects used as dictionaries are finite maps.

    The functions of the host's Math library that ECMAScript leaves
    implementation-approximated ([Math.sin], [Math.pow], [Math.atan2]) are
    taken as parameters, gathered in [MathLib]. *)

From Stdlib Require Import Floats ZArith Bool Ascii String Lia.
From stdpp Require Import gmap strings list.

Set Warnings "-inexact-float".

(** ** JavaScript numbers *)

Module JS.

(** Truthiness of a number: [0], [-0] and [NaN] are falsy. *)
Definition truthy (x : float) : bool := negb (is_zero x || is_nan x).

(** [x || d] where [x] is a number or [undefined]. *)
Definition or (x : option float) (d : float) : float :=
  match x with
  | Some v => if truthy v then v else d
  | None => d
  end.

(** [a || b] where both operands may be [undefined]. *)
Definition orElse (x y : option float) : option float :=
  match x with
  | Some v => if truthy v then Some v else y
  | None => y
  end.

(** [isFinite(x) && !isNaN(x)] on a number. *)
Definition isFinite (x : float) : bool := is_finite x.

Definition Math_PI : float := 3.141592653589793%float.

Definition Math_min (a b : float) : float :=
  if is_nan a || is_nan b then nan
  else if (a <? b)%float then a
  else if (b <? a)%float then b
  else if get_sign a then a else b.

Definition Math_max (a b : float) : float :=
  if is_nan a || is_nan b then nan
  else if (a <? b)%float then b
  else if (b <? a)%float then a
  else if get_sign a then b else a.

Definition Math_abs (x : float) : float := abs x.

Definition Math_sign (x : float) : float :=
  if is_nan x then nan
  else if (0 <? x)%float then 1%float
  else if (x <? 0)%float then (-1)%float
  else x.

(** The length of an array as a number. *)
Definition ofNat (n : nat) : float := of_uint63 (Uint63.of_Z (Z.of_nat n)).

(** [parseFloat(x.toFixed(d))].  [toFixed] prints the integer [n] nearest
    to [|x| * 10^d] (the larger one on a tie) with [d] decimals and the
    sign of [x]; a magnitude of [1e21] or more, [NaN] and the infinities
    print as [String(x)] does.  [parseFloat] reads the decimal back with
    one correct rounding. *)
Definition toFixed (d : nat) (x : float) : float :=
  match Prim2SF x with
  | S754_finite s m e =>
      if (1e21 <=? abs x)%float then x
      else
        let scale := (10 ^ Z.of_nat d)%Z in
        let n :=
          if (0 <=? e)%Z then (Z.pos m * 2 ^ e * scale)%Z
          else ((2 * Z.pos m * scale + 2 ^ (- e)) / (2 * 2 ^ (- e)))%Z in
        match n with
        | Z.pos p =>
            SF2Prim (SFdiv prec emax (S754_finite s p 0)
                                     (S754_finite false (Z.to_pos scale) 0))
        | _ => if s then (-0)%float else 0%float
        end
  | S754_zero _ => 0%float
  | _ => x
  end.

(** The remainder operator [x % y] on numbers: exact, with the sign of the
    dividend. *)
Definition rem (x y : float) : float :=
  match Prim2SF x, Prim2SF y with
  | S754_nan, _ | _, S754_nan => nan
  | S754_infinity _, _ => nan
  | _, S754_zero _ => nan
  | S754_zero _, _ => x
  | _, S754_infinity _ => x
  | S754_finite sx mx ex, S754_finite _ my ey =>
      let e := Z.min ex ey in
      let X := (Z.pos mx * 2 ^ (ex - e))%Z in
      let Y := (Z.pos my * 2 ^ (ey - e))%Z in
      match (X mod Y)%Z with
      | Z.pos r => SF2Prim (binary_normalize prec emax
                              (if sx then Z.neg r else Z.pos r) e false)
      | _ => if sx then (-0)%float else 0%float
      end
  end.

(** [Array.prototype.sort((a, b) => a - b)] on an array of numbers none of
    which is [NaN]: there the comparator is consistent, and the sort, which
    is stable, has one possible result, where [b] goes before [a] exactly
    when [a - b > 0].  On an array that holds a [NaN] the comparator is not
    consistent and the order is the host's own, which this one need not be.
    The histories that the filter bank sorts hold finite numbers only (an
    input that is not finite is turned away before it is pushed), and what
    is stated of [SignalProcessing.medianFilter] is stated of arrays without
    [NaN]. *)
Fixpoint insertSorted (x : float) (l : list float) : list float :=
  match l with
  | [] => [x]
  | y :: l' => if (0 <? x - y)%float then y :: insertSorted x l' else x :: l
  end.

Definition sortNumbers (l : list float) : list float :=
  foldr (fun x acc => insertSorted x acc) [] l.

(** [l.reduce((acc, v) => acc + v, z)] *)
Definition sum (z : float) (l : list float) : float :=
  foldl (fun acc v => (acc + v)%float) z l.

End JS.

(** The part of the host's Math library that is only approximated. *)
Record MathLib := {
  Math_sin : float -> float;
  Math_pow : float -> float -> float;
  Math_atan2 : float -> float -> float
}.


(** ** The data model *)

(** [component.values] *)
Module Values.
Record t := mk { voltage : float; current : float; power : float }.
Definition zero : t := mk 0 0 0.
Definition set_voltage (x : float) (v : t) : t := mk x (current v) (power v).
Definition set_current (x : float) (v : t) : t := mk (voltage v) x (power v).
Definition set_power (x : float) (v : t) : t := mk (voltage v) (current v) x.
End Values.

(** [component.parameters], as [processVoltageSource] reads it. *)
Module Parameters.
Record t := mk {
  amplitude : option float;
  frequency : option float;
  dcOffset : option float;
  waveform : option string
}.
End Parameters.

(** [component.properties]: each entry is an object [{value: ...}], of which
    only the value is kept; [None] stands for an entry that is missing. *)
Module Properties.
Record t := mk {
  voltage : option float;
  resistance : option float;
  frequency : option float;
  waveform : option string
}.
End Properties.

(** A component object.  Its numeric fields hold numbers or are
    [undefined] ([None]); [value] is the number that
    [performTransientAnalysis] reads with [component.value || 5]. *)
Module Component.
Record t := mk {
  id : string;
  type : string;
  values : option Values.t;
  parameters : option Parameters.t;
  properties : option Properties.t;
  value : option float;
  voltage : option float;
  current : option float;
  resistance : option float;
  capacitance : option float;
  inductance : option float
}.

Definition set_values (v : option Values.t) (c : t) : t :=
  mk (id c) (type c) v (parameters c) (properties c) (value c)
     (voltage c) (current c) (resistance c) (capacitance c) (inductance c).
Definition set_voltage (x : option float) (c : t) : t :=
  mk (id c) (type c) (values c) (parameters c) (properties c) (value c)
     x (current c) (resistance c) (capacitance c) (inductance c).
Definition set_current (x : option float) (c : t) : t :=
  mk (id c) (type c) (values c) (parameters c) (properties c) (value c)
     (voltage c) x (resistance c) (capacitance c) (inductance c).
Definition set_resistance (x : option float) (c : t) : t :=
  mk (id c) (type c) (values c) (parameters c) (properties c) (value c)
     (voltage c) (current c) x (capacitance c) (inductance c).
Definition set_capacitance (x : option float) (c : t) : t :=
  mk (id c) (type c) (values c) (parameters c) (properties c) (value c)
     (voltage c) (current c) (resistance c) x (inductance c).
Definition set_inductance (x : option float) (c : t) : t :=
  mk (id c) (type c) (values c) (parameters c) (properties c) (value c)
     (voltage c) (current c) (resistance c) (capacitance c) x.

(** [component.value?.value]: a number has no property [value], so the
    access yields [undefined]. *)
Definition value_value (c : t) : option float := None.

Definition isType (ty : string) (c : t) : bool := String.eqb (type c) ty.
Definition isSource (c : t) : bool :=
  isType "voltage-source" c || isType "current-source" c.
End Component.

(** A wire object.  The analyses read three spellings of its endpoints:
    [connections] (strings ["<componentId>-<terminal>"]),
    [startComponent]/[endComponent] (component ids) and
    [source.componentId]/[target.componentId]. *)
Module Wire.
Record t := mk {
  id : string;
  connections : option (list string);
  current : option float;
  voltage : option float;
  startComponent : option string;
  endComponent : option string;
  source : option string;
  target : option string
}.

Definition set_current (x : option float) (w : t) : t :=
  mk (id w) (connections w) x (voltage w) (startComponent w) (endComponent w)
     (source w) (target w).
Definition set_voltage (x : option float) (w : t) : t :=
  mk (id w) (connections w) (current w) x (startComponent w) (endComponent w)
     (source w) (target w).
End Wire.

(** The per-quantity record that [applyStabilityFilter] keeps for
    [enhancedStabilityFilter]. *)
Module FilterHistory.
Record t := mk {
  values : list float;
  movingAvg : float;
  exponentialAvg : float;
  variance : float;
  fluctuationCount : float;
  steadyCount : float;
  lastUpdate : float
}.

(** The record [applyStabilityFilter] creates for a quantity whose present
    value is [x]. *)
Definition init (x : float) (time : float) : t :=
  mk [] (JS.or (Some x) 0) (JS.or (Some x) 0) 0 0 0 time.
End FilterHistory.

(** An entry of [simulationState.componentValueHistory].  Two writers store
    two shapes under the same key: [initializeValueHistory] stores plain
    arrays, [applyStabilityFilter] stores filter records. *)
Inductive HistoryEntry :=
| ArrayHistory (voltage current : list float)
| FilterEntry (voltage current : FilterHistory.t).

(** An entry of [stabilityTracker.prevValues]. *)
Module ValueData.
Record t := mk { values : list float; average : float; smoothed : float }.
End ValueData.

(** [simulationState.stabilityTracker]; [maxSamples] only ever holds a small
    natural number. *)
Module Tracker.
Record t := mk {
  samplesCollected : nat;
  maxSamples : nat;
  prevValues : gmap string ValueData.t;
  smoothingFactor : float;
  varianceThreshold : float
}.
Definition initial : t := mk 0 5 ∅ 0.7 0.1.
Definition set_prevValues (m : gmap string ValueData.t) (k : t) : t :=
  mk (samplesCollected k) (maxSamples k) m (smoothingFactor k)
     (varianceThreshold k).
Definition configure (n : nat) (f : float) (k : t) : t :=
  mk (samplesCollected k) n (prevValues k) f (varianceThreshold k).
End Tracker.

(** [simulationState] *)
Module State.
Record t := mk {
  running : bool;
  speed : float;
  type : string;
  components : list Component.t;
  wires : list Wire.t;
  time : float;
  iterationCount : float;
  componentValueHistory : gmap string HistoryEntry;
  wireValueHistory : gmap string (list float);
  stabilized : bool;
  stabilityTracker : Tracker.t
}.

Definition initial : t :=
  mk false 1 "transient" [] [] 0 0 ∅ ∅ false Tracker.initial.

Definition set_running (b : bool) (s : t) : t :=
  mk b (speed s) (type s) (components s) (wires s) (time s)
     (iterationCount s) (componentValueHistory s) (wireValueHistory s)
     (stabilized s) (stabilityTracker s).
Definition set_speed (x : float) (s : t) : t :=
  mk (running s) x (type s) (components s) (wires s) (time s)
     (iterationCount s) (componentValueHistory s) (wireValueHistory s)
     (stabilized s) (stabilityTracker s).
Definition set_components (cs : list Component.t) (s : t) : t :=
  mk (running s) (speed s) (type s) cs (wires s) (time s)
     (iterationCount s) (componentValueHistory s) (wireValueHistory s)
     (stabilized s) (stabilityTracker s).
Definition set_wires (ws : list Wire.t) (s : t) : t :=
  mk (running s) (speed s) (type s) (components s) ws (time s)
     (iterationCount s) (componentValueHistory s) (wireValueHistory s)
     (stabilized s) (stabilityTracker s).
Definition set_time (x : float) (s : t) : t :=
  mk (running s) (speed s) (type s) (components s) (wires s) x
     (iterationCount s) (componentValueHistory s) (wireValueHistory s)
     (stabilized s) (stabilityTracker s).
Definition set_iterationCount (x : float) (s : t) : t :=
  mk (running s) (speed s) (type s) (components s) (wires s) (time s)
     x (componentValueHistory s) (wireValueHistory s)
     (stabilized s) (stabilityTracker s).
Definition set_componentValueHistory (h : gmap string HistoryEntry) (s : t) : t :=
  mk (running s) (speed s) (type s) (components s) (wires s) (time s)
     (iterationCount s) h (wireValueHistory s)
     (stabilized s) (stabilityTracker s).
Definition set_wireValueHistory (h : gmap string (list float)) (s : t) : t :=
  mk (running s) (speed s) (type s) (components s) (wires s) (time s)
     (iterationCount s) (componentValueHistory s) h
     (stabilized s) (stabilityTracker s).
Definition set_stabilized (b : bool) (s : t) : t :=
  mk (running s) (speed s) (type s) (components s) (wires s) (time s)
     (iterationCount s) (componentValueHistory s) (wireValueHistory s)
     b (stabilityTracker s).
Definition set_stabilityTracker (k : Tracker.t) (s : t) : t :=
  mk (running s) (speed s) (type s) (components s) (wires s) (time s)
     (iterationCount s) (componentValueHistory s) (wireValueHistory s)
     (stabilized s) k.
End State.

(** [x !== undefined] *)
Definition is_Some_b {A} (x : option A) : bool :=
  match x with Some _ => true | None => false end.

(** An element of a voltage loop, or a connection of a current node. *)
Module LoopElement.
Record t := mk { type : string; id : string; direction : float }.
End LoopElement.

Module Node.
Record t := mk { id : string; connections : list LoopElement.t }.
End Node.

(** What [getComponentConnections] returns for each wire on a component. *)
Module Connection.
Record t := mk { wire : Wire.t; terminal : string }.
End Connection.

(** [const [componentId, terminal] = connection.split('-')] *)
Fixpoint untilDash (s : string) : string * option string :=
  match s with
  | EmptyString => (EmptyString, None)
  | String c rest =>
      if Ascii.eqb c "-"%char then (EmptyString, Some rest)
      else let '(a, b) := untilDash rest in (String c a, b)
  end.

Definition splitConnection (connection : string) : string * option string :=
  let '(componentId, rest) := untilDash connection in
  (componentId,
   match rest with
   | Some r => Some (fst (untilDash r))
   | None => None
   end).

(** ** Exceptions

    A call either completes or throws; what it had already written into the
    shared objects stays written, so both outcomes carry the state. *)
Inductive Exn := TypeError | ReferenceError.

Inductive Completion (S : Type) :=
| Normal (s : S)
| Throw (e : Exn) (s : S).
Arguments Normal {S} s.
Arguments Throw {S} e s.

Definition stateOf {S} (c : Completion S) : S :=
  match c with Normal s | Throw _ s => s end.

(** [array.forEach(body)] where [body] mutates the element it is given, and
    may read the array as the earlier calls left it.  The call that throws
    ends the loop, with its element as it stood at the throw. *)
Fixpoint forEachFrom {A} (body : list A -> A -> Completion A)
    (n i : nat) (l : list A) : Completion (list A) :=
  match n with
  | O => Normal l
  | S n' =>
      match l !! i with
      | None => Normal l
      | Some x =>
          match body l x with
          | Normal x' => forEachFrom body n' (S i) (<[i:=x']> l)
          | Throw e x' => Throw e (<[i:=x']> l)
          end
      end
  end.

Definition forEach {A} (body : list A -> A -> Completion A) (l : list A)
    : Completion (list A) :=
  forEachFrom body (length l) 0 l.

(** [array.forEach(f)] where [f] mutates some state shared by all the calls. *)
Fixpoint foldThrow {A S} (f : S -> A -> Completion S) (l : list A) (s : S)
    : Completion S :=
  match l with
  | [] => Normal s
  | x :: rest =>
      match f s x with
      | Normal s' => foldThrow f rest s'
      | Throw e s' => Throw e s'
      end
  end.

(** ** Messages posted to the main thread *)

Module Validation.
Record t := mk { valid : bool; invalidComponents : nat; invalidWires : nat }.
End Validation.

Module Response.
Record t := mk {
  frequency : float; magnitude : float; phase : float; impedance : float
}.
End Response.

Definition ComponentBrief : Type := string * option Values.t.
Definition WireBrief : Type := string * option float * option float.

Definition briefComponent (c : Component.t) : ComponentBrief :=
  (Component.id c, Component.values c).
Definition briefWire (w : Wire.t) : WireBrief :=
  (Wire.id w, Wire.current w, Wire.voltage w).

Inductive Message :=
| simulation_started
| simulation_update (components : list Component.t) (wires : list Wire.t)
    (time : float) (stabilized : bool) (validationResult : Validation.t)
| simulation_update_brief (components : list ComponentBrief)
    (wires : list WireBrief) (time : float)
| simulation_error (time : float)
| simulation_paused
| simulation_stopped (components : list ComponentBrief) (wires : list WireBrief)
| frequency_response (data : list Response.t).

(** ** The worker's global scope

    Besides [simulationState] the worker keeps [simulationInterval], a
    variable it never declares: assigning to it creates it, and reading it
    before the first assignment is a [ReferenceError].  The host's table of
    running interval timers and the messages posted so far complete the
    picture. *)

Inductive Binding :=
| Undeclared
| Declared (handle : option nat).

(** The two callbacks the worker hands to [setInterval]. *)
Inductive Loop :=
| StepLoop    (* by startSimulation *)
| SpeedLoop.  (* by updateSimulationSpeed *)

Module World.
Record t := mk {
  state : State.t;
  simulationInterval : Binding;
  timers : gmap nat (Loop * float);
  nextTimer : nat;
  outbox : list Message
}.

Definition initial : t := mk State.initial Undeclared ∅ 1 [].

Definition set_state (s : State.t) (w : t) : t :=
  mk s (simulationInterval w) (timers w) (nextTimer w) (outbox w).
Definition postMessage (m : Message) (w : t) : t :=
  mk (state w) (simulationInterval w) (timers w) (nextTimer w) (outbox w ++ [m]).
(** [simulationInterval = setInterval(callback, interval)] *)
Definition setInterval (callback : Loop) (interval : float) (w : t) : t :=
  mk (state w) (Declared (Some (nextTimer w)))
     (<[nextTimer w := (callback, interval)]> (timers w)) (S (nextTimer w))
     (outbox w).
Definition clearInterval (handle : nat) (w : t) : t :=
  mk (state w) (simulationInterval w) (delete handle (timers w)) (nextTimer w)
     (outbox w).
Definition set_simulationInterval (b : Binding) (w : t) : t :=
  mk (state w) b (timers w) (nextTimer w) (outbox w).
End World.

(** The payload of a [start-simulation] message. *)
Module StartData.
Record t := mk {
  components : option (list Component.t);
  wires : option (list Wire.t);
  simulationType : option string;
  simulationSpeed : option float
}.
End StartData.

(** ** SimulationValidator *)

Module SimulationValidator.

Definition isValidNumber (value : float) : bool := JS.isFinite value.

(** [if (x !== undefined && !isValidNumber(x)) x = d] *)
Definition repair (d : float) (x : option float) : option float :=
  match x with
  | Some v => if isValidNumber v then Some v else Some d
  | None => None
  end.

Definition validateComponent (component : Component.t) : bool * Component.t :=
  if String.eqb (Component.type component) "" then (false, component)
  else
    let c1 :=
      if Component.isType "resistor" component then
        Component.set_resistance (repair 1000 (Component.resistance component)) component
      else if Component.isType "capacitor" component then
        Component.set_capacitance (repair 1e-6 (Component.capacitance component)) component
      else if Component.isType "inductor" component then
        Component.set_inductance (repair 1e-3 (Component.inductance component)) component
      else if Component.isType "voltage-source" component then
        Component.set_voltage (repair 5 (Component.voltage component)) component
      else if Component.isType "current-source" component then
        Component.set_current (repair 0.01 (Component.current component)) component
      else component in
    let c2 := Component.set_voltage (repair 0 (Component.voltage c1)) c1 in
    let c3 := Component.set_current (repair 0 (Component.current c2)) c2 in
    (true, c3).

Definition falsyString (x : option string) : bool :=
  match x with
  | Some v => String.eqb v ""
  | None => true
  end.

Definition validateWire (wire : Wire.t) : bool * Wire.t :=
  if falsyString (Wire.startComponent wire) || falsyString (Wire.endComponent wire)
  then (false, wire)
  else
    let w1 := Wire.set_voltage (repair 0 (Wire.voltage wire)) wire in
    let w2 := Wire.set_current (repair 0 (Wire.current w1)) w1 in
    (true, w2).

Definition countInvalid {A} (validate : A -> bool * A) (l : list A) : nat :=
  length (filter (fun x => fst (validate x) = false) l).

Definition validateSimulation (components : list Component.t) (wires : list Wire.t)
    : Validation.t * list Component.t * list Wire.t :=
  let totalInvalidComponents := countInvalid validateComponent components in
  let totalInvalidWires := countInvalid validateWire wires in
  (Validation.mk
     (Nat.eqb totalInvalidComponents 0 && Nat.eqb totalInvalidWires 0)
     totalInvalidComponents totalInvalidWires,
   map (fun c => snd (validateComponent c)) components,
   map (fun w => snd (validateWire w)) wires).

End SimulationValidator.

(** ** The engine *)

Section Engine.

Variable M : MathLib.

Local Open Scope float_scope.

(** *** Stability Filter Bank *)

Definition enhancedStabilityFilter (newValue : float) (history : FilterHistory.t)
    (currentTime : float) : float * FilterHistory.t :=
  if negb (JS.isFinite newValue) then (0, history)
  else
    let timeDelta := currentTime - FilterHistory.lastUpdate history in
    let timeWeight := JS.Math_min 1 (timeDelta * 10) in
    let pushed := FilterHistory.values history ++ [newValue] in
    let values := if (10 <? length pushed)%nat then tail pushed else pushed in
    let sum := JS.sum 0 values in
    let movingAvg := sum / JS.ofNat (length values) in
    let sortedValues := JS.sortNumbers values in
    let mid := (length sortedValues / 2)%nat in
    let median :=
      if Nat.even (length sortedValues)
      then (nth (mid - 1) sortedValues nan + nth mid sortedValues nan) / 2
      else nth mid sortedValues nan in
    let variance :=
      foldl (fun sum val => sum + Math_pow M (val - movingAvg) 2) 0 values
      / JS.ofNat (length values) in
    let variance' := 0.8 * FilterHistory.variance history + 0.2 * variance in
    let normalizedDiff :=
      JS.Math_abs (newValue - FilterHistory.exponentialAvg history)
      / JS.or (Some (JS.Math_abs (FilterHistory.exponentialAvg history))) 0.01 in
    let '(fluctuationCount, steadyCount) :=
      if 0.15 <? normalizedDiff
      then (FilterHistory.fluctuationCount history + 1, 0)
      else (JS.Math_max 0 (FilterHistory.fluctuationCount history - 0.5),
            FilterHistory.steadyCount history + 1) in
    let alpha :=
      if 5 <? fluctuationCount then 0.05
      else if 2 <? fluctuationCount then 0.1
      else if 10 <? steadyCount then 0.5
      else 0.3 in
    let exponentialAvg :=
      alpha * timeWeight * newValue
      + (1 - alpha * timeWeight) * FilterHistory.exponentialAvg history in
    let outputValue :=
      if 5 <? fluctuationCount then median
      else if 2 <? fluctuationCount then exponentialAvg
      else 0.7 * newValue + 0.3 * exponentialAvg in
    let maxLimit := 1000 in
    (JS.Math_max (- maxLimit) (JS.Math_min maxLimit outputValue),
     FilterHistory.mk values movingAvg exponentialAvg variance'
       fluctuationCount steadyCount currentTime).

(** [enhancedStabilityFilter] called on an array of
    [initializeValueHistory]: a value that is not finite returns 0 before
    the array is touched; otherwise [history.values.push] is not a
    function. *)
Definition enhancedStabilityFilterOnArray (newValue : float) : option float :=
  if negb (JS.isFinite newValue) then Some 0 else None.

Definition applyStabilityFilter (time : float)
    (componentValueHistory : gmap string HistoryEntry) (component : Component.t)
    : Completion (gmap string HistoryEntry * Component.t) :=
  if Component.isSource component then Normal (componentValueHistory, component)
  else
    match Component.values component with
    | None => Throw TypeError (componentValueHistory, component)
    | Some values =>
        let entry :=
          match componentValueHistory !! Component.id component with
          | Some e => e
          | None =>
              FilterEntry (FilterHistory.init (Values.voltage values) time)
                          (FilterHistory.init (Values.current values) time)
          end in
        let store e1 := <[Component.id component := e1]> componentValueHistory in
        let finish filteredVoltage filteredCurrent :=
          let values' :=
            Values.set_current filteredCurrent
              (Values.set_voltage filteredVoltage values) in
          let c1 := Component.set_values (Some values') component in
          let c2 := if is_Some_b (Component.voltage c1)
                    then Component.set_voltage (Some filteredVoltage) c1 else c1 in
          if is_Some_b (Component.current c2)
          then Component.set_current (Some filteredCurrent) c2 else c2 in
        match entry with
        | FilterEntry hv hc =>
            let '(filteredVoltage, hv') :=
              enhancedStabilityFilter (Values.voltage values) hv time in
            let '(filteredCurrent, hc') :=
              enhancedStabilityFilter (Values.current values) hc time in
            Normal (store (FilterEntry hv' hc'),
                    finish filteredVoltage filteredCurrent)
        | ArrayHistory _ _ =>
            match enhancedStabilityFilterOnArray (Values.voltage values),
                  enhancedStabilityFilterOnArray (Values.current values) with
            | Some filteredVoltage, Some filteredCurrent =>
                Normal (componentValueHistory,
                        finish filteredVoltage filteredCurrent)
            | _, _ => Throw TypeError (componentValueHistory, component)
            end
        end
    end.

(** [component.values?.voltage || 0] and its like *)
Definition valuesOr (get : Values.t -> float) (component : Component.t) : float :=
  JS.or (match Component.values component with
         | Some v => Some (get v)
         | None => None
         end) 0.

(** *** Component Update Rules: the voltage source *)

Definition orString (x : option string) (d : string) : string :=
  match x with
  | Some v => if String.eqb v "" then d else v
  | None => d
  end.

Definition processVoltageSource (component : Component.t) (time : float)
    : Component.t :=
  let parameter (get : Parameters.t -> option float) :=
    match Component.parameters component with
    | Some p => get p
    | None => None
    end in
  let amplitude := JS.or (parameter Parameters.amplitude) 5 in
  let frequency := JS.or (parameter Parameters.frequency) 1 in
  let dcOffset := JS.or (parameter Parameters.dcOffset) 0 in
  let waveform :=
    orString (match Component.parameters component with
              | Some p => Parameters.waveform p
              | None => None
              end) "dc" in
  let voltage :=
    if String.eqb waveform "dc" then amplitude
    else if String.eqb waveform "sine" then
      amplitude * Math_sin M (2 * JS.Math_PI * frequency * time) + dcOffset
    else if String.eqb waveform "square" then
      (if 0 <=? Math_sin M (2 * JS.Math_PI * frequency * time)
       then amplitude else - amplitude) + dcOffset
    else if String.eqb waveform "triangle" then
      amplitude * (2 * JS.Math_abs (JS.rem (time * frequency) 1 - 0.5) - 0.5) * 2
      + dcOffset
    else if String.eqb waveform "sawtooth" then
      amplitude * (JS.rem (time * frequency) 1 - 0.5) * 2 + dcOffset
    else amplitude in
  let voltage :=
    if SimulationValidator.isValidNumber voltage then voltage else amplitude in
  let voltage := JS.toFixed 6 voltage in
  let current :=
    JS.or (match Component.values component with
           | Some v => Some (Values.current v)
           | None => None
           end) 0 in
  Component.set_values
    (Some (Values.mk voltage current (voltage * current))) component.

(** *** The smoothing of [stabilityTracker] *)

Definition applyStabilization (tracker : Tracker.t) (componentId type : string)
    (newValue : float) : float * Tracker.t :=
  let key := (componentId ++ "-" ++ type)%string in
  match Tracker.prevValues tracker !! key with
  | None =>
      (newValue,
       Tracker.set_prevValues
         (<[key := ValueData.mk [newValue] newValue newValue]>
            (Tracker.prevValues tracker)) tracker)
  | Some valueData =>
      let pushed := ValueData.values valueData ++ [newValue] in
      let values :=
        if (Tracker.maxSamples tracker <? length pushed)%nat
        then tail pushed else pushed in
      let average := JS.sum 0 values / JS.ofNat (length values) in
      let smoothed :=
        Tracker.smoothingFactor tracker * newValue
        + (1 - Tracker.smoothingFactor tracker) * ValueData.smoothed valueData in
      let variance :=
        foldl (fun sum val => sum + Math_pow M (val - average) 2) 0 values
        / JS.ofNat (length values) in
      (if Tracker.varianceThreshold tracker <? variance then smoothed else newValue,
       Tracker.set_prevValues
         (<[key := ValueData.mk values average smoothed]>
            (Tracker.prevValues tracker)) tracker)
  end.

(** *** Transient analysis

    The worker declares [performTransientAnalysis] twice.  Function
    declarations are bound when the script is instantiated and the later
    one replaces the earlier, so every call, from every caller, runs the
    second declaration: that one is embedded here. *)

(** [map.get(key)] on the [Map] filled by [components.forEach(c =>
    map.set(c.id, c))]: the last component with that id. *)
Fixpoint lookupById (components : list Component.t) (key : string)
    : option Component.t :=
  match components with
  | [] => None
  | c :: rest =>
      match lookupById rest key with
      | Some c' => Some c'
      | None => if String.eqb (Component.id c) key then Some c else None
      end
  end.

Definition lookupOpt (components : list Component.t) (key : option string)
    : option Component.t :=
  match key with
  | Some k => lookupById components k
  | None => None
  end.

(** [!x] on a number or [undefined] *)
Definition falsy (x : option float) : bool :=
  match x with
  | Some v => negb (JS.truthy v)
  | None => true
  end.

(** First loop: "Initialize component values if not set". *)
Definition initializeComponent (component : Component.t) : Component.t :=
  let c1 :=
    if Component.isType "voltage-source" component && falsy (Component.voltage component)
    then Component.set_voltage (Some (JS.or (Component.value component) 5)) component
    else component in
  let c2 :=
    if Component.isType "current-source" c1 && falsy (Component.current c1)
    then Component.set_current (Some (JS.or (Component.value c1) 0.01)) c1
    else c1 in
  let c3 :=
    if Component.isType "resistor" c2 && falsy (Component.resistance c2)
    then Component.set_resistance (Some (JS.or (Component.value c2) 1000)) c2
    else c2 in
  let c4 :=
    if Component.isType "capacitor" c3 && falsy (Component.capacitance c3)
    then Component.set_capacitance (Some (JS.or (Component.value c3) 1e-6)) c3
    else c3 in
  if Component.isType "inductor" c4 && falsy (Component.inductance c4)
  then Component.set_inductance (Some (JS.or (Component.value c4) 1e-3)) c4
  else c4.

(** [if (x === undefined) x = 0] *)
Definition ensure (x : option float) : option float :=
  match x with Some v => Some v | None => Some 0 end.

(** Second loop: "Calculate new component values based on circuit
    analysis", for one component. *)
Definition calculateComponent (tracker : Tracker.t) (component : Component.t)
    : Tracker.t * Component.t :=
  let '(tracker', c1) :=
    if Component.isType "resistor" component then
      let current := JS.or (Component.current component) 0 in
      let resistance := JS.or (Component.resistance component) 1000 in
      let voltageDrop := current * resistance in
      let '(v, k) := applyStabilization tracker (Component.id component) "voltage" voltageDrop in
      (k, Component.set_voltage (Some v) component)
    else if Component.isType "capacitor" component then
      let capacitance := JS.or (Component.capacitance component) 1e-6 in
      let current := JS.or (Component.current component) 0 in
      let deltaV := (current * 0.01) / capacitance in
      let newVoltage := JS.or (Component.voltage component) 0 + deltaV in
      let '(v, k) := applyStabilization tracker (Component.id component) "voltage" newVoltage in
      (k, Component.set_voltage (Some v) component)
    else if Component.isType "inductor" component then
      let inductance := JS.or (Component.inductance component) 1e-3 in
      let voltage := JS.or (Component.voltage component) 0 in
      let deltaI := (voltage * 0.01) / inductance in
      let newCurrent := JS.or (Component.current component) 0 + deltaI in
      let '(i, k) := applyStabilization tracker (Component.id component) "current" newCurrent in
      (k, Component.set_current (Some i) component)
    else (tracker, component) in
  let c2 := Component.set_voltage (ensure (Component.voltage c1)) c1 in
  (tracker', Component.set_current (ensure (Component.current c2)) c2).

Fixpoint calculateComponents (tracker : Tracker.t) (components : list Component.t)
    : Tracker.t * list Component.t :=
  match components with
  | [] => (tracker, [])
  | c :: rest =>
      let '(k1, c') := calculateComponent tracker c in
      let '(k2, rest') := calculateComponents k1 rest in
      (k2, c' :: rest')
  end.

(** Third loop: "Update wire states based on connected components". *)
Definition updateWire (components : list Component.t) (wire : Wire.t) : Wire.t :=
  match lookupOpt components (Wire.startComponent wire),
        lookupOpt components (Wire.endComponent wire) with
  | Some startComponent, Some _ =>
      Wire.set_current (Some (JS.or (Component.current startComponent) 0))
        (Wire.set_voltage (Some (JS.or (Component.voltage startComponent) 0)) wire)
  | _, _ => wire
  end.

Definition performTransientAnalysis (s : State.t) : State.t :=
  let initialized := map initializeComponent (State.components s) in
  let '(tracker, components) :=
    calculateComponents (State.stabilityTracker s) initialized in
  let wires := map (updateWire components) (State.wires s) in
  State.set_wires wires
    (State.set_components components
       (State.set_stabilityTracker tracker s)).

(** *** Conservation-Law Corrector

    [applyConservationLaws] is given the arrays together with
    [componentsById] and [wiresById], the objects that index the same
    component and wire objects by id; here both are read off the arrays
    (the last entry with the id, as repeated assignment leaves it).
    [getComponentConnections] is called by the worker but declared nowhere
    in the repository.  What the global scope holds under that name is a
    parameter of the corrector: [None] is the worker as it is, where the
    call throws a [ReferenceError]; [Some f] is a worker whose scope has been
    given a function [f] under the name. *)

Section ConservationLaws.

Variable getComponentConnections
  : option (Component.t -> list Wire.t -> list Connection.t).

(** The call [getComponentConnections(component, wiresById)]. *)
Definition callGetComponentConnections (component : Component.t)
    (wires : list Wire.t) : Exn + list Connection.t :=
  match getComponentConnections with
  | Some f => inr (f component wires)
  | None => inl ReferenceError
  end.

(** The index of [componentsById[key]] in the array. *)
Fixpoint indexById (components : list Component.t) (key : string) : option nat :=
  match components with
  | [] => None
  | c :: rest =>
      match indexById rest key with
      | Some i => Some (S i)
      | None => if String.eqb (Component.id c) key then Some O else None
      end
  end.

Fixpoint wireIndexById (wires : list Wire.t) (key : string) : option nat :=
  match wires with
  | [] => None
  | w :: rest =>
      match wireIndexById rest key with
      | Some i => Some (S i)
      | None => if String.eqb (Wire.id w) key then Some O else None
      end
  end.

Definition componentAt (components : list Component.t) (key : string)
    : option Component.t :=
  match indexById components key with
  | Some i => components !! i
  | None => None
  end.

(** The walk of [findVoltageLoops] from one component: the [while] loop,
    with [maxIterations] as its fuel.  It ends with the loop it has closed,
    if any, or throws: the [TypeError] of reading [connections] off a wire
    that has none, or what the call of [getComponentConnections] throws. *)
Fixpoint followWires (components : list Component.t) (wires : list Wire.t)
    (origin : string) (maxIterations : nat) (currentWire : option Wire.t)
    (previousComponentId : string) (loop : list LoopElement.t)
    : Exn + option (list LoopElement.t) :=
  match maxIterations, currentWire with
  | S fuel, Some wire =>
      match Wire.connections wire with
      | None => inl TypeError
      | Some connections =>
          let connectedComponents :=
            filter (fun componentId => negb (String.eqb componentId previousComponentId) = true)
                   (map (fun connection => fst (splitConnection connection)) connections) in
          match connectedComponents with
          | [componentId] =>
              match componentAt components componentId with
              | Some nextComponent =>
                  let loop' :=
                    loop ++ [LoopElement.mk "component" (Component.id nextComponent) 1] in
                  if String.eqb (Component.id nextComponent) origin
                  then inr (Some loop')
                  else
                    match callGetComponentConnections nextComponent wires with
                    | inl e => inl e
                    | inr nextConnections =>
                        let nextWire :=
                          match filter (fun c => negb (String.eqb (Wire.id (Connection.wire c)) (Wire.id wire)) = true)
                                       nextConnections with
                          | c :: _ => Some (Connection.wire c)
                          | [] => None
                          end in
                        followWires components wires origin fuel nextWire
                          (Component.id nextComponent) loop'
                    end
              | None => inr None
              end
          | _ => inr None
          end
      end
  | _, _ => inr None
  end.

(** One round of the [forEach] of [findVoltageLoops]. *)
Definition findVoltageLoopFrom (components : list Component.t) (wires : list Wire.t)
    (component : Component.t) : Exn + option (list LoopElement.t) :=
  match callGetComponentConnections component wires with
  | inl e => inl e
  | inr [c0; _] =>
      followWires components wires (Component.id component) 10
        (Some (Connection.wire c0)) (Component.id component)
        [LoopElement.mk "component" (Component.id component) 1]
  | inr _ => inr None
  end.

(** The rounds in the order of the array: the first one that throws ends
    the search. *)
Fixpoint collectLoops (components : list Component.t) (wires : list Wire.t)
    (todo : list Component.t) : Exn + list (list LoopElement.t) :=
  match todo with
  | [] => inr []
  | component :: rest =>
      match findVoltageLoopFrom components wires component with
      | inl e => inl e
      | inr found =>
          match collectLoops components wires rest with
          | inl e => inl e
          | inr loops =>
              inr (match found with Some loop => loop :: loops | None => loops end)
          end
      end
  end.

Definition findVoltageLoops (components : list Component.t) (wires : list Wire.t)
    : Exn + list (list LoopElement.t) :=
  collectLoops components wires components.

(** [byId[id]?.values?.voltage || 0] and its like for the current *)
Definition valueOf (get : Values.t -> float) (c : option Component.t) : float :=
  JS.or (match c with
         | Some c =>
             match Component.values c with
             | Some v => Some (get v)
             | None => None
             end
         | None => None
         end) 0.

Definition isComponent (element : LoopElement.t) : bool :=
  String.eqb (LoopElement.type element) "component".
Definition isWire (element : LoopElement.t) : bool :=
  String.eqb (LoopElement.type element) "wire".

Definition loopTotalVoltage (components : list Component.t)
    (loop : list LoopElement.t) : float :=
  foldl (fun totalVoltage element =>
           if isComponent element then
             totalVoltage + LoopElement.direction element
               * valueOf Values.voltage (componentAt components (LoopElement.id element))
           else totalVoltage) 0 loop.

(** [component.values.voltage -= element.direction * correction], for a
    component that is there and is no source. *)
Definition adjustVoltage (correction : float) (components : list Component.t)
    (element : LoopElement.t) : Completion (list Component.t) :=
  if isComponent element then
    match indexById components (LoopElement.id element) with
    | Some i =>
        match components !! i with
        | Some component =>
            if Component.isSource component then Normal components
            else
              match Component.values component with
              | Some v =>
                  Normal (<[i := Component.set_values
                              (Some (Values.set_voltage
                                 (Values.voltage v - LoopElement.direction element * correction) v))
                              component]> components)
              | None => Throw TypeError components
              end
        | None => Normal components
        end
    | None => Normal components
    end
  else Normal components.

Definition correctLoop (components : list Component.t) (loop : list LoopElement.t)
    : Completion (list Component.t) :=
  let totalVoltage := loopTotalVoltage components loop in
  if 0.001 <? JS.Math_abs totalVoltage then
    let correction := totalVoltage / JS.ofNat (length loop) in
    foldThrow (adjustVoltage correction) loop components
  else Normal components.

Definition wireCurrentOf (wires : list Wire.t) (key : string) : float :=
  JS.or (match wireIndexById wires key with
         | Some i =>
             match wires !! i with
             | Some w => Wire.current w
             | None => None
             end
         | None => None
         end) 0.

Definition nodeTotalCurrent (components : list Component.t) (wires : list Wire.t)
    (node : Node.t) : float :=
  foldl (fun totalCurrent connection =>
           if isComponent connection then
             totalCurrent + LoopElement.direction connection
               * valueOf Values.current (componentAt components (LoopElement.id connection))
           else if isWire connection then
             totalCurrent + LoopElement.direction connection
               * wireCurrentOf wires (LoopElement.id connection)
           else totalCurrent) 0 (Node.connections node).

(** A number read off a field that may be [undefined]. *)
Definition toNumber (x : option float) : float :=
  match x with Some v => v | None => nan end.

Definition adjustCurrent (correction : float)
    (s : list Component.t * list Wire.t) (connection : LoopElement.t)
    : Completion (list Component.t * list Wire.t) :=
  let '(components, wires) := s in
  if isComponent connection then
    match indexById components (LoopElement.id connection) with
    | Some i =>
        match components !! i with
        | Some component =>
            if Component.isType "current-source" component then Normal s
            else
              match Component.values component with
              | Some v =>
                  Normal (<[i := Component.set_values
                              (Some (Values.set_current
                                 (Values.current v - LoopElement.direction connection * correction) v))
                              component]> components, wires)
              | None => Throw TypeError s
              end
        | None => Normal s
        end
    | None => Normal s
    end
  else if isWire connection then
    match wireIndexById wires (LoopElement.id connection) with
    | Some i =>
        match wires !! i with
        | Some wire =>
            Normal (components,
                    <[i := Wire.set_current
                        (Some (toNumber (Wire.current wire)
                               - LoopElement.direction connection * correction)) wire]> wires)
        | None => Normal s
        end
    | None => Normal s
    end
  else Normal s.

Definition correctNode (s : list Component.t * list Wire.t) (node : Node.t)
    : Completion (list Component.t * list Wire.t) :=
  let totalCurrent := nodeTotalCurrent (fst s) (snd s) node in
  if 0.001 <? JS.Math_abs totalCurrent then
    let correction := totalCurrent / JS.ofNat (length (Node.connections node)) in
    foldThrow (adjustCurrent correction) (Node.connections node) s
  else Normal s.

(** One round of the [forEach] of [findCurrentNodes]: the node of a wire
    that has connections, when more than one of them resolves. *)
Definition nodeOfWire (components : list Component.t) (wire : Wire.t)
    : option Node.t :=
  match Wire.connections wire with
  | Some ((_ :: _) as connections) =>
      let node :=
        Node.mk ("node-" ++ Wire.id wire)%string
          (flat_map (fun connection =>
                       let '(componentId, terminal) := splitConnection connection in
                       match componentAt components componentId with
                       | Some _ =>
                           [LoopElement.mk "component" componentId
                              (match terminal with
                               | Some t => if String.eqb t "1" then 1 else -1
                               | None => -1
                               end)]
                       | None => []
                       end) connections) in
      if (1 <? length (Node.connections node))%nat then Some node else None
  | _ => None
  end.

Definition findCurrentNodes (components : list Component.t) (wires : list Wire.t)
    : list Node.t :=
  omap (nodeOfWire components) wires.

Definition applyConservationLaws (components : list Component.t)
    (wires : list Wire.t) : Completion (list Component.t * list Wire.t) :=
  match findVoltageLoops components wires with
  | inl e => Throw e (components, wires)
  | inr voltageLoops =>
      match foldThrow correctLoop voltageLoops components with
      | Throw e components' => Throw e (components', wires)
      | Normal components' =>
          let currentNodes := findCurrentNodes components' wires in
          foldThrow correctNode currentNodes (components', wires)
      end
  end.

End ConservationLaws.

(** *** DC analysis *)

(** [component.properties.voltage.value]; [None] is the [TypeError] of a
    missing link. *)
Definition propertyOf (get : Properties.t -> option float) (c : Component.t)
    : option float :=
  match Component.properties c with
  | Some p => get p
  | None => None
  end.

(** [let x = d; components.forEach(c => { if (c.type === ty) x = read(c) })],
    where reading may throw. *)
Definition scanLast (ty : string) (read : Component.t -> option float) (d : float)
    (components : list Component.t) : option float :=
  foldl (fun acc c =>
           match acc with
           | Some x => if Component.isType ty c then read c else Some x
           | None => None
           end) (Some d) components.

(** The inductor's scan: [if (c.type === 'resistor' && c.values.current)
    circuitCurrent = c.values.current]. *)
Definition scanCircuitCurrent (components : list Component.t) : option float :=
  foldl (fun acc c =>
           match acc with
           | Some x =>
               if Component.isType "resistor" c then
                 match Component.values c with
                 | Some v => Some (JS.or (Some (Values.current v)) x)
                 | None => None
                 end
               else Some x
           | None => None
           end) (Some 0.1) components.

Definition dcComponent (components : list Component.t) (component : Component.t)
    : Completion Component.t :=
  let put v := Component.set_values (Some v) component in
  if Component.isType "voltage-source" component then
    match Component.values component, propertyOf Properties.voltage component with
    | Some v, Some volts =>
        let v1 := Values.set_voltage volts v in
        match scanLast "resistor" (propertyOf Properties.resistance) 1000 components with
        | Some totalResistance =>
            let v2 := Values.set_current (Values.voltage v1 / totalResistance) v1 in
            Normal (put (Values.set_power (Values.voltage v2 * Values.current v2) v2))
        | None => Throw TypeError (put v1)
        end
    | _, _ => Throw TypeError component
    end
  else if Component.isType "resistor" component then
    match scanLast "voltage-source" (propertyOf Properties.voltage) 5 components with
    | Some sourceVoltage =>
        match propertyOf Properties.resistance component, Component.values component with
        | Some resistance, Some v =>
            let v1 := Values.set_current (sourceVoltage / resistance) v in
            let v2 := Values.set_voltage (Values.current v1 * resistance) v1 in
            Normal (put (Values.set_power (Values.voltage v2 * Values.current v2) v2))
        | _, _ => Throw TypeError component
        end
    | None => Throw TypeError component
    end
  else if Component.isType "capacitor" component then
    match Component.values component with
    | Some v =>
        Normal (put (Values.set_power 0 (Values.set_current 0 (Values.set_voltage 0 v))))
    | None => Throw TypeError component
    end
  else if Component.isType "inductor" component then
    match Component.values component with
    | Some v =>
        let v1 := Values.set_voltage 0 v in
        match scanCircuitCurrent components with
        | Some circuitCurrent =>
            Normal (put (Values.set_power 0 (Values.set_current circuitCurrent v1)))
        | None => Throw TypeError (put v1)
        end
    | None => Throw TypeError component
    end
  else
    match Component.values component with
    | Some v =>
        let v1 := Values.set_current 0.01 (Values.set_voltage 0.5 v) in
        Normal (put (Values.set_power (Values.voltage v1 * Values.current v1) v1))
    | None => Throw TypeError component
    end.

(** [component.values.current], truthy, of the wire's end; [None] is the
    [TypeError] of a component without [values]. *)
Definition dcWire (components : list Component.t) (wire : Wire.t)
    : Completion Wire.t :=
  let set i v := Wire.set_voltage (Some v) (Wire.set_current (Some i) wire) in
  let fromTarget :=
    match lookupOpt components (Wire.target wire) with
    | Some targetComponent =>
        match Component.values targetComponent with
        | Some v =>
            if JS.truthy (Values.current v)
            then Normal (set (Values.current v) (Values.voltage v))
            else Normal (set 0.01 0.1)
        | None => Throw TypeError wire
        end
    | None => Normal (set 0.01 0.1)
    end in
  match lookupOpt components (Wire.source wire) with
  | Some sourceComponent =>
      match Component.values sourceComponent with
      | Some v =>
          if JS.truthy (Values.current v)
          then Normal (set (Values.current v) (Values.voltage v))
          else fromTarget
      | None => Throw TypeError wire
      end
  | None => fromTarget
  end.

Definition performDCAnalysis (components : list Component.t) (wires : list Wire.t)
    : Completion (list Component.t * list Wire.t) :=
  match forEach dcComponent components with
  | Throw e components' => Throw e (components', wires)
  | Normal components' =>
      match forEach (fun _ wire => dcWire components' wire) wires with
      | Throw e wires' => Throw e (components', wires')
      | Normal wires' => Normal (components', wires')
      end
  end.

(** *** AC analysis *)

Definition ofType (ty : string) (components : list Component.t) : list Component.t :=
  filter (fun c => Component.isType ty c = true) components.

(** [properties?.waveform?.value || 'sine'] and its like *)
Definition propertyString (get : Properties.t -> option string) (c : Component.t)
    (d : string) : string :=
  orString (match Component.properties c with
            | Some p => get p
            | None => None
            end) d.

Definition acAmplitude (voltageSource : Component.t) : float :=
  JS.toFixed 6
    (JS.or (JS.orElse (Component.value_value voltageSource)
                      (propertyOf Properties.voltage voltageSource)) 5).

Definition acFrequency (voltageSource : Component.t) : float :=
  JS.toFixed 2 (JS.or (propertyOf Properties.frequency voltageSource) 1000).

Definition calculateCircuitImpedance (resistors capacitors inductors : list Component.t)
    (frequency : float) : float :=
  let totalResistance :=
    foldl (fun sum r => sum + JS.or (Component.value_value r) 1000) 1000 resistors in
  let totalCapacitiveReactance :=
    foldl (fun sum c =>
             let capacitance := JS.or (Component.value_value c) 10 * 1e-6 in
             let reactance :=
               if 0 <? frequency then 1 / (2 * JS.Math_PI * frequency * capacitance)
               else infinity in
             sum + reactance) 0 capacitors in
  let totalInductiveReactance :=
    foldl (fun sum l =>
             let inductance := JS.or (Component.value_value l) 1 * 1e-3 in
             let reactance := 2 * JS.Math_PI * frequency * inductance in
             sum + reactance) 0 inductors in
  sqrt (totalResistance * totalResistance
        + Math_pow M (totalInductiveReactance - totalCapacitiveReactance) 2).

(** The callback of [voltageSourceComponents.forEach] in
    [performACAnalysis]; the three arrays hold the passive components. *)
Definition acVoltageSource (time : float) (components : list Component.t)
    (voltageSource : Component.t) : Completion Component.t :=
  let amplitude := acAmplitude voltageSource in
  let frequency := acFrequency voltageSource in
  let waveformType := propertyString Properties.waveform voltageSource "sine" in
  let timeInSeconds := time in
  let voltage :=
    if String.eqb waveformType "sine" then
      amplitude * Math_sin M (2 * JS.Math_PI * frequency * timeInSeconds)
    else if String.eqb waveformType "square" then
      amplitude * JS.Math_sign (Math_sin M (2 * JS.Math_PI * frequency * timeInSeconds))
    else if String.eqb waveformType "triangle" then
      amplitude * (2 * JS.Math_abs (JS.rem (2 * frequency * timeInSeconds) 2 - 1) - 1)
    else if String.eqb waveformType "sawtooth" then
      amplitude * (2 * JS.rem (frequency * timeInSeconds) 1 - 1)
    else amplitude * Math_sin M (2 * JS.Math_PI * frequency * timeInSeconds) in
  match Component.values voltageSource with
  | None => Throw TypeError voltageSource
  | Some v =>
      let v1 := Values.set_voltage (JS.toFixed 6 voltage) v in
      let totalImpedance :=
        calculateCircuitImpedance (ofType "resistor" components)
          (ofType "capacitor" components) (ofType "inductor" components) frequency in
      let v2 := Values.set_current (JS.toFixed 9 (Values.voltage v1 / totalImpedance)) v1 in
      Normal (Component.set_values
                (Some (Values.set_power
                         (JS.toFixed 6 (Values.voltage v2 * Values.current v2)) v2))
                voltageSource)
  end.

(** [processComponents]: the values of the passive components.  [None]
    for the source current is the [TypeError] of reading [values] off
    [null], when there is no voltage source. *)
Definition acPassive (time : float) (sourceCurrent : option float)
    (frequency amplitude : float) (component : Component.t)
    : Completion Component.t :=
  let put voltage current (v : Values.t) :=
    Component.set_values
      (Some (Values.set_power (JS.toFixed 6 (voltage * current))
               (Values.set_current current (Values.set_voltage voltage v))))
      component in
  let phased phaseShift :=
    JS.toFixed 6 (amplitude * Math_sin M (2 * JS.Math_PI * frequency * time + phaseShift)) in
  if Component.isType "resistor" component then
    let resistance := JS.toFixed 6 (JS.or (Component.value_value component) 1000) in
    match sourceCurrent, Component.values component with
    | Some i, Some v =>
        let current := JS.toFixed 9 i in
        let voltage := JS.toFixed 6 (current * resistance) in
        Normal (put voltage current v)
    | _, _ => Throw TypeError component
    end
  else if Component.isType "capacitor" component then
    let capacitanceF := JS.toFixed 12 (JS.or (Component.value_value component) 10 * 1e-6) in
    let reactance :=
      if 0 <? frequency then 1 / (2 * JS.Math_PI * frequency * capacitanceF)
      else infinity in
    let current := JS.toFixed 9 (amplitude / reactance) in
    let voltage := phased (- JS.Math_PI / 2) in
    match Component.values component with
    | Some v => Normal (put voltage current v)
    | None => Throw TypeError component
    end
  else if Component.isType "inductor" component then
    let inductanceH := JS.toFixed 9 (JS.or (Component.value_value component) 1 * 1e-3) in
    let reactance := 2 * JS.Math_PI * frequency * inductanceH in
    let current := JS.toFixed 9 (amplitude / reactance) in
    let voltage := phased (JS.Math_PI / 2) in
    match Component.values component with
    | Some v => Normal (put voltage current v)
    | None => Throw TypeError component
    end
  else Normal component.

(** [for (let f = 10; f <= freqMax; f += freqStep)], a hundred rounds. *)
Fixpoint frequencySweep (fuel : nat) (f : float) (amplitude : float)
    (resistors capacitors inductors : list Component.t) : list Response.t :=
  match fuel with
  | O => []
  | S fuel' =>
      if f <=? 10000 then
        let impedance := calculateCircuitImpedance resistors capacitors inductors f in
        let magnitude := JS.toFixed 6 (amplitude / impedance) in
        let afterInductors :=
          foldl (fun totalReactance inductor =>
                   let inductanceH := JS.or (Component.value_value inductor) 1 * 1e-3 in
                   totalReactance + 2 * JS.Math_PI * f * inductanceH) 0 inductors in
        let totalReactance :=
          foldl (fun totalReactance capacitor =>
                   let capacitanceF := JS.or (Component.value_value capacitor) 10 * 1e-6 in
                   totalReactance - 1 / (2 * JS.Math_PI * f * capacitanceF))
                afterInductors capacitors in
        let totalResistance :=
          foldl (fun sum r => sum + JS.or (Component.value_value r) 1000) 1000 resistors in
        let phase := Math_atan2 M totalReactance totalResistance in
        Response.mk f magnitude phase impedance
          :: frequencySweep fuel' (f + 100) amplitude resistors capacitors inductors
      else []
  end.

(** [resistors.forEach], [capacitors.forEach] and [inductors.forEach]
    walk the components of one type, in the order of the array. *)
Definition acOnly (ty : string) (time : float) (sourceCurrent : option float)
    (frequency amplitude : float) (l : list Component.t) (c : Component.t)
    : Completion Component.t :=
  if Component.isType ty c
  then acPassive time sourceCurrent frequency amplitude c
  else Normal c.

Definition processComponents (time : float) (components : list Component.t)
    : Completion (list Component.t) * list Response.t :=
  let voltageSource := head (ofType "voltage-source" components) in
  let frequency :=
    match voltageSource with Some vs => acFrequency vs | None => 1000 end in
  let amplitude :=
    match voltageSource with Some vs => acAmplitude vs | None => 5 end in
  let sourceCurrent :=
    match voltageSource with
    | Some vs =>
        match Component.values vs with
        | Some v => Some (Values.current v)
        | None => None
        end
    | None => None
    end in
  let only ty := acOnly ty time sourceCurrent frequency amplitude in
  let result :=
    match forEach (only "resistor") components with
    | Throw e cs => Throw e cs
    | Normal cs =>
        match forEach (only "capacitor") cs with
        | Throw e cs' => Throw e cs'
        | Normal cs' => forEach (only "inductor") cs'
        end
    end in
  (result,
   frequencySweep 101 10 amplitude (ofType "resistor" components)
     (ofType "capacitor" components) (ofType "inductor" components)).

Definition updateACWire (components : list Component.t) (wire : Wire.t) : Wire.t :=
  let truthyId (x : option string) :=
    if SimulationValidator.falsyString x then None else x in
  let copy (v : Values.t) :=
    Wire.set_voltage (Some (JS.toFixed 6 (JS.or (Some (Values.voltage v)) 0)))
      (Wire.set_current (Some (JS.toFixed 9 (JS.or (Some (Values.current v)) 0))) wire) in
  let viaTarget :=
    match lookupOpt components (truthyId (Wire.target wire)) with
    | Some targetComponent =>
        match Component.values targetComponent with
        | Some v => copy v
        | None => wire
        end
    | None => wire
    end in
  match lookupOpt components (truthyId (Wire.source wire)) with
  | Some sourceComponent =>
      match Component.values sourceComponent with
      | Some v => copy v
      | None => viaTarget
      end
  | None => viaTarget
  end.

Definition acSource (time : float) (l : list Component.t) (c : Component.t)
    : Completion Component.t :=
  if Component.isType "voltage-source" c then acVoltageSource time l c
  else Normal c.

Definition performACAnalysis (time : float) (components : list Component.t)
    (wires : list Wire.t)
    : Completion (list Component.t * list Wire.t) * list Message :=
  match forEach (acSource time) components with
  | Throw e cs => (Throw e (cs, wires), [])
  | Normal cs =>
      match processComponents time cs with
      | (Throw e cs', _) => (Throw e (cs', wires), [])
      | (Normal cs', responses) =>
          (Normal (cs', map (updateACWire cs') wires),
           [frequency_response responses])
      end
  end.

(** *** The driver *)

Definition initializeValueHistory (s : State.t) : State.t :=
  let size := 5%nat in
  let componentValueHistory :=
    foldl (fun h component =>
             <[Component.id component :=
                 ArrayHistory
                   (replicate size (valuesOr Values.voltage component))
                   (replicate size (valuesOr Values.current component))]> h)
          (State.componentValueHistory s) (State.components s) in
  let wireValueHistory :=
    foldl (fun h wire =>
             <[Wire.id wire := replicate size (JS.or (Wire.current wire) 0)]> h)
          (State.wireValueHistory s) (State.wires s) in
  State.set_wireValueHistory wireValueHistory
    (State.set_componentValueHistory componentValueHistory s).

Definition startSimulation (data : StartData.t) (w : World.t) : World.t :=
  let s := World.state w in
  let type := orString (StartData.simulationType data) "tran" in
  let s1 :=
    State.mk true (JS.or (StartData.simulationSpeed data) 1) type
      (default [] (StartData.components data)) (default [] (StartData.wires data))
      0 0 ∅ ∅ false (State.stabilityTracker s) in
  let s2 := initializeValueHistory s1 in
  let s3 :=
    if String.eqb type "ac"
    then State.set_stabilityTracker (Tracker.configure 10 0.8 (State.stabilityTracker s2)) s2
    else if String.eqb type "dc"
    then State.set_stabilityTracker (Tracker.configure 3 0.5 (State.stabilityTracker s2)) s2
    else s2 in
  let interval := JS.Math_max 10 (50 / State.speed s3) in
  World.postMessage simulation_started
    (World.setInterval StepLoop interval (World.set_state s3 w)).

Definition recoverFromError (s : State.t) : State.t :=
  let components :=
    map (fun component =>
           let '(ok, c) := SimulationValidator.validateComponent component in
           if ok then c else Component.set_values (Some Values.zero) c)
        (State.components s) in
  let wires :=
    map (fun wire =>
           let '(ok, w) := SimulationValidator.validateWire wire in
           if ok then w else Wire.set_voltage (Some 0) (Wire.set_current (Some 0) w))
        (State.wires s) in
  initializeValueHistory
    (State.set_iterationCount 0
       (State.set_stabilized false
          (State.set_wires wires (State.set_components components s)))).

(** The [switch] on [simulationState.type]. *)
Inductive Analysis := Transient | DC | AC.

Definition analysisOf (type : string) : Analysis :=
  if String.eqb type "tran" then Transient
  else if String.eqb type "dc" then DC
  else if String.eqb type "ac" then AC
  else Transient.

(** The [catch] clause of [performSimulationStep]. *)
Definition stepFailed (s : State.t) (w : World.t) : World.t :=
  World.set_state (recoverFromError s)
    (World.postMessage (simulation_error (State.time s)) w).

Definition performSimulationStep (w : World.t) : World.t :=
  let s := World.state w in
  if negb (State.running s) then w
  else
    let s1 := State.set_iterationCount (State.iterationCount s + 1) s in
    let s2 :=
      State.set_components
        (map (fun c => snd (SimulationValidator.validateComponent c)) (State.components s1))
        s1 in
    let s3 :=
      State.set_wires
        (map (fun x => snd (SimulationValidator.validateWire x)) (State.wires s2)) s2 in
    let store (r : list Component.t * list Wire.t) :=
      State.set_wires (snd r) (State.set_components (fst r) s3) in
    match analysisOf (State.type s3) with
    | Transient =>
        let s4 := performTransientAnalysis s3 in
        let '(validationResult, components, wires) :=
          SimulationValidator.validateSimulation
            (map (fun c => snd (SimulationValidator.validateComponent c)) (State.components s4))
            (map (fun x => snd (SimulationValidator.validateWire x)) (State.wires s4)) in
        let s5 := State.set_wires wires (State.set_components components s4) in
        World.postMessage
          (simulation_update components wires (State.time s5) (State.stabilized s5)
             validationResult)
          (World.set_state s5 w)
    | DC =>
        match performDCAnalysis (State.components s3) (State.wires s3) with
        | Normal r => World.set_state (store r) w
        | Throw _ r => stepFailed (store r) w
        end
    | AC =>
        match performACAnalysis (State.time s3) (State.components s3) (State.wires s3) with
        | (Normal r, messages) =>
            World.set_state (store r) (foldl (fun w m => World.postMessage m w) w messages)
        | (Throw _ r, _) => stepFailed (store r) w
        end
    end.

Definition pauseSimulation (w : World.t) : World.t :=
  World.postMessage simulation_paused
    (World.set_state (State.set_running false (World.state w)) w).

Definition resetSimulationValues (s : State.t) : State.t :=
  State.set_wires
    (map (fun wire => Wire.set_voltage (Some 0) (Wire.set_current (Some 0) wire))
         (State.wires s))
    (State.set_components
       (map (Component.set_values (Some Values.zero)) (State.components s)) s).

Definition stopSimulation (w : World.t) : Completion World.t :=
  let w1 := World.set_state (State.set_running false (World.state w)) w in
  match World.simulationInterval w1 with
  | Undeclared => Throw ReferenceError w1
  | Declared handle =>
      let w2 :=
        match handle with
        | Some h => World.set_simulationInterval (Declared None) (World.clearInterval h w1)
        | None => w1
        end in
      let w3 := World.set_state (resetSimulationValues (World.state w2)) w2 in
      Normal (World.postMessage
                (simulation_stopped
                   (map briefComponent (State.components (World.state w3)))
                   (map briefWire (State.wires (World.state w3))))
                w3)
  end.

(** The callback [updateSimulationSpeed] installs.  Nothing catches what
    an analysis throws here: the callback ends there. *)
Definition speedLoopStep (w : World.t) : World.t :=
  let s := World.state w in
  if negb (State.running s) then w
  else
    let store (r : list Component.t * list Wire.t) :=
      State.set_wires (snd r) (State.set_components (fst r) s) in
    let advance (s' : State.t) (w' : World.t) :=
      let s'' := State.set_time (State.time s' + 0.01 * State.speed s') s' in
      World.postMessage
        (simulation_update_brief
           (map briefComponent (State.components s''))
           (map briefWire (State.wires s'')) (State.time s''))
        (World.set_state s'' w') in
    match analysisOf (State.type s) with
    | Transient => advance (performTransientAnalysis s) w
    | DC =>
        match performDCAnalysis (State.components s) (State.wires s) with
        | Normal r => advance (store r) w
        | Throw _ r => World.set_state (store r) w
        end
    | AC =>
        match performACAnalysis (State.time s) (State.components s) (State.wires s) with
        | (Normal r, messages) =>
            advance (store r) (foldl (fun w m => World.postMessage m w) w messages)
        | (Throw _ r, _) => World.set_state (store r) w
        end
    end.

Definition updateSimulationSpeed (speed : float) (w : World.t) : Completion World.t :=
  if speed <=? 0 then Normal w
  else
    let w1 := World.set_state (State.set_speed speed (World.state w)) w in
    if State.running (World.state w1) then
      match World.simulationInterval w1 with
      | Undeclared => Throw ReferenceError w1
      | Declared (Some h) =>
          let interval := JS.Math_max 10 (50 / speed) in
          Normal (World.setInterval SpeedLoop interval (World.clearInterval h w1))
      | Declared None => Normal w1
      end
    else Normal w1.

(** One firing of the interval timer [handle]. *)
Definition tick (handle : nat) (w : World.t) : World.t :=
  match World.timers w !! handle with
  | Some (StepLoop, _) =>
      if State.running (World.state w) then performSimulationStep w else w
  | Some (SpeedLoop, _) => speedLoopStep w
  | None => w
  end.

End Engine.

(** ** The rest of the worker *)

(** *** The stability check *)

(** [calculateStability(history)] on an array: the mean of the absolute
    changes between neighbours. *)
Definition calculateStability (history : list float) : float :=
  if (length history <? 2)%nat then 0%float
  else
    let totalChange :=
      foldl (fun totalChange i =>
               (totalChange
                + JS.Math_abs (nth i history nan - nth (i - 1) history nan))%float)
            0%float (seq 1 (length history - 1)) in
    (totalChange / JS.ofNat (length history - 1))%float.

(** [calculateStability] on a record of [applyStabilityFilter], which is no
    array: its [length] is [undefined], so that neither the test nor the
    loop is entered and the quotient is [0 / NaN]. *)
Definition calculateStabilityOfRecord : float := (0 / nan)%float.

(** One round of the first loop of [checkSimulationStability]: [true] when
    the entry does not break the loop. *)
Definition entryStable (history : HistoryEntry) : bool :=
  let '(voltageStability, currentStability) :=
    match history with
    | ArrayHistory voltage current =>
        (calculateStability voltage, calculateStability current)
    | FilterEntry _ _ => (calculateStabilityOfRecord, calculateStabilityOfRecord)
    end in
  negb ((0.1 <? voltageStability)%float || (0.01 <? currentStability)%float).

(** [checkSimulationStability()].  The two [for ... in] loops do nothing
    but clear [stable] at the first entry that is not stable: in whichever
    order they meet the keys, the answer is whether all entries are. *)
Definition checkSimulationStability (s : State.t) : bool :=
  forallb (fun entry => entryStable (snd entry))
          (map_to_list (State.componentValueHistory s))
  && forallb (fun entry => negb (0.01 <? calculateStability (snd entry))%float)
             (map_to_list (State.wireValueHistory s)).

(** *** The components on a wire *)

(** [findConnectedComponents(wire, excludeComponentId, componentsById)],
    where [wire] may be [undefined] and [componentsById] is the index of the
    components by id that its callers build, in which the last component of
    an id stands for the id. *)
Definition findConnectedComponents (components : list Component.t)
    (wire : option Wire.t) (excludeComponentId : string)
    : list (Component.t * option string) :=
  match wire with
  | Some wire =>
      match Wire.connections wire with
      | Some connections =>
          flat_map (fun connection =>
                      let '(componentId, terminal) := splitConnection connection in
                      if String.eqb componentId excludeComponentId then []
                      else
                        match lookupById components componentId with
                        | Some component => [(component, terminal)]
                        | None => []
                        end) connections
      | None => []
      end
  | None => []
  end.

(** *** SignalProcessing

    The window sizes are natural numbers. *)

Module SignalProcessing.

(** [array.slice(-k)]: the last [k] elements, and the whole array for
    [k = 0], since [-0] is [0]. *)
Definition sliceLast {A} (k : nat) (array : list A) : list A :=
  match k with
  | O => array
  | S _ => drop (length array - k) array
  end.

Definition lowPassFilter (input prevOutput : float) (alpha : option float) : float :=
  let alpha := default 0.2%float alpha in
  (alpha * input + (1 - alpha) * prevOutput)%float.

Definition highPassFilter (input prevInput prevOutput : float) (alpha : option float)
    : float :=
  let alpha := default 0.8%float alpha in
  (alpha * prevOutput + alpha * (input - prevInput))%float.

Definition movingAverage (inputArray : list float) (windowSize : option nat) : float :=
  let windowSize := default 5 windowSize in
  if (length inputArray =? 0)%nat then 0%float
  else
    let validWindow := Nat.min windowSize (length inputArray) in
    let sum := JS.sum 0 (sliceLast validWindow inputArray) in
    (sum / JS.ofNat validWindow)%float.

Definition medianFilter (inputArray : list float) (windowSize : option nat) : float :=
  let windowSize := default 5 windowSize in
  if (length inputArray =? 0)%nat then 0%float
  else
    let validWindow := Nat.min windowSize (length inputArray) in
    let windowData := JS.sortNumbers (sliceLast validWindow inputArray) in
    let middle := (length windowData / 2)%nat in
    if Nat.even (length windowData)
    then ((nth (middle - 1) windowData nan + nth middle windowData nan) / 2)%float
    else nth middle windowData nan.

Record KalmanOptions := {
  processNoise : option float;
  measurementNoise : option float
}.

Record KalmanState := { estimate : float; errorCovariance : float }.

Definition kalmanFilter (measurement prevEstimate errorCovariance : float)
    (options : option KalmanOptions) : KalmanState :=
  let options := default {| processNoise := None; measurementNoise := None |} options in
  let Q := JS.or (processNoise options) 0.001 in
  let R := JS.or (measurementNoise options) 0.1 in
  let predictedEstimate := prevEstimate in
  let predictedErrorCovariance := (errorCovariance + Q)%float in
  let kalmanGain := (predictedErrorCovariance / (predictedErrorCovariance + R))%float in
  let currentEstimate :=
    (predictedEstimate + kalmanGain * (measurement - predictedEstimate))%float in
  let currentErrorCovariance := ((1 - kalmanGain) * predictedErrorCovariance)%float in
  {| estimate := currentEstimate; errorCovariance := currentErrorCovariance |}.

Definition adaptiveFilter (newValue : float) (history : list float) (stability : float)
    : float :=
  let alpha := JS.Math_min 0.8 (JS.Math_max 0.1 (1 - stability)) in
  let filterStrength := if (0.8 <? stability)%float then 0.9%float else alpha in
  match last history with
  | Some previous => lowPassFilter newValue previous (Some filterStrength)
  | None => newValue
  end.

End SignalProcessing.

(** *** The accuracy settings

    The fields [calculationResolution] and [stabilityFactor] of the
    settings hold values of any kind, of which the worker takes the
    truthiness and what [parseInt] makes of them.  Both are the host's, and
    parameters here. *)

(** What [parseInt] returns: an integer, an infinity (of a digit string
    beyond the range of the numbers), or [NaN]. *)
Inductive ParsedNumber :=
| ParsedNaN
| ParsedInfinity (negative : bool)
| ParsedInteger (z : Z).

(** [!isNaN(factor) && factor >= 1] *)
Definition atLeastOne (factor : ParsedNumber) : bool :=
  match factor with
  | ParsedNaN => false
  | ParsedInfinity negative => negb negative
  | ParsedInteger z => (1 <=? z)%Z
  end.

(** [!isNaN(factor) && factor >= 1 && factor <= 10]: the integer that
    passes the test, if [factor] does. *)
Definition fromOneToTen (factor : ParsedNumber) : option Z :=
  match factor with
  | ParsedInteger z => if (1 <=? z)%Z && (z <=? 10)%Z then Some z else None
  | _ => None
  end.

(** [Math.round] of a finite number: the integer nearest to it, the larger
    one on a tie. *)
Definition Math_round (x : float) : Z :=
  match Prim2SF x with
  | S754_finite s m e =>
      let n := if s then Z.neg m else Z.pos m in
      if (0 <=? e)%Z then (n * 2 ^ e)%Z
      else ((2 * n + 2 ^ (- e)) / (2 * 2 ^ (- e)))%Z
  | _ => 0%Z
  end.

(** An integer between 1 and 10 as a number. *)
Definition ofInteger (z : Z) : float := of_uint63 (Uint63.of_Z z).

(** [simulationState] together with its property [calcResolution], which
    the state is created without and [updateAccuracy] adds to it. *)
Record AccuracyState := {
  simulationState : State.t;
  calcResolution : option ParsedNumber
}.

Section Accuracy.

Variable JSValue : Type.
Variable truthyValue : JSValue -> bool.

(** [parseInt(x)]; [None] when it throws. *)
Variable parseInt : JSValue -> option ParsedNumber.

Record Settings := {
  accuracyLevel : option string;
  calculationResolution : option JSValue;
  stabilityFactor : option JSValue
}.

(** [if (settings.calculationResolution) { ... }]: the resolution that the
    state has after it; [None] when [parseInt] throws. *)
Definition applyResolution (x : option JSValue) (resolution : option ParsedNumber)
    : option (option ParsedNumber) :=
  match x with
  | Some v =>
      if truthyValue v then
        match parseInt v with
        | None => None
        | Some factor => Some (if atLeastOne factor then Some factor else resolution)
        end
      else Some resolution
  | None => Some resolution
  end.

(** [if (settings.stabilityFactor) { ... }]: the tracker after it; [None]
    when [parseInt] throws. *)
Definition applyStabilityFactor (x : option JSValue) (tracker : Tracker.t)
    : option Tracker.t :=
  match x with
  | Some v =>
      if truthyValue v then
        match parseInt v with
        | None => None
        | Some factor =>
            Some (match fromOneToTen factor with
                  | Some factor =>
                      Tracker.configure
                        (Nat.max 3 (Z.to_nat (Math_round (ofInteger factor * 1.2)%float)))
                        (0.5 + ofInteger factor * 0.05)%float tracker
                  | None => tracker
                  end)
        end
      else Some tracker
  | None => Some tracker
  end.

(** [updateAccuracy(settings)].  What [parseInt] throws is caught, and ends
    the call with what had been written before. *)
Definition updateAccuracy (settings : option Settings) (s : AccuracyState)
    : AccuracyState :=
  match settings with
  | None => s
  | Some settings =>
      let tracker := State.stabilityTracker (simulationState s) in
      let preset maxSamples smoothingFactor varianceThreshold :=
        Tracker.mk (Tracker.samplesCollected tracker) maxSamples
          (Tracker.prevValues tracker) smoothingFactor varianceThreshold in
      let level := default "" (accuracyLevel settings) in
      let tracker1 :=
        if String.eqb level "low" then preset 3 0.5%float 0.2%float
        else if String.eqb level "medium" then preset 5 0.7%float 0.1%float
        else if String.eqb level "high" then preset 8 0.8%float 0.05%float
        else if String.eqb level "ultra" then preset 12 0.9%float 0.02%float
        else tracker in
      match applyResolution (calculationResolution settings) (calcResolution s) with
      | None =>
          {| simulationState := State.set_stabilityTracker tracker1 (simulationState s);
             calcResolution := calcResolution s |}
      | Some resolution =>
          let tracker2 :=
            match applyStabilityFactor (stabilityFactor settings) tracker1 with
            | Some tracker2 => tracker2
            | None => tracker1
            end in
          {| simulationState := State.set_stabilityTracker tracker2 (simulationState s);
             calcResolution := resolution |}
      end
  end.

End Accuracy.

(** ** Vocabulary of the statements *)

(** A component that carries what DC analysis reads without a check:
    [values], and for a source and a resistor the property it is named
    after. *)
Definition dcReady (c : Component.t) : Prop :=
  is_Some (Component.values c) /\
  (Component.isType "voltage-source" c = true ->
     is_Some (propertyOf Properties.voltage c)) /\
  (Component.isType "resistor" c = true ->
     is_Some (propertyOf Properties.resistance c)).

(** What a DC step leaves in a capacitor, an inductor and a component of a
    type it has no rule for (a ground, a diode, ...). *)
Definition dcSteady (c : Component.t) : Prop :=
  (Component.isType "capacitor" c = true -> Component.values c = Some Values.zero) /\
  (Component.isType "inductor" c = true ->
     exists v, Component.values c = Some v /\ Values.voltage v = 0%float
               /\ Values.power v = 0%float).

Definition isPlain (c : Component.t) : bool :=
  negb (Component.isType "voltage-source" c || Component.isType "resistor" c
        || Component.isType "capacitor" c || Component.isType "inductor" c).

(** What a component is and what the analyses have computed for it: all of
    it but the five loose numeric fields [voltage], [current],
    [resistance], [capacitance] and [inductance]. *)
Definition core (c : Component.t)
    : string * string * option Values.t * option Parameters.t
      * option Properties.t * option float :=
  (Component.id c, Component.type c, Component.values c,
   Component.parameters c, Component.properties c, Component.value c).

(** What a DC step leaves in a component of a type it has no rule for. *)
Definition dcPlain (c : Component.t) : Prop :=
  isPlain c = true ->
  exists v, Component.values c = Some v
            /\ Values.voltage v = 0.5%float /\ Values.current v = 0.01%float.

(** A Math library to run the examples against; none of them depends on
    what it answers. *)
Definition exampleMath : MathLib :=
  {| Math_sin := fun x => x;
     Math_pow := fun x _ => (x * x)%float;
     Math_atan2 := fun y x => (y / x)%float |}.

Definition exampleComponent (id type : string) (values : option Values.t) : Component.t :=
  Component.mk id type values None None None None None None None None.

(** A running DC simulation of a capacitor, an inductor and a ground. *)
Definition dcWorld : World.t :=
  World.mk
    (State.mk true 1 "dc"
       [exampleComponent "C1" "capacitor" (Some (Values.mk 3 1 3));
        exampleComponent "L1" "inductor" (Some (Values.mk 2 1 2));
        exampleComponent "G1" "ground" (Some Values.zero)]
       [] 0 0 ∅ ∅ false Tracker.initial)
    (Declared (Some 1%nat)) {[ 1%nat := (StepLoop, 50%float) ]} 2 [].


(** The states from which [stopSimulation] is called: as long as
    [simulationInterval] has never been assigned, no simulation has been
    started, so that no circuit is loaded and no timer runs. *)
Definition started (w : World.t) : Prop :=
  World.simulationInterval w = Undeclared ->
  State.components (World.state w) = []
  /\ State.wires (World.state w) = []
  /\ World.timers w = ∅.



(** A running transient simulation of a 5 V source, a resistor and a wire
    between them. *)
Definition transientWorld : World.t :=
  World.mk
    (State.mk true 2 "tran"
       [Component.mk "V1" "voltage-source" (Some Values.zero)
          (Some (Parameters.mk (Some 5%float) None None (Some "dc")))
          None None None None None None None;
        exampleComponent "R1" "resistor" (Some (Values.mk 1 2 2))]
       [Wire.mk "W1" (Some ["V1-1"; "R1-1"]) (Some 3%float) (Some 4%float)
          (Some "V1") (Some "R1") None None]
       0 0 ∅ ∅ false Tracker.initial)
    (Declared (Some 1%nat)) {[ 1%nat := (StepLoop, 25%float) ]} 2 [].

(** The waveforms as the specification words them: dc is the amplitude,
    sine is amplitude x sin(2 pi f t) + offset, square is plus or minus the
    amplitude by the sign of the sine, plus the offset. *)
Definition waveformValue (M : MathLib) (kind : string)
    (amplitude frequency dcOffset t : float) : float :=
  let sine := Math_sin M (2 * JS.Math_PI * frequency * t)%float in
  if String.eqb kind "dc" then amplitude
  else if String.eqb kind "sine" then (amplitude * sine + dcOffset)%float
  else if (0 <=? sine)%float then (amplitude + dcOffset)%float
  else (- amplitude + dcOffset)%float.

(** A 5 V DC source whose values hold a current that is not a number, a
    square-wave source with an infinite offset, and a DC source whose
    amplitude has more than six decimals. *)
Definition sourceWithNaNCurrent : Component.t :=
  Component.mk "V1" "voltage-source" (Some (Values.mk 0 nan 0))
    (Some (Parameters.mk (Some 5%float) (Some 1%float) (Some 0%float) (Some "dc")))
    None None None None None None None.

Definition sourceWithInfiniteOffset : Component.t :=
  Component.mk "V2" "voltage-source" (Some (Values.mk 0 1 0))
    (Some (Parameters.mk (Some 5%float) (Some 1%float) (Some infinity) (Some "square")))
    None None None None None None None.

Definition dcSource : Component.t :=
  Component.mk "V3" "voltage-source" (Some (Values.mk 0 0.25 0))
    (Some (Parameters.mk (Some 12.3456789%float) (Some 2%float) (Some 1%float)
             (Some "dc")))
    None None None None None None None.

(** The median of a history: the middle of the sorted values, or the mean
    of the two middle ones. *)
Definition medianOf (values : list float) : float :=
  let sorted := JS.sortNumbers values in
  let mid := (length sorted / 2)%nat in
  if Nat.even (length sorted)
  then ((nth (mid - 1) sorted nan + nth mid sorted nan) / 2)%float
  else nth mid sorted nan.

(** [Math.max(-1000, Math.min(1000, x))] *)
Definition clamp1000 (x : float) : float :=
  JS.Math_max (-1000) (JS.Math_min 1000 x).

(** The value the filter selects, from the input and the history as the
    call leaves it. *)
Definition selectedValue (x : float) (h : FilterHistory.t) : float :=
  if (5 <? FilterHistory.fluctuationCount h)%float
  then medianOf (FilterHistory.values h)
  else if (2 <? FilterHistory.fluctuationCount h)%float
  then FilterHistory.exponentialAvg h
  else (0.7 * x + 0.3 * FilterHistory.exponentialAvg h)%float.

(** A fresh history, as [applyStabilityFilter] creates it for a quantity
    that is 0 at time 0. *)
Definition freshHistory : FilterHistory.t := FilterHistory.init 0 0.

(** The elements of a loop that stand for the component at index [i] of the
    array: those whose id [componentsById] resolves to it. *)
Definition occurrences (components : list Component.t) (i : nat)
    (loop : list LoopElement.t) : list LoopElement.t :=
  filter (fun element =>
            isComponent element = true
            /\ indexById components (LoopElement.id element) = Some i) loop.

(** [v -= element.direction * correction], once for each of the elements. *)
Definition subtractAll (correction v : float) (elements : list LoopElement.t) : float :=
  foldl (fun acc element => (acc - LoopElement.direction element * correction)%float)
        v elements.

(** The component at index [i] once the correction of a loop has gone
    through the loop: a source as it was, any other component with the
    correction subtracted from its voltage once for each of its
    occurrences. *)
Definition adjusted (correction : float) (components : list Component.t)
    (loop : list LoopElement.t) (i : nat) (c : Component.t) : Component.t :=
  match Component.values c with
  | Some v =>
      if Component.isSource c then c
      else Component.set_values
             (Some (Values.set_voltage
                      (subtractAll correction (Values.voltage v)
                         (occurrences components i loop)) v)) c
  | None => c
  end.

(** What the corrector must keep of a component: which one it is, and for a
    source its voltage. *)
Definition sourceView (c : Component.t) : string * string * option (option float) :=
  (Component.id c, Component.type c,
   if Component.isSource c
   then Some (match Component.values c with
              | Some v => Some (Values.voltage v)
              | None => None
              end)
   else None).

Definition hasValues (c : Component.t) : Prop := is_Some (Component.values c).

(** Two resistors in a ring of two wires, and the loop that
    [findVoltageLoops] builds from the first: it closes on its origin, which
    is thereby its first and its last element. *)
Definition ring : list Component.t :=
  [exampleComponent "A" "resistor" (Some (Values.mk 3 0 0));
   exampleComponent "B" "resistor" (Some (Values.mk 2 0 0))].

Definition ringWires : list Wire.t :=
  [Wire.mk "W1" (Some ["A-2"; "B-1"]) None None None None None None;
   Wire.mk "W2" (Some ["B-2"; "A-1"]) None None None None None None].

(** A [getComponentConnections] for the examples: the wires that list the
    component, in the order of the array. *)
Definition exampleConnections (component : Component.t) (wires : list Wire.t)
    : list Connection.t :=
  flat_map (fun wire =>
              flat_map (fun connection =>
                          let '(componentId, terminal) := splitConnection connection in
                          if String.eqb componentId (Component.id component)
                          then [Connection.mk wire (default "" terminal)] else [])
                       (default [] (Wire.connections wire))) wires.

Definition ringLoop : list LoopElement.t :=
  [LoopElement.mk "component" "A" 1; LoopElement.mk "component" "B" 1;
   LoopElement.mk "component" "A" 1].

(** The array after the correction of one loop. *)
Definition corrected (components : list Component.t) (loop : list LoopElement.t)
    : list Component.t :=
  let totalVoltage := loopTotalVoltage components loop in
  if (0.001 <? JS.Math_abs totalVoltage)%float
  then imap (adjusted (totalVoltage / JS.ofNat (length loop))%float components loop)
            components
  else components.

(** A loop that starts and ends with the same component. *)
Definition closedOnOrigin (loop : list LoopElement.t) : Prop :=
  exists origin middle,
    loop = LoopElement.mk "component" origin 1
           :: middle ++ [LoopElement.mk "component" origin 1].

(** *** The vocabulary of the further properties *)

(** The frequencies of the sweep: [for (let f = 10; f <= 10000; f += 100)]
    with nothing but the counter. *)
Fixpoint sweepGrid (fuel : nat) (f : float) : list float :=
  match fuel with
  | O => []
  | S fuel' => if (f <=? 10000)%float then f :: sweepGrid fuel' (f + 100)%float else []
  end.

(** 10 Hz, 110 Hz, ..., 9910 Hz *)
Definition sweepFrequencies : list float :=
  map (fun k => (10 + 100 * JS.ofNat k)%float) (seq 0 100).

(** A field that is [undefined] or holds a finite number. *)
Definition finiteOrUndefined (x : option float) : Prop :=
  forall v, x = Some v -> SimulationValidator.isValidNumber v = true.

(** A wire that names both its ends. *)
Definition hasEndpoints (wire : Wire.t) : Prop :=
  SimulationValidator.falsyString (Wire.startComponent wire) = false
  /\ SimulationValidator.falsyString (Wire.endComponent wire) = false.

(** The entry that [initializeValueHistory] writes for a component. *)
Definition freshEntry (component : Component.t) : HistoryEntry :=
  ArrayHistory (replicate 5 (valuesOr Values.voltage component))
               (replicate 5 (valuesOr Values.current component)).

(** A component whose loose [voltage] and [current] are both defined. *)
Definition hasVoltageAndCurrent (c : Component.t) : Prop :=
  is_Some (Component.voltage c) /\ is_Some (Component.current c).

(** The setting of a source as the first loop of transient analysis
    leaves it: its own when it has one that is not zero,
    [component.value], or the default. *)
Definition sourceVoltage (c : Component.t) : float :=
  JS.or (Component.voltage c) (JS.or (Component.value c) 5).

Definition sourceCurrent (c : Component.t) : float :=
  JS.or (Component.current c) (JS.or (Component.value c) 0.01).

(** A tracker that smooths over at most [bound] samples, and none of whose
    windows holds more. *)
Definition windowsWithin (bound : nat) (tracker : Tracker.t) : Prop :=
  Tracker.maxSamples tracker <= bound
  /\ map_Forall (fun _ valueData => length (ValueData.values valueData) <= bound)
                (Tracker.prevValues tracker).

(** A string without a dash. *)
Fixpoint dashFree (s : string) : bool :=
  match s with
  | EmptyString => true
  | String c rest => negb (Ascii.eqb c "-"%char) && dashFree rest
  end.

(** A current source and a resistor in the ring of [ringWires]. *)
Definition sourceRing : list Component.t :=
  [exampleComponent "A" "current-source" (Some (Values.mk 3 1 3));
   exampleComponent "B" "resistor" (Some (Values.mk 2 0 0))].

(** A component without what the analyses compute for it. *)
Definition withoutValues (c : Component.t) : Component.t :=
  Component.set_values None c.

(** The corrector has not touched the component at [j], a current source;
    of the others it has written nothing but the values. *)
Definition sparesCurrentSource (j : nat) (c : Component.t)
    (before after : list Component.t) : Prop :=
  after !! j = Some c /\ map withoutValues after = map withoutValues before.



(** What DC analysis reads of the other components of the circuit: the
    type, the properties and, of a resistor, the values. *)
Definition dcInputs (c : Component.t)
    : string * option Properties.t * option Values.t :=
  (Component.type c, Component.properties c,
   if Component.isType "resistor" c then Component.values c else None).

(** The type and the properties, which DC analysis never writes. *)
Definition dcKind (c : Component.t) : string * option Properties.t :=
  (Component.type c, Component.properties c).

(** An inductor, a 100 ohm resistor and a 5 V source, in this order. *)
Definition settlingCircuit : list Component.t :=
  [Component.mk "L1" "inductor" (Some Values.zero) None None None None None None None None;
   Component.mk "R1" "resistor" (Some Values.zero) None
     (Some (Properties.mk None (Some 100%float) None None)) None None None None None None;
   Component.mk "V1" "voltage-source" (Some Values.zero) None
     (Some (Properties.mk (Some 5%float) None None None)) None None None None None None].

(** A tracker as the accuracy settings can leave it. *)
Definition accuracyWithin (tracker : Tracker.t) : Prop :=
  3 <= Tracker.maxSamples tracker <= 12
  /\ (0.5 <=? Tracker.smoothingFactor tracker)%float = true
  /\ (Tracker.smoothingFactor tracker <=? 1)%float = true.

(** The property of the last component of a type in the array, or a
    default when the array has none of the type. *)
Definition lastProperty (ty : string) (get : Properties.t -> option float) (d : float)
    (components : list Component.t) : option float :=
  match last (ofType ty components) with
  | Some c => propertyOf get c
  | None => Some d
  end.



(** A 5 V source, a resistor and a capacitor, with their values. *)
Definition acCircuit : list Component.t :=
  [Component.mk "V1" "voltage-source" (Some Values.zero) None
     (Some (Properties.mk (Some 5%float) None (Some 50%float) (Some "square")))
     None None None None None None;
   exampleComponent "R1" "resistor" (Some Values.zero);
   exampleComponent "C1" "capacitor" (Some Values.zero)].

(** * Properties *)

(** ** General facts about the loops *)

Lemma forEachFrom_length {A} (body : list A -> A -> Completion A) n i l :
  length (stateOf (forEachFrom body n i l)) = length l.
Proof.
  revert i l. induction n as [|n IH]; intros i l; simpl; [done|].
  destruct (l !! i) as [x|]; [|done].
  destruct (body l x) as [x'|e x']; simpl.
  - rewrite IH. apply length_insert.
  - apply length_insert.
Qed.

Lemma forEach_length {A} (body : list A -> A -> Completion A) l :
  length (stateOf (forEach body l)) = length l.
Proof. apply forEachFrom_length. Qed.

(** A property of the elements that every call of the body keeps, whether
    it completes or throws, holds of the whole array afterwards. *)
Lemma forEachFrom_Forall {A} (P : A -> Prop) (body : list A -> A -> Completion A) :
  (forall l x, P x -> P (stateOf (body l x))) ->
  forall n i l, Forall P l -> Forall P (stateOf (forEachFrom body n i l)).
Proof.
  intros Hbody. induction n as [|n IH]; intros i l Hl; simpl; [done|].
  destruct (l !! i) as [x|] eqn:Hx; [|done].
  assert (P x) as HPx by (eapply Forall_lookup_1; eauto).
  specialize (Hbody l x HPx).
  destruct (body l x) as [x'|e x']; simpl in *.
  - apply IH. by apply Forall_insert.
  - by apply Forall_insert.
Qed.

(** A projection that every call of the body keeps is kept element by
    element. *)
Lemma forEachFrom_map {A B} (f : A -> B) (body : list A -> A -> Completion A) :
  (forall l x, f (stateOf (body l x)) = f x) ->
  forall n i l, map f (stateOf (forEachFrom body n i l)) = map f l.
Proof.
  intros Hbody. induction n as [|n IH]; intros i l; simpl; [done|].
  destruct (l !! i) as [x|] eqn:Hx; [|done].
  specialize (Hbody l x).
  assert (map f (<[i:=stateOf (body l x)]> l) = map f l) as Hins.
  { rewrite list_fmap_insert. rewrite Hbody.
    apply list_insert_id. by rewrite list_lookup_fmap, Hx. }
  destruct (body l x) as [x'|e x']; simpl in *.
  - by rewrite IH.
  - done.
Qed.

Lemma forEach_map {A B} (f : A -> B) (body : list A -> A -> Completion A) l :
  (forall l x, f (stateOf (body l x)) = f x) ->
  map f (stateOf (forEach body l)) = map f l.
Proof. intros H. by apply forEachFrom_map. Qed.

Lemma forEach_Forall {A} (P : A -> Prop) (body : list A -> A -> Completion A) l :
  (forall l x, P x -> P (stateOf (body l x))) ->
  Forall P l -> Forall P (stateOf (forEach body l)).
Proof. intros H. by apply forEachFrom_Forall. Qed.

(** The loop never writes below the index it has reached. *)
Lemma forEachFrom_lookup_lt {A} (body : list A -> A -> Completion A) n :
  forall i l j, j < i -> stateOf (forEachFrom body n i l) !! j = l !! j.
Proof.
  induction n as [|n IH]; intros i l j Hj; simpl; [done|].
  destruct (l !! i) as [x|]; [|done].
  destruct (body l x) as [x'|e x']; simpl.
  - rewrite IH by lia. apply list_lookup_insert_ne. lia.
  - apply list_lookup_insert_ne. lia.
Qed.

(** When the loop completes, each element it has passed is what the body
    made of the element that stood there before the loop. *)
Lemma forEachFrom_Normal_inv {A} (body : list A -> A -> Completion A) n :
  forall i l l', forEachFrom body n i l = Normal l' ->
  forall j x, l !! j = Some x -> i <= j -> j < i + n ->
  exists store x', body store x = Normal x' /\ l' !! j = Some x'.
Proof.
  induction n as [|n IH]; intros i l l' Hrun j x Hx Hij Hjn; [lia|].
  simpl in Hrun.
  destruct (l !! i) as [xi|] eqn:Hxi.
  2:{ apply lookup_ge_None in Hxi. apply lookup_lt_Some in Hx. lia. }
  destruct (body l xi) as [xi'|e xi'] eqn:Hb; [|discriminate].
  destruct (decide (j = i)) as [->|Hne].
  - assert (x = xi) as -> by congruence.
    exists l, xi'. split; [done|].
    pose proof (forEachFrom_lookup_lt body n (S i) (<[i:=xi']> l) i) as Hlt.
    rewrite Hrun in Hlt. simpl in Hlt. rewrite Hlt by lia.
    apply list_lookup_insert_eq. by eapply lookup_lt_Some.
  - eapply (IH (S i)); eauto; [|lia..].
    rewrite list_lookup_insert_ne by lia. done.
Qed.

Lemma forEach_Normal_inv {A} (body : list A -> A -> Completion A) l l' :
  forEach body l = Normal l' ->
  forall j x, l !! j = Some x ->
  exists store x', body store x = Normal x' /\ l' !! j = Some x'.
Proof.
  intros Hrun j x Hx. eapply forEachFrom_Normal_inv; eauto; [lia|].
  apply lookup_lt_Some in Hx. lia.
Qed.

(** The loop completes when the body completes on every array that keeps
    the invariant [P] of the elements. *)
Lemma forEachFrom_completes {A} (P : A -> Prop) (body : list A -> A -> Completion A) :
  (forall l x, Forall P l -> P x -> exists x', body l x = Normal x' /\ P x') ->
  forall n i l, Forall P l -> exists l', forEachFrom body n i l = Normal l' /\ Forall P l'.
Proof.
  intros Hbody. induction n as [|n IH]; intros i l Hl; simpl; [eauto|].
  destruct (l !! i) as [x|] eqn:Hx; [|eauto].
  destruct (Hbody l x Hl) as (x' & -> & HPx'); [by eapply Forall_lookup_1|].
  apply IH. by apply Forall_insert.
Qed.

Lemma forEach_completes {A} (P : A -> Prop) (body : list A -> A -> Completion A) l :
  (forall l x, Forall P l -> P x -> exists x', body l x = Normal x' /\ P x') ->
  Forall P l -> exists l', forEach body l = Normal l' /\ Forall P l'.
Proof. intros H. by apply forEachFrom_completes. Qed.

(** ** DC analysis *)

Section DCFacts.

Lemma scanLast_completes ty read d components :
  (forall c, c ∈ components -> Component.isType ty c = true -> is_Some (read c)) ->
  is_Some (scanLast ty read d components).
Proof.
  unfold scanLast. revert d.
  induction components as [|c rest IH]; intros d Hall; simpl; [by eexists|].
  destruct (Component.isType ty c) eqn:Hty.
  - destruct (Hall c) as [x ->]; [by left|done|].
    apply IH. intros c' Hin. apply Hall. by right.
  - apply IH. intros c' Hin. apply Hall. by right.
Qed.

Lemma scanCircuitCurrent_completes components :
  Forall dcReady components -> is_Some (scanCircuitCurrent components).
Proof.
  unfold scanCircuitCurrent. generalize 0.1%float as d.
  induction components as [|c rest IH]; intros d Hall; simpl; [by eexists|].
  apply Forall_cons in Hall as [[[v Hv] _] Hrest].
  rewrite Hv. destruct (Component.isType "resistor" c); by apply IH.
Qed.

Lemma dcComponent_type components c :
  Component.type (stateOf (dcComponent components c)) = Component.type c.
Proof.
  unfold dcComponent.
  repeat match goal with
         | |- context [if ?b then _ else _] => destruct b
         | |- context [match ?x with _ => _ end] => destruct x
         end; reflexivity.
Qed.

Lemma dcComponent_id components c :
  Component.id (stateOf (dcComponent components c)) = Component.id c.
Proof.
  unfold dcComponent.
  repeat match goal with
         | |- context [if ?b then _ else _] => destruct b
         | |- context [match ?x with _ => _ end] => destruct x
         end; reflexivity.
Qed.

Lemma dcReady_set_values v c :
  dcReady c -> dcReady (Component.set_values (Some v) c).
Proof. intros (_ & Hv & Hr). split; [by eexists|]. split; assumption. Qed.

Lemma dcComponent_completes components c :
  Forall dcReady components -> dcReady c ->
  exists c', dcComponent components c = Normal c' /\ dcReady c'.
Proof.
  intros Hall Hc. pose proof Hc as ([v Hv] & Hsrc & Hres).
  unfold dcComponent. rewrite Hv.
  destruct (Component.isType "voltage-source" c) eqn:T1.
  { destruct (Hsrc eq_refl) as [x ->].
    destruct (scanLast_completes "resistor" (propertyOf Properties.resistance) 1000 components)
      as [r ->].
    { intros c' Hin Hty. eapply Forall_forall in Hall as (_ & _ & H); eauto. }
    eexists. split; [done|]. by apply dcReady_set_values. }
  destruct (Component.isType "resistor" c) eqn:T2.
  { destruct (scanLast_completes "voltage-source" (propertyOf Properties.voltage) 5 components)
      as [sv ->].
    { intros c' Hin Hty. eapply Forall_forall in Hall as (_ & H & _); eauto. }
    destruct (Hres eq_refl) as [x ->].
    eexists. split; [done|]. by apply dcReady_set_values. }
  destruct (Component.isType "capacitor" c) eqn:T3.
  { eexists. split; [done|]. by apply dcReady_set_values. }
  destruct (Component.isType "inductor" c) eqn:T4.
  { destruct (scanCircuitCurrent_completes components Hall) as [i ->].
    eexists. split; [done|]. by apply dcReady_set_values. }
  eexists. split; [done|]. by apply dcReady_set_values.
Qed.

(** Whatever the rest of the circuit, a completed call leaves a capacitor
    and an inductor in their steady state. *)
Lemma dcComponent_steady components c c' :
  dcComponent components c = Normal c' -> dcSteady c'.
Proof.
  unfold dcComponent, dcSteady, Component.isType. intros H.
  destruct (String.eqb_spec (Component.type c) "voltage-source") as [E1|_].
  { assert (Component.type c' = "voltage-source") as E.
    { rewrite <- E1. change c' with (stateOf (Normal c')). rewrite <- H.
      repeat match goal with
             | |- context [match ?x with _ => _ end] => destruct x
             end; reflexivity. }
    rewrite E. split; intros; discriminate. }
  destruct (String.eqb_spec (Component.type c) "resistor") as [E2|_].
  { assert (Component.type c' = "resistor") as E.
    { rewrite <- E2. change c' with (stateOf (Normal c')). rewrite <- H.
      repeat match goal with
             | |- context [match ?x with _ => _ end] => destruct x
             end; reflexivity. }
    rewrite E. split; intros; discriminate. }
  destruct (String.eqb_spec (Component.type c) "capacitor") as [E3|N3].
  { destruct (Component.values c) as [v|]; [|discriminate].
    injection H as <-. simpl. rewrite E3. split; [done|intros; discriminate]. }
  destruct (String.eqb_spec (Component.type c) "inductor") as [E4|N4].
  { destruct (Component.values c) as [v|]; [|discriminate].
    destruct (scanCircuitCurrent components) as [i|]; [|discriminate].
    injection H as <-. simpl. rewrite E4. split; [intros; discriminate|].
    intros _. eexists. split; [reflexivity|]. split; reflexivity. }
  destruct (Component.values c) as [v|]; [|discriminate].
  injection H as <-. simpl.
  split; intros E; apply String.eqb_eq in E; congruence.
Qed.

(** A completed call on a component of a type without a rule of its own
    writes the fixed values 0.5 V and 0.01 A. *)
Lemma dcComponent_plain components c c' :
  isPlain c = true -> dcComponent components c = Normal c' ->
  exists v, Component.values c' = Some v
            /\ Values.voltage v = 0.5%float /\ Values.current v = 0.01%float.
Proof.
  unfold isPlain, dcComponent. intros Hp H.
  apply negb_true_iff in Hp.
  repeat (apply orb_false_iff in Hp as [Hp ?]).
  repeat match goal with E : Component.isType _ c = false |- _ => rewrite E in H; clear E end.
  destruct (Component.values c) as [v|]; [|discriminate].
  injection H as <-. simpl. eexists. split; [reflexivity|]. split; reflexivity.
Qed.

Lemma isPlain_type c c' :
  Component.type c' = Component.type c -> isPlain c' = isPlain c.
Proof. unfold isPlain, Component.isType. by intros ->. Qed.

Lemma dcWire_completes components wire :
  Forall dcReady components -> exists wire', dcWire components wire = Normal wire'.
Proof.
  intros Hall. unfold dcWire.
  assert (forall key c, lookupOpt components key = Some c -> is_Some (Component.values c)) as Hv.
  { intros [k|] c; simpl; [|done].
    induction components as [|c0 rest IH]; simpl; [done|].
    apply Forall_cons in Hall as [H0 Hrest].
    destruct (lookupById rest k) eqn:E.
    - intros [= <-]. by apply IH.
    - destruct (String.eqb (Component.id c0) k); [|done].
      intros [= <-]. apply H0. }
  destruct (lookupOpt components (Wire.source wire)) as [sc|] eqn:Es;
    destruct (lookupOpt components (Wire.target wire)) as [tc|] eqn:Et;
    try (destruct (Hv _ _ Es) as [vs ->]);
    try (destruct (Hv _ _ Et) as [vt ->]);
    repeat match goal with |- context [if ?b then _ else _] => destruct b end;
    by eexists.
Qed.

(** DC analysis of a circuit that is ready for it completes; it keeps the
    circuit ready, keeps every id and type, and leaves the steady state. *)
Lemma performDCAnalysis_steady components wires :
  Forall dcReady components ->
  exists components' wires',
    performDCAnalysis components wires = Normal (components', wires')
    /\ Forall dcReady components'
    /\ map Component.type components' = map Component.type components
    /\ map Component.id components' = map Component.id components
    /\ Forall dcSteady components'
    /\ Forall dcPlain components'.
Proof.
  intros Hall. unfold performDCAnalysis.
  destruct (forEach_completes dcReady dcComponent components) as (cs' & Hrun & Hready).
  { intros l x Hl Hx. by apply dcComponent_completes. }
  { done. }
  pose proof (forEach_map Component.type dcComponent components
                (fun l x => dcComponent_type l x)) as Hty.
  pose proof (forEach_map Component.id dcComponent components
                (fun l x => dcComponent_id l x)) as Hid.
  pose proof (forEach_length dcComponent components) as Hlen.
  rewrite Hrun in *. simpl in Hty, Hid, Hlen.
  destruct (forEach_completes (fun _ => True) (fun _ wire => dcWire cs' wire) wires)
    as (ws' & -> & _).
  { intros l x _ _. destruct (dcWire_completes cs' x Hready) as [w' ->]. eauto. }
  { by apply Forall_true. }
  exists cs', ws'. repeat split; try done.
  - apply Forall_lookup. intros j c' Hc'.
    destruct (lookup_lt_is_Some_2 components j) as [c Hc].
    { rewrite <- Hlen. by eapply lookup_lt_Some. }
    destruct (forEach_Normal_inv _ _ _ Hrun j c Hc) as (store & c'' & Hbody & Hc'').
    assert (c'' = c') as -> by congruence.
    by eapply dcComponent_steady.
  - apply Forall_lookup. intros j c' Hc' Hplain.
    unfold dcPlain.
    destruct (lookup_lt_is_Some_2 components j) as [c Hc].
    { rewrite <- Hlen. by eapply lookup_lt_Some. }
    destruct (forEach_Normal_inv _ _ _ Hrun j c Hc) as (store & c'' & Hbody & Hc'').
    assert (c'' = c') as -> by congruence.
    eapply dcComponent_plain; [|exact Hbody].
    rewrite <- Hplain. symmetry. apply isPlain_type.
    change c' with (stateOf (Normal c')). rewrite <- Hbody. apply dcComponent_type.
Qed.

End DCFacts.

(** ** The validator and the transient analysis keep the core *)

Ltac break_ifs :=
  repeat match goal with
         | |- context [if ?b then _ else _] => destruct b
         end.

Lemma core_type c c' : core c' = core c -> Component.type c' = Component.type c.
Proof. unfold core. congruence. Qed.

Lemma core_id c c' : core c' = core c -> Component.id c' = Component.id c.
Proof. unfold core. congruence. Qed.

Lemma core_values c c' : core c' = core c -> Component.values c' = Component.values c.
Proof. unfold core. congruence. Qed.

Lemma core_dcReady c c' : core c' = core c -> dcReady c -> dcReady c'.
Proof.
  unfold core, dcReady, propertyOf, Component.isType.
  intros [= Hid Hty Hv Hpa Hpr Hval]. by rewrite Hty, Hv, Hpr.
Qed.

Lemma map_core_Forall (P : Component.t -> Prop) cs cs' :
  (forall c c', core c' = core c -> P c -> P c') ->
  map core cs' = map core cs -> Forall P cs -> Forall P cs'.
Proof.
  intros HP. revert cs'. induction cs as [|c cs IH]; intros [|c' cs'] Hm Hall;
    try discriminate; [done|].
  simpl in Hm.
  assert (core c' = core c) as Hc by congruence.
  assert (map core cs' = map core cs) as Hm' by congruence.
  apply Forall_cons in Hall as [Hc0 Hall].
  constructor; [by eapply HP|by apply IH].
Qed.

Lemma map_core_map {B} (f : Component.t -> B) cs cs' :
  (forall c c', core c' = core c -> f c' = f c) ->
  map core cs' = map core cs -> map f cs' = map f cs.
Proof.
  intros Hf. revert cs'. induction cs as [|c cs IH]; intros [|c' cs'] Hm;
    try discriminate; [done|].
  simpl in Hm.
  assert (core c' = core c) as Hc by congruence.
  assert (map core cs' = map core cs) as Hm' by congruence.
  simpl. f_equal; [by apply Hf|by apply IH].
Qed.

Lemma validateComponent_core c :
  core (snd (SimulationValidator.validateComponent c)) = core c.
Proof.
  unfold SimulationValidator.validateComponent. break_ifs; reflexivity.
Qed.

Lemma map_validateComponent_core cs :
  map core (map (fun c => snd (SimulationValidator.validateComponent c)) cs) = map core cs.
Proof.
  rewrite map_map. apply map_ext. intros c. apply validateComponent_core.
Qed.

Lemma map_validateWire_id ws :
  map Wire.id (map (fun x => snd (SimulationValidator.validateWire x)) ws)
  = map Wire.id ws.
Proof.
  rewrite map_map. apply map_ext. intros x.
  unfold SimulationValidator.validateWire. break_ifs; reflexivity.
Qed.

Section TransientFacts.

Variable M : MathLib.

Lemma initializeComponent_core c : core (initializeComponent c) = core c.
Proof. unfold initializeComponent. break_ifs; reflexivity. Qed.

Lemma calculateComponent_core k c : core (snd (calculateComponent M k c)) = core c.
Proof.
  unfold calculateComponent.
  repeat match goal with
         | |- context [if ?b then _ else _] => destruct b
         | |- context [applyStabilization ?m ?k ?i ?t ?x] =>
             destruct (applyStabilization m k i t x)
         end; reflexivity.
Qed.

Lemma calculateComponents_core cs :
  forall k, map core (snd (calculateComponents M k cs)) = map core cs.
Proof.
  induction cs as [|c cs IH]; intros k; simpl; [done|].
  pose proof (calculateComponent_core k c) as Hc.
  destruct (calculateComponent M k c) as [k1 c'].
  specialize (IH k1). destruct (calculateComponents M k1 cs) as [k2 cs'].
  simpl in *. by rewrite Hc, IH.
Qed.

(** The transient analysis writes the loose fields of the components,
    the wires and the tracker of [applyStabilization], and nothing else:
    not [values], not the time, not the history of the filter bank. *)
Lemma performTransientAnalysis_frame s :
  let s' := performTransientAnalysis M s in
  map core (State.components s') = map core (State.components s)
  /\ State.time s' = State.time s
  /\ State.speed s' = State.speed s
  /\ State.running s' = State.running s
  /\ State.type s' = State.type s
  /\ State.componentValueHistory s' = State.componentValueHistory s
  /\ map Wire.id (State.wires s') = map Wire.id (State.wires s).
Proof.
  unfold performTransientAnalysis.
  pose proof (calculateComponents_core (map initializeComponent (State.components s))
                (State.stabilityTracker s)) as Hc.
  destruct (calculateComponents M (State.stabilityTracker s)
              (map initializeComponent (State.components s))) as [k cs].
  simpl in *. repeat split.
  - rewrite Hc, map_map. apply map_ext. intros c. apply initializeComponent_core.
  - rewrite map_map. apply map_ext. intros w. unfold updateWire.
    repeat match goal with
           | |- context [match ?x with _ => _ end] => destruct x
           end; reflexivity.
Qed.

End TransientFacts.

(** An element on which the body does nothing stays as it is. *)
Lemma forEachFrom_unchanged {A} (Q : A -> Prop) (body : list A -> A -> Completion A) :
  (forall l x, Q x -> stateOf (body l x) = x) ->
  forall n i l j x, l !! j = Some x -> Q x ->
  stateOf (forEachFrom body n i l) !! j = Some x.
Proof.
  intros Hbody. induction n as [|n IH]; intros i l j x Hx HQ; simpl; [done|].
  destruct (l !! i) as [xi|] eqn:Hxi; [|done].
  assert (<[i:=stateOf (body l xi)]> l !! j = Some x) as Hins.
  { destruct (decide (i = j)) as [->|Hne].
    - assert (xi = x) as -> by congruence. rewrite (Hbody l x HQ).
      by rewrite list_insert_id.
    - by rewrite list_lookup_insert_ne. }
  destruct (body l xi) as [x'|e x']; simpl in *; [by apply IH|done].
Qed.

Lemma forEach_unchanged {A} (Q : A -> Prop) (body : list A -> A -> Completion A) l j x :
  (forall l x, Q x -> stateOf (body l x) = x) ->
  l !! j = Some x -> Q x -> stateOf (forEach body l) !! j = Some x.
Proof. intros H. by apply forEachFrom_unchanged. Qed.

(** ** AC analysis *)

Section ACFacts.

Variable M : MathLib.

Lemma isPlain_not ty c :
  isPlain c = true ->
  ty = "voltage-source" \/ ty = "resistor" \/ ty = "capacitor" \/ ty = "inductor" ->
  Component.isType ty c = false.
Proof.
  unfold isPlain. intros Hp Hty. apply negb_true_iff in Hp.
  repeat (apply orb_false_iff in Hp as [Hp ?]).
  destruct Hty as [-> | [-> | [-> | ->]]]; assumption.
Qed.

(** AC analysis has rules for sources, resistors, capacitors and
    inductors; whether it completes or throws, every other component is
    left exactly as it was. *)
Lemma acSource_plain time l x :
  isPlain x = true -> stateOf (acSource M time l x) = x.
Proof.
  intros Hx. unfold acSource. rewrite (isPlain_not "voltage-source" x Hx); auto.
Qed.

Lemma acOnly_plain ty time i f a l x :
  ty = "resistor" \/ ty = "capacitor" \/ ty = "inductor" ->
  isPlain x = true -> stateOf (acOnly M ty time i f a l x) = x.
Proof.
  intros Hty Hx. unfold acOnly. rewrite (isPlain_not ty x Hx); [done|tauto].
Qed.

Lemma performACAnalysis_plain time components wires j c :
  components !! j = Some c -> isPlain c = true ->
  fst (stateOf (fst (performACAnalysis M time components wires))) !! j = Some c.
Proof.
  intros Hc Hp. unfold performACAnalysis.
  pose proof (forEach_unchanged (fun x => isPlain x = true) (acSource M time)
                components j c (acSource_plain time) Hc Hp) as H1.
  destruct (forEach (acSource M time) components) as [cs|e cs]; simpl in *; [|done].
  unfold processComponents.
  match goal with
  | |- context [forEach (acOnly M "resistor" ?t ?i ?f ?a) cs] =>
      pose proof (forEach_unchanged (fun x => isPlain x = true)
                    (acOnly M "resistor" t i f a) cs j c
                    (fun l x => acOnly_plain "resistor" t i f a l x ltac:(tauto)) H1 Hp) as H2;
      destruct (forEach (acOnly M "resistor" t i f a) cs) as [cs1|e cs1];
      simpl in *; [|done];
      pose proof (forEach_unchanged (fun x => isPlain x = true)
                    (acOnly M "capacitor" t i f a) cs1 j c
                    (fun l x => acOnly_plain "capacitor" t i f a l x ltac:(tauto)) H2 Hp) as H3;
      destruct (forEach (acOnly M "capacitor" t i f a) cs1) as [cs2|e cs2];
      simpl in *; [|done];
      pose proof (forEach_unchanged (fun x => isPlain x = true)
                    (acOnly M "inductor" t i f a) cs2 j c
                    (fun l x => acOnly_plain "inductor" t i f a l x ltac:(tauto)) H3 Hp) as H4;
      destruct (forEach (acOnly M "inductor" t i f a) cs2) as [cs3|e cs3];
      simpl in *; done
  end.
Qed.

End ACFacts.

(** ** One step of the driver *)

Section StepFacts.

Variable M : MathLib.

Lemma recoverFromError_time s : State.time (recoverFromError s) = State.time s.
Proof. reflexivity. Qed.

Lemma postMessages_state w messages :
  World.state (foldl (fun w m => World.postMessage m w) w messages) = World.state w.
Proof. revert w. induction messages as [|m ms IH]; intros w; simpl; [done|]. by rewrite IH. Qed.

Lemma postMessages_timers w messages :
  World.timers (foldl (fun w m => World.postMessage m w) w messages) = World.timers w.
Proof. revert w. induction messages as [|m ms IH]; intros w; simpl; [done|]. by rewrite IH. Qed.

(** No path through [performSimulationStep] assigns [simulationState.time]. *)
Lemma performSimulationStep_time w :
  State.time (World.state (performSimulationStep M w)) = State.time (World.state w).
Proof.
  unfold performSimulationStep.
  destruct (State.running (World.state w)); [|done]. cbv zeta.
  match goal with |- context [analysisOf ?t] => destruct (analysisOf t) end.
  - match goal with
    | |- context [performTransientAnalysis M ?s] =>
        pose proof (performTransientAnalysis_frame M s) as (_ & Ht & _);
        destruct (SimulationValidator.validateSimulation
                    (map (fun c => snd (SimulationValidator.validateComponent c))
                         (State.components (performTransientAnalysis M s)))
                    (map (fun x => snd (SimulationValidator.validateWire x))
                         (State.wires (performTransientAnalysis M s)))) as [[v cs] ws]
    end.
    simpl in *. exact Ht.
  - match goal with |- context [performDCAnalysis ?c ?x] =>
      destruct (performDCAnalysis c x) as [r|e r] end; reflexivity.
  - match goal with |- context [performACAnalysis M ?t ?c ?x] =>
      destruct (performACAnalysis M t c x) as [[r|e r] ms] end; reflexivity.
Qed.

Lemma performSimulationStep_timers w :
  World.timers (performSimulationStep M w) = World.timers w.
Proof.
  unfold performSimulationStep.
  destruct (State.running (World.state w)); [|done]. cbv zeta.
  match goal with |- context [analysisOf ?t] => destruct (analysisOf t) end.
  - match goal with
    | |- context [SimulationValidator.validateSimulation ?a ?b] =>
        destruct (SimulationValidator.validateSimulation a b) as [[v cs] ws]
    end. reflexivity.
  - match goal with |- context [performDCAnalysis ?c ?x] =>
      destruct (performDCAnalysis c x) as [r|e r] end; reflexivity.
  - match goal with |- context [performACAnalysis M ?t ?c ?x] =>
      destruct (performACAnalysis M t c x) as [[r|e r] ms] end; simpl.
    + apply postMessages_timers.
    + reflexivity.
Qed.

(** The loop of [updateSimulationSpeed] does advance the time, by
    [0.01 * speed], on each round that its analysis completes. *)
Lemma speedLoopStep_time_transient w :
  State.running (World.state w) = true ->
  analysisOf (State.type (World.state w)) = Transient ->
  State.time (World.state (speedLoopStep M w))
  = (State.time (World.state w) + 0.01 * State.speed (World.state w))%float.
Proof.
  intros Hrun Hty. unfold speedLoopStep. rewrite Hrun, Hty. simpl.
  pose proof (performTransientAnalysis_frame M (World.state w)) as (_ & -> & -> & _).
  reflexivity.
Qed.

End StepFacts.

(** [C2] The claim: every step of the periodic loop that [startSimulation]
    starts advances the simulated time by [0.01 * speed].  The code does not:
    that loop runs [performSimulationStep], which never writes the time.
    From [startSimulation] on, however often the timer it has installed
    fires, the simulated time stays at the 0 it was reset to. *)
Theorem startSimulation_loop_keeps_time (M : MathLib) (data : StartData.t)
    (w : World.t) (n : nat) :
  State.time (World.state
                (Nat.iter n (tick M (World.nextTimer w)) (startSimulation data w)))
  = 0%float.
Proof.
  assert (forall k, exists i,
            World.timers (Nat.iter k (tick M (World.nextTimer w)) (startSimulation data w))
              !! World.nextTimer w = Some (StepLoop, i)
            /\ State.time (World.state
                 (Nat.iter k (tick M (World.nextTimer w)) (startSimulation data w)))
               = 0%float) as H.
  { induction k as [|k (i & Htimer & Htime)]; simpl.
    - eexists. split; [apply lookup_insert_eq|].
      unfold startSimulation. simpl. break_ifs; reflexivity.
    - exists i. unfold tick at 1 3. rewrite Htimer.
      destruct (State.running _); [|by split].
      rewrite performSimulationStep_timers, performSimulationStep_time. by split. }
  destruct (H n) as (i & _ & Ht). exact Ht.
Qed.

Section DCStep.

Variable M : MathLib.

(** A DC step of a running simulation whose circuit is ready for it: the
    analysis completes, the circuit stays ready and in DC mode, and the
    components are left in the steady state. *)
Lemma dc_step w :
  State.running (World.state w) = true ->
  State.type (World.state w) = "dc" ->
  Forall dcReady (State.components (World.state w)) ->
  let s' := World.state (performSimulationStep M w) in
  State.running s' = true
  /\ State.type s' = "dc"
  /\ Forall dcReady (State.components s')
  /\ map Component.id (State.components s') = map Component.id (State.components (World.state w))
  /\ map Component.type (State.components s') = map Component.type (State.components (World.state w))
  /\ Forall dcSteady (State.components s')
  /\ Forall dcPlain (State.components s').
Proof.
  intros Hrun Hty Hready. unfold performSimulationStep. rewrite Hrun. cbv zeta.
  simpl State.type. rewrite Hty. change (analysisOf "dc") with DC. cbv iota.
  simpl State.components. simpl State.wires.
  set (cs := map (fun c => snd (SimulationValidator.validateComponent c))
                 (State.components (World.state w))).
  set (ws := map (fun x => snd (SimulationValidator.validateWire x))
                 (State.wires (World.state w))).
  assert (map core cs = map core (State.components (World.state w))) as Hcore
    by apply map_validateComponent_core.
  assert (Forall dcReady cs) as Hcs.
  { eapply map_core_Forall; [|exact Hcore|exact Hready]. apply core_dcReady. }
  destruct (performDCAnalysis_steady cs ws Hcs)
    as (cs' & ws' & -> & Hr' & Hty' & Hid' & Hst & Hpl).
  simpl. rewrite Hrun, Hty. repeat split; try done.
  - rewrite Hid'. eapply map_core_map; [|exact Hcore]. apply core_id.
  - rewrite Hty'. eapply map_core_map; [|exact Hcore]. apply core_type.
Qed.

End DCStep.




(** ** Ground components *)

Lemma lookup_map_core cs cs' j c :
  map core cs' = map core cs -> cs !! j = Some c ->
  exists c', cs' !! j = Some c' /\ core c' = core c.
Proof.
  intros Hm Hc.
  assert (map core cs' !! j = Some (core c)) as H.
  { rewrite Hm. change (map core cs) with (core <$> cs). by rewrite list_lookup_fmap, Hc. }
  change (map core cs') with (core <$> cs') in H.
  rewrite list_lookup_fmap in H.
  destruct (cs' !! j) as [c'|]; [|discriminate]. simpl in H.
  exists c'. split; [done|congruence].
Qed.

Lemma core_isType ty c c' : core c' = core c -> Component.isType ty c' = Component.isType ty c.
Proof. intros H. unfold Component.isType. by rewrite (core_type _ _ H). Qed.

Lemma ground_isPlain c : Component.isType "ground" c = true -> isPlain c = true.
Proof.
  unfold Component.isType, isPlain, Component.isType. intros H.
  apply String.eqb_eq in H. rewrite H. reflexivity.
Qed.

Lemma ground_validates c :
  Component.isType "ground" c = true ->
  fst (SimulationValidator.validateComponent c) = true.
Proof.
  unfold Component.isType, SimulationValidator.validateComponent. intros H.
  apply String.eqb_eq in H. rewrite H. reflexivity.
Qed.

Lemma performDCAnalysis_components cs ws :
  fst (stateOf (performDCAnalysis cs ws)) = stateOf (forEach dcComponent cs).
Proof.
  unfold performDCAnalysis.
  destruct (forEach dcComponent cs) as [cs'|e cs']; simpl; [|done].
  by destruct (forEach _ ws).
Qed.

Lemma recovered_type c :
  Component.type
    (let '(ok, c') := SimulationValidator.validateComponent c in
     if ok then c' else Component.set_values (Some Values.zero) c')
  = Component.type c.
Proof.
  pose proof (validateComponent_core c) as H. apply core_type in H.
  destruct (SimulationValidator.validateComponent c) as [[] c']; simpl in *; done.
Qed.

Lemma recoverFromError_types s :
  map Component.type (State.components (recoverFromError s))
  = map Component.type (State.components s).
Proof.
  unfold recoverFromError. simpl. rewrite map_map. apply map_ext.
  intros c. apply recovered_type.
Qed.

Section ModeFacts.

Variable M : MathLib.

Lemma acVoltageSource_type time l c :
  Component.type (stateOf (acVoltageSource M time l c)) = Component.type c.
Proof. unfold acVoltageSource. by destruct (Component.values c). Qed.

Lemma acPassive_type time i f a c :
  Component.type (stateOf (acPassive M time i f a c)) = Component.type c.
Proof.
  unfold acPassive.
  repeat match goal with
         | |- context [if ?b then _ else _] => destruct b
         | |- context [match ?x with _ => _ end] => destruct x
         end; reflexivity.
Qed.

Lemma acSource_type time l c :
  Component.type (stateOf (acSource M time l c)) = Component.type c.
Proof.
  unfold acSource. destruct (Component.isType _ c); [apply acVoltageSource_type|done].
Qed.

Lemma acOnly_type ty time i f a l c :
  Component.type (stateOf (acOnly M ty time i f a l c)) = Component.type c.
Proof.
  unfold acOnly. destruct (Component.isType _ c); [apply acPassive_type|done].
Qed.

Lemma performACAnalysis_types time cs ws :
  map Component.type (fst (stateOf (fst (performACAnalysis M time cs ws))))
  = map Component.type cs.
Proof.
  unfold performACAnalysis.
  pose proof (forEach_map Component.type (acSource M time) cs (acSource_type time)) as H1.
  destruct (forEach (acSource M time) cs) as [cs1|e cs1]; simpl in *; [|done].
  rewrite <- H1. unfold processComponents.
  match goal with
  | |- context [forEach (acOnly M "resistor" ?t ?i ?f ?a) cs1] =>
      pose proof (forEach_map Component.type (acOnly M "resistor" t i f a) cs1
                    (acOnly_type "resistor" t i f a)) as H2;
      destruct (forEach (acOnly M "resistor" t i f a) cs1) as [cs2|e cs2];
      simpl in *; [|done];
      pose proof (forEach_map Component.type (acOnly M "capacitor" t i f a) cs2
                    (acOnly_type "capacitor" t i f a)) as H3;
      destruct (forEach (acOnly M "capacitor" t i f a) cs2) as [cs3|e cs3];
      simpl in *; [|congruence];
      pose proof (forEach_map Component.type (acOnly M "inductor" t i f a) cs3
                    (acOnly_type "inductor" t i f a)) as H4;
      destruct (forEach (acOnly M "inductor" t i f a) cs3) as [cs4|e cs4];
      simpl in *; congruence
  end.
Qed.

(** No step changes the type of a component, in any mode, whether its
    analysis completes or throws. *)
Lemma performSimulationStep_types w :
  map Component.type (State.components (World.state (performSimulationStep M w)))
  = map Component.type (State.components (World.state w)).
Proof.
  unfold performSimulationStep.
  destruct (State.running (World.state w)); [|done]. cbv zeta.
  simpl State.type. simpl State.components. simpl State.wires. simpl State.time.
  set (cs := map (fun c => snd (SimulationValidator.validateComponent c))
                 (State.components (World.state w))).
  set (ws := map (fun x => snd (SimulationValidator.validateWire x))
                 (State.wires (World.state w))).
  assert (map Component.type cs = map Component.type (State.components (World.state w))) as Hcs.
  { eapply map_core_map; [apply core_type|apply map_validateComponent_core]. }
  destruct (analysisOf (State.type (World.state w))).
  - match goal with |- context [performTransientAnalysis M ?s] =>
      pose proof (performTransientAnalysis_frame M s) as (Hfr & _);
      set (s4 := performTransientAnalysis M s) in *
    end.
    unfold SimulationValidator.validateSimulation. simpl in *.
    eapply map_core_map; [apply core_type|].
    rewrite !map_validateComponent_core, Hfr. apply map_validateComponent_core.
  - pose proof (performDCAnalysis_components cs ws) as Hdc.
    pose proof (forEach_map Component.type dcComponent cs
                  (fun l x => dcComponent_type l x)) as Hty.
    destruct (performDCAnalysis cs ws) as [r|e r]; simpl in *.
    + congruence.
    + transitivity (map Component.type (fst r)); [|congruence].
      rewrite map_map. apply map_ext. intros c. apply recovered_type.
  - pose proof (performACAnalysis_types (State.time (World.state w)) cs ws) as Hac.
    destruct (performACAnalysis M _ cs ws) as [[r|e r] ms]; simpl in *.
    + congruence.
    + transitivity (map Component.type (fst r)); [|congruence].
      rewrite map_map. apply map_ext. intros c. apply recovered_type.
Qed.

End ModeFacts.

(** [C8], as amended.  The worker has no rule for ground components in any
    mode.  A step of a running simulation keeps a ground component in its
    place in the array, and: in DC mode, on a circuit that DC analysis can
    read (every component has its [values] object, every voltage source its
    voltage property and every resistor its resistance property), it writes
    0.5 V and 0.01 A into the component's values, as for every type without
    a rule of its own; in transient and AC mode it leaves the component's
    values exactly as they were, so that the voltage is 0 after the step
    only if it was 0 before. *)
Theorem ground_values_after_step (M : MathLib) (w : World.t) (j : nat)
    (c : Component.t) :
  State.running (World.state w) = true ->
  State.components (World.state w) !! j = Some c ->
  Component.isType "ground" c = true ->
  exists c',
    State.components (World.state (performSimulationStep M w)) !! j = Some c'
    /\ Component.isType "ground" c' = true
    /\ match analysisOf (State.type (World.state w)) with
       | DC =>
           Forall dcReady (State.components (World.state w)) ->
           exists v, Component.values c' = Some v
                     /\ Values.voltage v = 0.5%float /\ Values.current v = 0.01%float
       | Transient | AC => Component.values c' = Component.values c
       end.
Proof.
  intros Hrun Hc Hg.
  pose proof (performSimulationStep_types M w) as Htypes.
  assert (exists c', State.components (World.state (performSimulationStep M w)) !! j = Some c'
                     /\ Component.isType "ground" c' = true) as (c' & Hc' & Hg').
  { assert ((Component.type <$> State.components (World.state (performSimulationStep M w))) !! j
            = Some (Component.type c)) as H.
    { change (Component.type <$> ?l) with (map Component.type l). rewrite Htypes.
      change (map Component.type ?l) with (Component.type <$> l).
      by rewrite list_lookup_fmap, Hc. }
    rewrite list_lookup_fmap in H.
    destruct (State.components (World.state (performSimulationStep M w)) !! j) as [c'|];
      [|discriminate].
    exists c'. split; [done|]. unfold Component.isType in *. simpl in H. congruence. }
  exists c'. split; [exact Hc'|]. split; [exact Hg'|].
  destruct (analysisOf (State.type (World.state w))) eqn:Hmode.
  - (* transient: the core of every component is kept *)
    revert Hc'. unfold performSimulationStep. rewrite Hrun. cbv zeta.
    simpl State.type. rewrite Hmode.
    match goal with |- context [performTransientAnalysis M ?s] =>
      pose proof (performTransientAnalysis_frame M s) as (Hfr & _);
      set (s4 := performTransientAnalysis M s) in *
    end.
    unfold SimulationValidator.validateSimulation. simpl in *. intros Hc'.
    eassert (map core _ = map core (State.components (World.state w))) as Hall.
    2:{ destruct (lookup_map_core _ _ _ _ Hall Hc) as (c'' & Hc'' & Hcore).
        rewrite Hc' in Hc''. injection Hc'' as <-. by apply core_values. }
    rewrite !map_validateComponent_core, Hfr. apply map_validateComponent_core.
  - (* dc *)
    intros Hready.
    assert (State.type (World.state w) = "dc") as Hty.
    { revert Hmode. unfold analysisOf.
      destruct (String.eqb_spec (State.type (World.state w)) "tran"); [discriminate|].
      destruct (String.eqb_spec (State.type (World.state w)) "dc"); [done|].
      destruct (String.eqb (State.type (World.state w)) "ac"); discriminate. }
    destruct (dc_step M w Hrun Hty Hready) as (_ & _ & _ & _ & _ & _ & Hplain).
    eapply Forall_lookup_1 in Hplain; [|exact Hc'].
    apply Hplain. by apply ground_isPlain.
  - (* ac: the analysis and the recovery from its errors pass over it *)
    revert Hc'. unfold performSimulationStep. rewrite Hrun. cbv zeta.
    simpl State.type. rewrite Hmode.
    simpl State.components. simpl State.wires. simpl State.time.
    set (cs := map (fun c => snd (SimulationValidator.validateComponent c))
                   (State.components (World.state w))).
    set (ws := map (fun x => snd (SimulationValidator.validateWire x))
                   (State.wires (World.state w))).
    assert (map core cs = map core (State.components (World.state w))) as Hcore
      by apply map_validateComponent_core.
    destruct (lookup_map_core _ _ _ _ Hcore Hc) as (vc & Hvc & Hvcore).
    assert (Component.isType "ground" vc = true) as Hvg
      by (by rewrite (core_isType _ _ _ Hvcore)).
    pose proof (performACAnalysis_plain M (State.time (World.state w)) cs ws j vc Hvc
                  (ground_isPlain _ Hvg)) as Hac.
    destruct (performACAnalysis M _ cs ws) as [[r|e r] ms]; simpl in *.
    + intros Hc'. rewrite Hac in Hc'. injection Hc' as <-. by apply core_values.
    + intros Hc'. change (map ?f ?l) with (f <$> l) in Hc'.
      rewrite list_lookup_fmap, Hac in Hc'. simpl in Hc'.
      pose proof (validateComponent_core vc) as Hv.
      pose proof (ground_validates vc Hvg) as Hok.
      destruct (SimulationValidator.validateComponent vc) as [ok vc']. simpl in *.
      subst ok. injection Hc' as <-.
      rewrite (core_values _ _ Hv). by apply core_values.
Qed.

Lemma ground_values_after_step_witness :
  State.components (World.state dcWorld) !! 2%nat
  = Some (exampleComponent "G1" "ground" (Some Values.zero))
  /\ exists c',
       State.components (World.state (performSimulationStep exampleMath dcWorld)) !! 2%nat
       = Some c'
       /\ Component.isType "ground" c' = true
       /\ (Forall dcReady (State.components (World.state dcWorld)) ->
           exists v, Component.values c' = Some v
                     /\ Values.voltage v = 0.5%float /\ Values.current v = 0.01%float).
Proof.
  split; [reflexivity|].
  exact (ground_values_after_step exampleMath dcWorld 2
           (exampleComponent "G1" "ground" (Some Values.zero))
           eq_refl eq_refl eq_refl).
Defined.

(** [C8], the claim as stated, fails: after one step of a running DC
    simulation the ground component holds 0.5 V, whatever the Math
    library. *)
Lemma ground_dc_counterexample :
  State.components (World.state dcWorld) !! 2%nat
  = Some (exampleComponent "G1" "ground" (Some Values.zero))
  /\ forall M,
       State.components (World.state (performSimulationStep M dcWorld)) !! 2%nat
       = Some (exampleComponent "G1" "ground" (Some (Values.mk 0.5 0.01 0.005))).
Proof. split; [reflexivity|]. intros M. vm_compute. reflexivity. Qed.

(** ** The life cycle *)

Lemma started_initial : started World.initial.
Proof. by intros _. Qed.

Lemma started_startSimulation data w : started (startSimulation data w).
Proof. intros H. discriminate H. Qed.

Lemma started_pauseSimulation w : started w -> started (pauseSimulation w).
Proof. intros H. exact H. Qed.

Lemma started_stopSimulation w : started w -> started (stateOf (stopSimulation w)).
Proof.
  intros H. unfold stopSimulation.
  destruct (World.simulationInterval w) as [|[h|]] eqn:E; simpl; rewrite E; simpl;
    [exact (fun _ => H E)|intros H'; simpl in H'; rewrite ?E in H'; discriminate H'..].
Qed.

Lemma started_updateSimulationSpeed speed w :
  started w -> started (stateOf (updateSimulationSpeed speed w)).
Proof.
  intros H. unfold updateSimulationSpeed.
  destruct (speed <=? 0)%float; [exact H|].
  destruct (State.running _); [|exact H].
  destruct (World.simulationInterval w) as [|[h|]] eqn:E; simpl; rewrite ?E;
    [exact (fun _ => H E)|intros H'; simpl in H'; rewrite ?E in H'; discriminate H'..].
Qed.

Lemma started_tick M h w : started w -> started (tick M h w).
Proof.
  intros H. destruct (World.simulationInterval w) eqn:E.
  - destruct (H E) as (_ & _ & Ht). unfold tick. rewrite Ht, lookup_empty. exact H.
  - assert (World.simulationInterval (tick M h w) = World.simulationInterval w) as Hi.
    { unfold tick. destruct (World.timers w !! h) as [[[] i]|]; [| |done].
      - destruct (State.running _); [|done]. unfold performSimulationStep.
        destruct (State.running _); [|done]. cbv zeta.
        destruct (analysisOf _).
        + match goal with |- context [SimulationValidator.validateSimulation ?a ?b] =>
            destruct (SimulationValidator.validateSimulation a b) as [[v cs] ws] end.
          reflexivity.
        + match goal with |- context [performDCAnalysis ?a ?b] =>
            destruct (performDCAnalysis a b) end; reflexivity.
        + match goal with |- context [performACAnalysis M ?t ?a ?b] =>
            destruct (performACAnalysis M t a b) as [[r|e r] ms] end; simpl; [|done].
          generalize w. induction ms as [|m ms IH]; intros w0; simpl; [done|].
          by rewrite IH.
      - unfold speedLoopStep. destruct (State.running _); [|done]. cbv zeta.
        destruct (analysisOf _).
        + reflexivity.
        + match goal with |- context [performDCAnalysis ?a ?b] =>
            destruct (performDCAnalysis a b) end; reflexivity.
        + match goal with |- context [performACAnalysis M ?t ?a ?b] =>
            destruct (performACAnalysis M t a b) as [[r|e r] ms] end; simpl; [|done].
          generalize w. induction ms as [|m ms IH]; intros w0; simpl; [done|].
          by rewrite IH. }
    intros H'. rewrite Hi, E in H'. discriminate H'.
Qed.



(** [C10] Calling updateSimulationSpeed with a speed less than or equal to 0
    leaves everything unchanged: the stored speed, the timers with their
    intervals, the time, every component and wire; the call returns
    normally without any effect. *)
Theorem updateSimulationSpeed_rejects_nonpositive (speed : float) (w : World.t) :
  (speed <=? 0)%float = true ->
  updateSimulationSpeed speed w = Normal w.
Proof. intros H. unfold updateSimulationSpeed. by rewrite H. Qed.

Lemma updateSimulationSpeed_rejects_nonpositive_witness :
  ((-2) <=? 0)%float = true
  /\ updateSimulationSpeed (-2) transientWorld = Normal transientWorld.
Proof.
  split; [reflexivity|].
  exact (updateSimulationSpeed_rejects_nonpositive (-2) transientWorld eq_refl).
Defined.

(** ** Sources and the filters *)

(** [C6] Applying the stability filter to a voltage source or a current
    source leaves the component, and the filter's history, exactly as they
    were, at every step: however many times it is applied, and at whatever
    times.  The transient analysis likewise passes no source through its
    smoothing: its rule loop leaves the tracker and the source's values
    untouched. *)
Theorem applyStabilityFilter_exempts_sources (M : MathLib) (c : Component.t)
    (history : gmap string HistoryEntry) (times : list float) (tracker : Tracker.t) :
  Component.isSource c = true ->
  foldl (fun '(h, c) time => stateOf (applyStabilityFilter M time h c))
        (history, c) times = (history, c)
  /\ (forall time, applyStabilityFilter M time history c = Normal (history, c))
  /\ fst (calculateComponent M tracker c) = tracker
  /\ Component.values (snd (calculateComponent M tracker c)) = Component.values c.
Proof.
  intros Hsrc.
  assert (forall time, applyStabilityFilter M time history c = Normal (history, c)) as Happly.
  { intros time. unfold applyStabilityFilter. by rewrite Hsrc. }
  split; [|split; [exact Happly|]].
  - induction times as [|t ts IH]; simpl; [done|]. by rewrite Happly.
  - unfold Component.isSource, Component.isType in Hsrc.
    unfold calculateComponent, Component.isType.
    apply orb_true_iff in Hsrc as [H|H]; apply String.eqb_eq in H; rewrite H; by simpl.
Qed.

Lemma applyStabilityFilter_exempts_sources_witness :
  Component.isSource (exampleComponent "I1" "current-source" (Some (Values.mk 1 2 3))) = true
  /\ foldl (fun '(h, c) time => stateOf (applyStabilityFilter exampleMath time h c))
           (∅, exampleComponent "I1" "current-source" (Some (Values.mk 1 2 3)))
           [0; 0.01; 0.02]%float
     = (∅, exampleComponent "I1" "current-source" (Some (Values.mk 1 2 3))).
Proof.
  split; [reflexivity|].
  exact (proj1 (applyStabilityFilter_exempts_sources exampleMath
                  (exampleComponent "I1" "current-source" (Some (Values.mk 1 2 3)))
                  ∅ [0; 0.01; 0.02]%float Tracker.initial eq_refl)).
Defined.

(** ** The transient step *)

(** [C1] A transient step does not run the stages of the claim.  The
    worker declares [performTransientAnalysis] twice, and the step runs the
    second declaration, which replaces the first, the one that has the
    stages.  So the step applies no Update Rule of section 4.1, no
    Conservation-Law Corrector and no Stability Filter Bank: every
    component's id, type, parameters and [values] are after the step what
    they were before it, and so are the histories of the filter bank and
    the simulated time; and the snapshot that the step posts is that of the
    arrays as it leaves them. *)
Theorem transient_step_frame (M : MathLib) (w : World.t) :
  State.running (World.state w) = true ->
  analysisOf (State.type (World.state w)) = Transient ->
  let w' := performSimulationStep M w in
  map core (State.components (World.state w'))
  = map core (State.components (World.state w))
  /\ map Wire.id (State.wires (World.state w')) = map Wire.id (State.wires (World.state w))
  /\ State.componentValueHistory (World.state w')
     = State.componentValueHistory (World.state w)
  /\ State.time (World.state w') = State.time (World.state w)
  /\ exists validation,
       World.outbox w'
       = World.outbox w
         ++ [simulation_update (State.components (World.state w'))
               (State.wires (World.state w')) (State.time (World.state w))
               (State.stabilized (World.state w)) validation].
Proof.
  intros Hrun Hmode. unfold performSimulationStep. rewrite Hrun. cbv zeta.
  simpl State.type. rewrite Hmode.
  match goal with |- context [performTransientAnalysis M ?s] =>
    pose proof (performTransientAnalysis_frame M s) as (Hfr & Ht & _ & _ & _ & Hh & Hw);
    set (s4 := performTransientAnalysis M s) in *
  end.
  unfold SimulationValidator.validateSimulation. simpl in *.
  split; [|split; [|split; [|split]]].
  - rewrite !map_validateComponent_core, Hfr. apply map_validateComponent_core.
  - rewrite !map_validateWire_id, Hw. apply map_validateWire_id.
  - exact Hh.
  - exact Ht.
  - assert (State.stabilized s4 = State.stabilized (World.state w)) as Hs.
    { unfold s4, performTransientAnalysis.
      destruct (calculateComponents M _ _). reflexivity. }
    eexists. rewrite Ht, Hs. reflexivity.
Qed.

Lemma transient_step_frame_witness :
  map (fun c => (Component.id c, Component.values c))
    (State.components (World.state (performSimulationStep exampleMath transientWorld)))
  = [("V1", Some Values.zero); ("R1", Some (Values.mk 1 2 2))].
Proof.
  pose proof (transient_step_frame exampleMath transientWorld eq_refl eq_refl)
    as (H & _).
  apply (f_equal (map (fun k => (fst (fst (fst (fst (fst k)))), snd (fst (fst (fst k))))))) in H.
  rewrite !map_map in H. exact H.
Defined.

(** [C1] at a circuit.  Were the update rules applied, the 5 V DC source
    of this circuit would leave the step with 5 V in its values (the later
    stages pass over sources); the step leaves there the 0 V it found, and
    posts that, whatever the Math library. *)
Lemma transient_step_counterexample :
  (forall M,
     Component.values
       (processVoltageSource M
          (Component.mk "V1" "voltage-source" (Some Values.zero)
             (Some (Parameters.mk (Some 5%float) None None (Some "dc")))
             None None None None None None None) 0)
     = Some (Values.mk 5 0 0))
  /\ (forall M,
        map (fun c => (Component.id c, Component.values c))
          (State.components (World.state (performSimulationStep M transientWorld)))
        = [("V1", Some Values.zero); ("R1", Some (Values.mk 1 2 2))])
  /\ (forall M, exists wires validation,
        World.outbox (performSimulationStep M transientWorld)
        = [simulation_update
             [Component.mk "V1" "voltage-source" (Some Values.zero)
                (Some (Parameters.mk (Some 5%float) None None (Some "dc")))
                None None (Some 5%float) (Some 0%float) None None None;
              Component.mk "R1" "resistor" (Some (Values.mk 1 2 2))
                None None None (Some 0%float) (Some 0%float) (Some 1000%float)
                None None]
             wires 0 false validation]).
Proof.
  split; [|split].
  - intros M. vm_compute. reflexivity.
  - intros M. vm_compute. reflexivity.
  - intros M. eexists _, _. vm_compute. reflexivity.
Qed.

(** ** The voltage source *)

(** [C3], as amended.  For a voltage source whose amplitude and frequency
    are numbers other than 0 and NaN and whose offset is a number other
    than NaN, at every time, the rule sets values.voltage to the waveform
    value (dc: the amplitude; sine: amplitude x sin(2 pi f t) + offset;
    square: plus or minus the amplitude by the sign of the sine, plus the
    offset), or to the amplitude when that value is not a finite number,
    rounded to 6 decimal places.  It carries values.current over from the
    prior values, a current of NaN (or 0) becoming 0, and sets the power to
    the product of the two. *)
Theorem processVoltageSource_waveform (M : MathLib) (c : Component.t)
    (p : Parameters.t) (prior : Values.t) (kind : string) (a f d t : float) :
  Component.parameters c = Some p ->
  Parameters.waveform p = Some kind ->
  kind = "dc" \/ kind = "sine" \/ kind = "square" ->
  Parameters.amplitude p = Some a -> JS.truthy a = true ->
  Parameters.frequency p = Some f -> JS.truthy f = true ->
  Parameters.dcOffset p = Some d -> JS.truthy d = true \/ d = 0%float ->
  Component.values c = Some prior ->
  let v := waveformValue M kind a f d t in
  let voltage := JS.toFixed 6 (if JS.isFinite v then v else a) in
  let current :=
    if JS.truthy (Values.current prior) then Values.current prior else 0%float in
  processVoltageSource M c t
  = Component.set_values (Some (Values.mk voltage current (voltage * current))) c.
Proof.
  intros Hp Hk Hkind Ha Hat Hf Hft Hd Hdt Hv.
  unfold processVoltageSource. rewrite Hp, Hv, Ha, Hf, Hd, Hk. simpl JS.or.
  rewrite Hat, Hft.
  assert ((if JS.truthy d then d else 0%float) = d) as ->.
  { destruct Hdt as [->| ->]; reflexivity. }
  unfold waveformValue, SimulationValidator.isValidNumber.
  destruct Hkind as [-> | [-> | ->]]; simpl; try reflexivity.
  match goal with |- context [(0 <=? ?x)%float] => destruct (0 <=? x)%float end;
    reflexivity.
Qed.

Lemma processVoltageSource_waveform_witness :
  Component.values (processVoltageSource exampleMath dcSource 0.125)
  = Some (Values.mk 12.345679 0.25 (12.345679 * 0.25)).
Proof.
  pose proof (processVoltageSource_waveform exampleMath dcSource
                (Parameters.mk (Some 12.3456789%float) (Some 2%float) (Some 1%float)
                   (Some "dc"))
                (Values.mk 0 0.25 0) "dc" 12.3456789 2 1 0.125
                eq_refl eq_refl (or_introl eq_refl)
                eq_refl eq_refl eq_refl eq_refl eq_refl (or_introl eq_refl) eq_refl) as H.
  rewrite H. vm_compute. reflexivity.
Defined.

(** [C3], the claim as stated, fails where the rule's guards step in: a
    prior current of NaN is not carried over but replaced by 0, and a
    waveform value that is not finite is replaced by the amplitude. *)
Lemma processVoltageSource_counterexample :
  (Component.values sourceWithNaNCurrent = Some (Values.mk 0 nan 0)
   /\ forall M, Component.values (processVoltageSource M sourceWithNaNCurrent 0)
                = Some (Values.mk 5 0 0))
  /\ (forall M, waveformValue M "square" 5 1 infinity 0 = infinity
                /\ JS.toFixed 6 infinity = infinity
                /\ Component.values (processVoltageSource M sourceWithInfiniteOffset 0)
                   = Some (Values.mk 5 1 5)).
Proof.
  split; [split; [reflexivity|intros M; vm_compute; reflexivity]|].
  intros M. unfold waveformValue, processVoltageSource. simpl.
  match goal with |- context [(0 <=? ?x)%float] => destruct (0 <=? x)%float end;
    (split; [vm_compute; reflexivity|split; vm_compute; reflexivity]).
Qed.

(** ** The order on the numbers *)

Lemma SFcompare_antisym x y :
  SFcompare y x = option_map CompOpp (SFcompare x y).
Proof.
  destruct x as [sx|sx| |sx mx ex], y as [sy|sy| |sy my ey]; simpl;
    try reflexivity;
    try (destruct sx; reflexivity); try (destruct sy; reflexivity);
    try (destruct sx, sy; reflexivity).
  pose proof (Pos.compare_cont_antisym mx my Eq) as Hm. simpl in Hm.
  destruct sx, sy; simpl; try reflexivity;
    rewrite (Z.compare_antisym ex ey);
    destruct (ex ?= ey)%Z; simpl; try reflexivity;
    rewrite <- Hm, ?CompOpp_involutive; reflexivity.
Qed.

Lemma is_nan_Prim2SF x : is_nan x = false -> Prim2SF x <> S754_nan.
Proof.
  unfold is_nan. rewrite FloatAxioms.eqb_spec. intros H Hn. rewrite Hn in H. discriminate.
Qed.

Lemma SFcompare_total x y :
  x <> S754_nan -> y <> S754_nan -> exists c, SFcompare x y = Some c.
Proof. intros Hx Hy. destruct x, y; try congruence; simpl; eauto. Qed.

Lemma ltb_false_leb a b :
  is_nan a = false -> is_nan b = false ->
  (a <? b)%float = false -> (b <=? a)%float = true.
Proof.
  intros Ha Hb. rewrite ltb_spec, leb_spec. unfold SFltb, SFleb.
  rewrite (SFcompare_antisym (Prim2SF a) (Prim2SF b)).
  destruct (SFcompare_total _ _ (is_nan_Prim2SF _ Ha) (is_nan_Prim2SF _ Hb)) as [c ->].
  by destruct c.
Qed.

Lemma ltb_leb a b : (a <? b)%float = true -> (a <=? b)%float = true.
Proof.
  rewrite ltb_spec, leb_spec. unfold SFltb, SFleb.
  by destruct (SFcompare _ _) as [[]|].
Qed.

Lemma Prim2SF_1000 : Prim2SF 1000 = S754_finite false 8796093022208000 (-43).
Proof. vm_compute. reflexivity. Qed.

Lemma Prim2SF_m1000 : Prim2SF (-1000) = S754_finite true 8796093022208000 (-43).
Proof. vm_compute. reflexivity. Qed.

Lemma abs_le_1000 v :
  (-1000 <=? v)%float = true -> (v <=? 1000)%float = true ->
  (abs v <=? 1000)%float = true.
Proof.
  rewrite !leb_spec, abs_spec, Prim2SF_1000, Prim2SF_m1000.
  generalize 8796093022208000%positive as M. generalize (-43)%Z as E. intros E M.
  destruct (Prim2SF v) as [s|s| |s m e];
    cbv beta iota delta [SFleb SFcompare SFabs]; try done.
  - by destruct s.
  - destruct s; [|done].
    rewrite (Z.compare_antisym e E).
    pose proof (Pos.compare_cont_antisym m M Eq) as Hm. simpl in Hm.
    destruct (e ?= E)%Z; simpl; try done.
    rewrite <- Hm. by destruct (Pos.compare_cont Eq m M).
Qed.

(** The clamp: of a number it makes a number between -1000 and 1000. *)
Lemma clamp1000_range v :
  is_nan v = false ->
  (-1000 <=? clamp1000 v)%float = true
  /\ (clamp1000 v <=? 1000)%float = true
  /\ (abs (clamp1000 v) <=? 1000)%float = true.
Proof.
  intros Hv.
  assert ((-1000 <=? clamp1000 v)%float = true /\ (clamp1000 v <=? 1000)%float = true)
    as [Hlo Hhi]; [|by auto using abs_le_1000].
  unfold clamp1000, JS.Math_min.
  change (is_nan 1000) with false. rewrite Hv. cbv beta iota delta [orb].
  change (get_sign 1000) with false. cbv iota.
  destruct (1000 <? v)%float eqn:H1; [by vm_compute|].
  assert (JS.Math_min 1000 v = v -> True) as _ by done.
  replace (if (v <? 1000)%float then v else v) with v by (by destruct (v <? 1000)%float).
  unfold JS.Math_max.
  change (is_nan (-1000)) with false. rewrite Hv. cbv beta iota delta [orb].
  change (get_sign (-1000)) with true. cbv iota.
  destruct (-1000 <? v)%float eqn:H2.
  - split; [by apply ltb_leb|by apply ltb_false_leb].
  - destruct (v <? -1000)%float eqn:H3; [by vm_compute|].
    split; by apply ltb_false_leb.
Qed.

(** A NaN passes through the clamp. *)
Lemma clamp1000_nan : clamp1000 nan = nan.
Proof. reflexivity. Qed.

(** ** The enhanced stability filter *)

Lemma bounded_push_last (l : list float) (x : float) :
  last (if (10 <? length (l ++ [x]))%nat then tail (l ++ [x]) else l ++ [x]) = Some x.
Proof.
  destruct (10 <? length (l ++ [x]))%nat eqn:Hlen; [|by rewrite last_snoc].
  destruct l as [|y l]; simpl; [discriminate Hlen|]. by rewrite last_snoc.
Qed.

Lemma bounded_push_length (l : list float) (x : float) :
  length (if (10 <? length (l ++ [x]))%nat then tail (l ++ [x]) else l ++ [x])
  <= Nat.max 10 (length l).
Proof.
  destruct (Nat.ltb_spec 10 (length (l ++ [x]))) as [H|H].
  - destruct l as [|y l]; simpl in *; [lia|]. rewrite length_app. simpl. lia.
  - lia.
Qed.

(** [C4], as amended.  For every finite raw input the filter returns the
    selected value clamped to [-1000, 1000], the selection going by the
    fluctuation counter as the call has updated it: above 5 the median of
    the bounded history, above 2 and up to 5 the exponential moving
    average, and up to 2 (2 included) the 70/30 blend of the raw value and
    the exponential average.  Whenever the selected value is a number, the
    returned value satisfies |output| <= 1000.  The history is bounded: it
    ends with the raw value and never grows beyond 10 entries.  An input
    that is not finite yields 0 and leaves the history untouched. *)
Theorem enhancedStabilityFilter_output (M : MathLib) (x : float)
    (h : FilterHistory.t) (t : float) :
  let out := fst (enhancedStabilityFilter M x h t) in
  let h' := snd (enhancedStabilityFilter M x h t) in
  if JS.isFinite x then
    out = clamp1000 (selectedValue x h')
    /\ (is_nan (selectedValue x h') = false -> (abs out <=? 1000)%float = true)
    /\ last (FilterHistory.values h') = Some x
    /\ length (FilterHistory.values h') <= Nat.max 10 (length (FilterHistory.values h))
  else out = 0%float /\ h' = h.
Proof.
  unfold enhancedStabilityFilter.
  destruct (JS.isFinite x) eqn:Hx; simpl negb; cbv iota; [|by split].
  cbv zeta.
  match goal with |- context [(0.15 <? ?d)%float] => destruct (0.15 <? d)%float end;
    cbv beta iota; simpl fst; simpl snd; unfold selectedValue;
    simpl FilterHistory.fluctuationCount; simpl FilterHistory.exponentialAvg;
    simpl FilterHistory.values.
  - split; [reflexivity|]. split; [intros Hsel; by apply clamp1000_range|].
    split; [apply bounded_push_last|apply bounded_push_length].
  - split; [reflexivity|]. split; [intros Hsel; by apply clamp1000_range|].
    split; [apply bounded_push_last|apply bounded_push_length].
Qed.

Lemma enhancedStabilityFilter_counterexample_values (M : MathLib) :
  let r1 := enhancedStabilityFilter M 1 freshHistory 0.1 in
  let r2 := enhancedStabilityFilter M 5 (snd r1) 0.2 in
  FilterHistory.fluctuationCount (snd r2) = 2%float
  /\ FilterHistory.exponentialAvg (snd r2) = 1.71%float
  /\ fst r2 = (0.7 * 5 + 0.3 * 1.71)%float
  /\ (fst r2 =? FilterHistory.exponentialAvg (snd r2))%float = false.
Proof. vm_compute. repeat split; reflexivity. Qed.

(** [C4], the claim as stated, fails in two places.  With the counter at
    exactly 2 (here after two fluctuating samples on a fresh history) the
    filter returns the blend, 4.013, and not the exponential average, 1.71.
    And a finite input does not always come back within the bound: when the
    simulated time is NaN (as it is once [updateSimulationSpeed] has
    accepted a speed of NaN, which is not [<= 0]) the filter returns NaN. *)
Lemma enhancedStabilityFilter_counterexample :
  (forall M,
     let r1 := enhancedStabilityFilter M 1 freshHistory 0.1 in
     let r2 := enhancedStabilityFilter M 5 (snd r1) 0.2 in
     FilterHistory.fluctuationCount (snd r2) = 2%float
     /\ FilterHistory.exponentialAvg (snd r2) = 1.71%float
     /\ fst r2 = (0.7 * 5 + 0.3 * 1.71)%float
     /\ (fst r2 =? FilterHistory.exponentialAvg (snd r2))%float = false)
  /\ (forall M,
        State.time (World.state
          (speedLoopStep M (stateOf (updateSimulationSpeed nan transientWorld)))) = nan
        /\ JS.isFinite 1 = true
        /\ fst (enhancedStabilityFilter M 1 freshHistory nan) = nan
        /\ (abs nan <=? 1000)%float = false).
Proof.
  split; [exact enhancedStabilityFilter_counterexample_values|].
  intros M. vm_compute. repeat split; reflexivity.
Qed.

(** ** The Conservation-Law Corrector *)

Lemma foldThrow_invariant {A S B} (view : S -> B) (f : S -> A -> Completion S) :
  (forall s x, view (stateOf (f s x)) = view s) ->
  forall l s, view (stateOf (foldThrow f l s)) = view s.
Proof.
  intros Hf. induction l as [|x l IH]; intros s; simpl; [done|].
  specialize (Hf s x). destruct (f s x) as [s'|e s']; simpl in *; [|done].
  by rewrite IH.
Qed.

Lemma sourceView_insert cs i c c' :
  cs !! i = Some c -> sourceView c' = sourceView c ->
  map sourceView (<[i:=c']> cs) = map sourceView cs.
Proof.
  intros Hc Hv. change (map sourceView ?l) with (sourceView <$> l).
  rewrite list_fmap_insert, Hv. apply list_insert_id.
  by rewrite list_lookup_fmap, Hc.
Qed.

Lemma adjustVoltage_sourceView corr cs e :
  map sourceView (stateOf (adjustVoltage corr cs e)) = map sourceView cs.
Proof.
  unfold adjustVoltage. destruct (isComponent e); [|done].
  destruct (indexById cs (LoopElement.id e)) as [i|]; [|done].
  destruct (cs !! i) as [c|] eqn:Hc; [|done].
  destruct (Component.isSource c) eqn:Hs; [done|].
  destruct (Component.values c) as [v|]; [|done]. simpl.
  eapply sourceView_insert; [exact Hc|].
  unfold sourceView, Component.isSource, Component.isType in *. simpl. by rewrite Hs.
Qed.

Lemma adjustCurrent_sourceView corr s e :
  map sourceView (fst (stateOf (adjustCurrent corr s e))) = map sourceView (fst s).
Proof.
  unfold adjustCurrent. destruct s as [cs ws]. destruct (isComponent e).
  - destruct (indexById cs (LoopElement.id e)) as [i|]; [|done].
    destruct (cs !! i) as [c|] eqn:Hc; [|done].
    destruct (Component.isType "current-source" c) eqn:Hs; [done|].
    destruct (Component.values c) as [v|] eqn:Hv; [|done]. simpl.
    eapply sourceView_insert; [exact Hc|].
    unfold sourceView, Component.isSource, Component.isType in *. simpl.
    rewrite Hv. by destruct (String.eqb (Component.type c) "voltage-source").
  - destruct (isWire e); [|done].
    destruct (wireIndexById ws (LoopElement.id e)) as [i|]; [|done].
    by destruct (ws !! i).
Qed.

Section CorrectorFacts.

Variable getComponentConnections
  : option (Component.t -> list Wire.t -> list Connection.t).

(** The corrector keeps every component in its place and never writes the
    voltage of a source, whatever the circuit, whatever the scope holds as
    [getComponentConnections], and whether it completes or throws. *)
Lemma applyConservationLaws_sourceView cs ws :
  map sourceView (fst (stateOf (applyConservationLaws getComponentConnections cs ws)))
  = map sourceView cs.
Proof.
  unfold applyConservationLaws.
  destruct (findVoltageLoops getComponentConnections cs ws) as [e|loops]; [done|].
  pose proof (foldThrow_invariant (map sourceView) correctLoop) as Hkvl.
  specialize (Hkvl ltac:(intros s x; unfold correctLoop;
                         destruct (_ <? _)%float; [|done];
                         apply (foldThrow_invariant (map sourceView));
                         intros; apply adjustVoltage_sourceView) loops cs).
  destruct (foldThrow correctLoop loops cs) as [cs'|e cs']; simpl in *; [|done].
  rewrite <- Hkvl.
  apply (foldThrow_invariant (fun s => map sourceView (fst s))).
  intros s node. unfold correctNode. destruct (_ <? _)%float; [|done].
  apply (foldThrow_invariant (fun s => map sourceView (fst s))).
  intros. apply adjustCurrent_sourceView.
Qed.

End CorrectorFacts.

Lemma indexById_ids cs cs' key :
  map Component.id cs' = map Component.id cs -> indexById cs' key = indexById cs key.
Proof.
  revert cs'. induction cs as [|c cs IH]; intros [|c' cs'] H; try discriminate; [done|].
  injection H as Hc Hcs. simpl. by rewrite (IH cs' Hcs), Hc.
Qed.

Lemma indexById_lookup cs key i :
  indexById cs key = Some i -> is_Some (cs !! i).
Proof.
  revert i. induction cs as [|c cs IH]; intros i; simpl; [done|].
  destruct (indexById cs key) as [j|].
  - intros [= <-]. by apply IH.
  - destruct (String.eqb (Component.id c) key); [|done]. intros [= <-]. by eexists.
Qed.

Lemma adjusted_id corr cs loop i c :
  Component.id (adjusted corr cs loop i c) = Component.id c.
Proof. unfold adjusted. destruct (Component.values c); break_ifs; reflexivity. Qed.

Lemma adjusted_isSource corr cs loop i c :
  Component.isSource (adjusted corr cs loop i c) = Component.isSource c.
Proof.
  unfold adjusted. destruct (Component.values c); [|done].
  by destruct (Component.isSource c) eqn:E.
Qed.

Lemma imap_adjusted_ids corr cs loop :
  map Component.id (imap (adjusted corr cs loop) cs) = map Component.id cs.
Proof.
  apply list_eq. intros i. change (map ?f ?l) with (f <$> l).
  rewrite !list_lookup_fmap, list_lookup_imap.
  destruct (cs !! i); simpl; [|done]. by rewrite adjusted_id.
Qed.

Lemma occurrences_snoc cs i loop e :
  occurrences cs i (loop ++ [e])
  = occurrences cs i loop
    ++ (if decide (isComponent e = true /\ indexById cs (LoopElement.id e) = Some i)
        then [e] else []).
Proof.
  unfold occurrences. rewrite filter_app. reflexivity.
Qed.

Lemma occurrences_other cs i loop e :
  ~ (isComponent e = true /\ indexById cs (LoopElement.id e) = Some i) ->
  occurrences cs i (loop ++ [e]) = occurrences cs i loop.
Proof.
  intros H. rewrite occurrences_snoc. rewrite decide_False by done. apply app_nil_r.
Qed.

Lemma adjusted_other corr cs loop e i c :
  ~ (isComponent e = true /\ indexById cs (LoopElement.id e) = Some i) ->
  adjusted corr cs (loop ++ [e]) i c = adjusted corr cs loop i c.
Proof. intros H. unfold adjusted. by rewrite occurrences_other. Qed.

(** One element of the loop: the array goes from its state after the
    elements before it to its state after that element too. *)
Lemma adjustVoltage_step corr cs loop e :
  Forall hasValues cs ->
  adjustVoltage corr (imap (adjusted corr cs loop) cs) e
  = Normal (imap (adjusted corr cs (loop ++ [e])) cs).
Proof.
  intros Hall. unfold adjustVoltage.
  destruct (isComponent e) eqn:He.
  2:{ f_equal. apply imap_ext. intros i c _. symmetry. apply adjusted_other.
      intros [H _]. congruence. }
  rewrite (indexById_ids cs _ _ (imap_adjusted_ids corr cs loop)).
  destruct (indexById cs (LoopElement.id e)) as [i0|] eqn:Hi.
  2:{ f_equal. apply imap_ext. intros i c _. symmetry. apply adjusted_other.
      intros [_ H]. congruence. }
  destruct (indexById_lookup _ _ _ Hi) as [c0 Hc0].
  rewrite list_lookup_imap, Hc0. simpl. rewrite adjusted_isSource.
  assert (hasValues c0) as [v0 Hv0] by (eapply Forall_lookup_1; eauto).
  destruct (Component.isSource c0) eqn:Hs.
  - f_equal. apply imap_ext. intros i c Hc.
    destruct (decide (i = i0)) as [->|Hne].
    + assert (c = c0) as -> by congruence. unfold adjusted. by rewrite Hv0, Hs.
    + symmetry. apply adjusted_other. intros [_ H]. congruence.
  - unfold adjusted at 1. rewrite Hv0, Hs. simpl. f_equal.
    apply list_eq. intros i. rewrite list_lookup_imap.
    destruct (decide (i = i0)) as [->|Hne].
    + rewrite list_lookup_insert_eq.
      2:{ rewrite length_imap. by eapply lookup_lt_Some. }
      rewrite Hc0. simpl. f_equal. unfold adjusted at 2. rewrite Hv0, Hs.
      rewrite occurrences_snoc, decide_True by done.
      unfold subtractAll. rewrite foldl_app. simpl.
      unfold adjusted. rewrite Hv0, Hs. reflexivity.
    + rewrite list_lookup_insert_ne by done. rewrite list_lookup_imap.
      destruct (cs !! i) as [c|]; simpl; [|done]. f_equal.
      symmetry. apply adjusted_other. intros [_ H]. congruence.
Qed.

Lemma adjustVoltage_fold corr cs rest :
  Forall hasValues cs ->
  forall loop,
    foldThrow (adjustVoltage corr) rest (imap (adjusted corr cs loop) cs)
    = Normal (imap (adjusted corr cs (loop ++ rest)) cs).
Proof.
  intros Hall. induction rest as [|e rest IH]; intros loop; simpl.
  - by rewrite app_nil_r.
  - rewrite adjustVoltage_step by done. rewrite IH.
    by rewrite <- app_assoc.
Qed.

Lemma imap_adjusted_nil corr cs : imap (adjusted corr cs []) cs = cs.
Proof.
  apply list_eq. intros i. rewrite list_lookup_imap.
  destruct (cs !! i) as [c|]; simpl; [|done]. f_equal.
  unfold adjusted. destruct (Component.values c) as [v|] eqn:Hv; [|done].
  destruct (Component.isSource c); [done|].
  destruct c, v. simpl in *. by rewrite Hv.
Qed.

(** The correction of one loop, in closed form. *)
Lemma correctLoop_effect cs loop :
  Forall hasValues cs ->
  let totalVoltage := loopTotalVoltage cs loop in
  let correction := (totalVoltage / JS.ofNat (length loop))%float in
  correctLoop cs loop
  = Normal (if (0.001 <? JS.Math_abs totalVoltage)%float
            then imap (adjusted correction cs loop) cs
            else cs).
Proof.
  intros Hall. unfold correctLoop. cbv zeta.
  destruct (0.001 <? _)%float; [|done].
  pose proof (adjustVoltage_fold
                (loopTotalVoltage cs loop / JS.ofNat (length loop)) cs loop Hall []) as H.
  rewrite imap_adjusted_nil in H. exact H.
Qed.

Lemma corrected_hasValues cs loop :
  Forall hasValues cs -> Forall hasValues (corrected cs loop).
Proof.
  intros Hall. unfold corrected. destruct (_ <? _)%float; [|done].
  apply Forall_lookup. intros i c. rewrite list_lookup_imap.
  destruct (cs !! i) as [c0|] eqn:Hc0; simpl; [|done]. intros [= <-].
  assert (hasValues c0) as [v Hv] by (eapply Forall_lookup_1; eauto).
  unfold adjusted, hasValues. rewrite Hv. destruct (Component.isSource c0); by eexists.
Qed.

(** The voltage-loop pass over any list of loops, in closed form: each loop
    is corrected on the array as the loops before it have left it. *)
Lemma correctLoops_effect loops :
  forall cs, Forall hasValues cs ->
  foldThrow correctLoop loops cs = Normal (foldl corrected cs loops).
Proof.
  induction loops as [|loop loops IH]; intros cs Hall; simpl; [done|].
  rewrite correctLoop_effect by done. fold (corrected cs loop).
  apply IH. by apply corrected_hasValues.
Qed.

Section LoopDiscovery.

Variable getComponentConnections
  : option (Component.t -> list Wire.t -> list Connection.t).

Lemma followWires_closed cs ws origin fuel :
  forall wire prev loop result,
    followWires getComponentConnections cs ws origin fuel wire prev loop = inr (Some result) ->
    exists middle, result = loop ++ middle ++ [LoopElement.mk "component" origin 1].
Proof.
  induction fuel as [|fuel IH]; intros wire prev loop result; simpl; [done|].
  destruct wire as [wire|]; [|done].
  destruct (Wire.connections wire) as [connections|]; [|done].
  destruct (filter _ _) as [|componentId [|]]; try done.
  destruct (componentAt cs componentId) as [next|]; [|done].
  destruct (String.eqb_spec (Component.id next) origin) as [->|Hne].
  - intros [= <-]. by exists [].
  - destruct (callGetComponentConnections _ next ws) as [e|nextConnections]; [done|].
    intros H. apply IH in H as [middle ->].
    exists (LoopElement.mk "component" (Component.id next) 1 :: middle).
    by rewrite <- app_assoc.
Qed.

(** Every loop that [findVoltageLoops] returns closes on its origin. *)
Lemma findVoltageLoops_closed cs ws loops :
  findVoltageLoops getComponentConnections cs ws = inr loops ->
  Forall closedOnOrigin loops.
Proof.
  unfold findVoltageLoops. generalize cs at 2 as todo. intros todo. revert loops.
  induction todo as [|c todo IH]; intros loops; simpl.
  - intros [= <-]. constructor.
  - destruct (findVoltageLoopFrom _ _ _ c) as [e|found] eqn:Hfound; [done|].
    destruct (collectLoops _ _ _ todo) as [e|rest]; [done|].
    intros [= <-]. specialize (IH rest eq_refl).
    destruct found as [loop|]; [|done]. constructor; [|done].
    unfold findVoltageLoopFrom in Hfound.
    destruct (callGetComponentConnections _ c ws) as [e|[|c0 [|c1 [|]]]]; try done.
    apply followWires_closed in Hfound as [middle ->].
    by exists (Component.id c), middle.
Qed.

End LoopDiscovery.

(** With a [getComponentConnections] in scope, or without: the corrector
    never modifies the voltage of a voltage source or a current source.  On
    a circuit whose components all have their values, it goes through the
    loops it has found in turn; for a loop whose signed voltage sum has
    magnitude greater than 0.001 V it goes through the elements of the loop
    and subtracts direction x (sum / loop length) from the voltage of the
    component of each element that is not a source: once for each element,
    so that a component is corrected as many times as it occurs in the
    loop.  Every loop that is found closes on its origin, which is its first
    and its last element. *)
Lemma applyConservationLaws_voltage_loops
    (getComponentConnections : option (Component.t -> list Wire.t -> list Connection.t))
    (components : list Component.t) (wires : list Wire.t) :
  map sourceView
    (fst (stateOf (applyConservationLaws getComponentConnections components wires)))
  = map sourceView components
  /\ (Forall hasValues components ->
      forall loops,
        findVoltageLoops getComponentConnections components wires = inr loops ->
        Forall closedOnOrigin loops
        /\ foldThrow correctLoop loops components
           = Normal (foldl corrected components loops)
        /\ applyConservationLaws getComponentConnections components wires
           = foldThrow correctNode
               (findCurrentNodes (foldl corrected components loops) wires)
               (foldl corrected components loops, wires)).
Proof.
  split; [apply applyConservationLaws_sourceView|].
  intros Hall loops Hloops.
  split; [by eapply findVoltageLoops_closed|].
  split; [by apply correctLoops_effect|].
  unfold applyConservationLaws. rewrite Hloops.
  by rewrite correctLoops_effect.
Qed.

(** [C5] The corrector as the worker has it corrects no loop.  The search
    for the loops calls [getComponentConnections], which is declared
    nowhere: on every circuit that has a component the call throws a
    [ReferenceError] before anything is written.  In the ring of the
    resistors A (3 V) and B (2 V), whose voltages do not sum to zero, both
    keep their voltage.  And in a scope that has a
    [getComponentConnections], the loop found from A is A, B, A, with the
    origin at both ends: its sum is 8 V and its length 3, so that B is
    corrected once and A twice, where the claim has every component of the
    loop corrected by the same amount. *)
Theorem applyConservationLaws_corrects_no_loop :
  (forall (component : Component.t) (rest : list Component.t) (wires : list Wire.t),
      applyConservationLaws None (component :: rest) wires
      = Throw ReferenceError (component :: rest, wires))
  /\ applyConservationLaws None ring ringWires = Throw ReferenceError (ring, ringWires)
  /\ findVoltageLoopFrom (Some exampleConnections) ring ringWires
       (exampleComponent "A" "resistor" (Some (Values.mk 3 0 0)))
     = inr (Some ringLoop)
  /\ loopTotalVoltage ring ringLoop = 8%float
  /\ correctLoop ring ringLoop
     = Normal
         [exampleComponent "A" "resistor"
            (Some (Values.mk (3 - 1 * (8 / 3) - 1 * (8 / 3)) 0 0));
          exampleComponent "B" "resistor" (Some (Values.mk (2 - 1 * (8 / 3)) 0 0))]
  /\ ((3 - 1 * (8 / 3) - 1 * (8 / 3)) =? (3 - 1 * (8 / 3)))%float = false.
Proof.
  split; [reflexivity|]. vm_compute. repeat split; reflexivity.
Qed.

(** * Further properties of the worker *)

(** ** The life cycle of the timers *)

Lemma tick_idle M h w :
  State.running (World.state w) = false -> tick M h w = w.
Proof.
  intros Hr. unfold tick.
  destruct (World.timers w !! h) as [[[|] i]|]; [| |done].
  - by rewrite Hr.
  - unfold speedLoopStep. by rewrite Hr.
Qed.

Lemma ticks_idle M w handles :
  State.running (World.state w) = false ->
  foldl (fun w h => tick M h w) w handles = w.
Proof.
  intros Hr. induction handles as [|h hs IH]; simpl; [done|].
  by rewrite tick_idle.
Qed.

(** [X1] Once the simulation is paused or stopped, the firings of the
    interval timers, whichever and however many, change nothing and post
    nothing. *)
Theorem paused_or_stopped_is_frozen (M : MathLib) (w : World.t) (handles : list nat) :
  foldl (fun w h => tick M h w) (pauseSimulation w) handles = pauseSimulation w
  /\ foldl (fun w h => tick M h w) (stateOf (stopSimulation w)) handles
     = stateOf (stopSimulation w).
Proof.
  split; apply ticks_idle; [done|].
  unfold stopSimulation. simpl.
  destruct (World.simulationInterval w) as [|[h|]]; done.
Qed.

Lemma startSimulation_running d w :
  State.running (World.state (startSimulation d w)) = true.
Proof.
  unfold startSimulation. simpl.
  by repeat match goal with |- context [if ?b then _ else _] => destruct b end.
Qed.

Lemma startSimulation_timer d w :
  exists interval,
    World.timers (startSimulation d w)
    = <[World.nextTimer w := (StepLoop, interval)]> (World.timers w)
    /\ World.nextTimer (startSimulation d w) = S (World.nextTimer w)
    /\ World.simulationInterval (startSimulation d w)
       = Declared (Some (World.nextTimer w)).
Proof. unfold startSimulation. simpl. by eexists. Qed.

Lemma stopSimulation_timers w h :
  World.simulationInterval w = Declared (Some h) ->
  World.timers (stateOf (stopSimulation w)) = delete h (World.timers w).
Proof. intros H. unfold stopSimulation. simpl. by rewrite H. Qed.

(** [X2] [startSimulation] never cancels the loop of an earlier start: after
    two starts both timers run the step, and [stopSimulation] cancels the
    later one only. *)
Theorem restart_keeps_the_earlier_timer (M : MathLib) (d1 d2 : StartData.t)
    (w : World.t) :
  let w2 := startSimulation d2 (startSimulation d1 w) in
  tick M (World.nextTimer w) w2 = performSimulationStep M w2
  /\ tick M (S (World.nextTimer w)) w2 = performSimulationStep M w2
  /\ (exists interval,
        World.timers (stateOf (stopSimulation w2)) !! World.nextTimer w
        = Some (StepLoop, interval))
  /\ World.timers (stateOf (stopSimulation w2)) !! S (World.nextTimer w) = None.
Proof.
  intros w2.
  destruct (startSimulation_timer d1 w) as (i1 & Ht1 & Hn1 & Hs1).
  destruct (startSimulation_timer d2 (startSimulation d1 w)) as (i2 & Ht2 & Hn2 & Hs2).
  fold w2 in Ht2, Hn2, Hs2. rewrite Hn1 in Ht2, Hs2. rewrite Ht1 in Ht2.
  assert (State.running (World.state w2) = true) as Hr
    by apply startSimulation_running.
  repeat split.
  - unfold tick. rewrite Ht2, lookup_insert_ne by lia.
    by rewrite lookup_insert_eq, Hr.
  - unfold tick. by rewrite Ht2, lookup_insert_eq, Hr.
  - exists i1. rewrite (stopSimulation_timers _ _ Hs2).
    rewrite lookup_delete_ne by lia. rewrite Ht2.
    rewrite lookup_insert_ne by lia. by rewrite lookup_insert_eq.
  - rewrite (stopSimulation_timers _ _ Hs2). by rewrite lookup_delete_eq.
Qed.

(** ** What a step posts *)




Lemma frequencySweep_grid M fuel f amplitude resistors capacitors inductors :
  map Response.frequency
      (frequencySweep M fuel f amplitude resistors capacitors inductors)
  = sweepGrid fuel f.
Proof.
  revert f. induction fuel as [|fuel IH]; intros f; simpl; [done|].
  destruct (f <=? 10000)%float; [|done]. simpl. by rewrite IH.
Qed.

(** [X4] Whatever the circuit, the frequency response that AC analysis
    computes has exactly 100 points, at 10 Hz, 110 Hz, ..., 9910 Hz: the
    sweep ends by its own bound. *)
Theorem frequency_response_points (M : MathLib) (time : float)
    (components : list Component.t) :
  map Response.frequency (snd (processComponents M time components))
  = sweepFrequencies.
Proof.
  unfold processComponents. cbv zeta. cbn [snd].
  rewrite frequencySweep_grid. vm_compute. reflexivity.
Qed.

(** ** AC analysis without a voltage source *)

(** A body that writes nothing, and throws on the elements that [throws]
    marks: the loop ends at the first of them. *)
Lemma forEachFrom_first_throw {A} (body : list A -> A -> Completion A) (e : Exn)
    (throws : A -> bool) l :
  (forall l' y, body l' y = if throws y then Throw e y else Normal y) ->
  forall n i, i + n = length l -> Exists (fun y => throws y = true) (drop i l) ->
  forEachFrom body n i l = Throw e l.
Proof.
  intros Hbody. induction n as [|n IH]; intros i Hlen Hex.
  - rewrite drop_ge in Hex by lia. by apply Exists_nil in Hex.
  - simpl. destruct (l !! i) as [x|] eqn:Hx.
    2:{ apply lookup_ge_None in Hx. lia. }
    rewrite Hbody. rewrite (drop_S _ _ _ Hx) in Hex.
    destruct (throws x) eqn:Hthrows.
    + by rewrite list_insert_id.
    + rewrite list_insert_id by done. apply IH; [lia|].
      apply Exists_inv in Hex as [Hx'|]; [congruence|done].
Qed.

(** The same body on an array without such an element. *)
Lemma forEachFrom_no_throw {A} (body : list A -> A -> Completion A) l :
  (forall l' y, y ∈ l -> body l' y = Normal y) ->
  forall n i, forEachFrom body n i l = Normal l.
Proof.
  intros Hbody. induction n as [|n IH]; intros i; simpl; [done|].
  destruct (l !! i) as [x|] eqn:Hx; [|done].
  rewrite Hbody by (by eapply list_elem_of_lookup_2).
  by rewrite list_insert_id.
Qed.

Lemma ofType_nil ty cs c :
  ofType ty cs = [] -> c ∈ cs -> Component.isType ty c = false.
Proof.
  intros Hnil Hc. destruct (Component.isType ty c) eqn:E; [|done].
  exfalso. by eapply (filter_nil_not_elem_of _ _ c Hnil).
Qed.

Lemma ofType_Exists ty cs :
  ofType ty cs <> [] -> Exists (fun c => Component.isType ty c = true) cs.
Proof.
  intros Hne. destruct (ofType ty cs) as [|c rest] eqn:E; [done|].
  assert (c ∈ ofType ty cs) as Hc by (rewrite E; left).
  apply list_elem_of_filter in Hc as [? ?]. apply Exists_exists. eauto.
Qed.

(** [X5] AC analysis of a circuit that has a resistor and no voltage source
    throws, before it has written anything: the resistor's current is read
    off the values of a source that is not there. *)
Theorem ac_analysis_needs_a_source (M : MathLib) (time : float)
    (components : list Component.t) (wires : list Wire.t) :
  ofType "voltage-source" components = [] ->
  ofType "resistor" components <> [] ->
  performACAnalysis M time components wires
  = (Throw TypeError (components, wires), []).
Proof.
  intros Hnone Hres. unfold performACAnalysis.
  assert (forEach (acSource M time) components = Normal components) as ->.
  { apply forEachFrom_no_throw. intros l' y Hy. unfold acSource.
    by rewrite (ofType_nil _ _ _ Hnone Hy). }
  unfold processComponents. rewrite Hnone. cbn [head]. cbv zeta.
  assert (forEach (acOnly M "resistor" time None 1000 5) components
          = Throw TypeError components) as ->; [|done].
  apply (forEachFrom_first_throw _ _ (Component.isType "resistor")); [|done|].
  - intros l' y. unfold acOnly, acPassive.
    by destruct (Component.isType "resistor" y).
  - rewrite drop_0. by apply ofType_Exists.
Qed.

Lemma ac_analysis_needs_a_source_witness :
  ofType "voltage-source" [exampleComponent "R1" "resistor" (Some Values.zero)] = []
  /\ ofType "resistor" [exampleComponent "R1" "resistor" (Some Values.zero)] <> []
  /\ performACAnalysis exampleMath 0
       [exampleComponent "R1" "resistor" (Some Values.zero)] []
     = (Throw TypeError ([exampleComponent "R1" "resistor" (Some Values.zero)], []), []).
Proof.
  assert (ofType "resistor" [exampleComponent "R1" "resistor" (Some Values.zero)] <> [])
    as H by (intros E; discriminate E).
  split; [reflexivity|]. split; [exact H|].
  exact (ac_analysis_needs_a_source exampleMath 0
           [exampleComponent "R1" "resistor" (Some Values.zero)] [] eq_refl H).
Defined.

(** ** The validator *)

Lemma repair_finite d x :
  SimulationValidator.isValidNumber d = true ->
  finiteOrUndefined (SimulationValidator.repair d x).
Proof.
  intros Hd v. unfold SimulationValidator.repair.
  destruct x as [y|]; [|done].
  destruct (SimulationValidator.isValidNumber y) eqn:Hy; intros [= <-]; done.
Qed.

Lemma repair_keeps d x :
  finiteOrUndefined x -> SimulationValidator.repair d x = x.
Proof.
  intros Hx. unfold SimulationValidator.repair. destruct x as [y|]; [|done].
  by rewrite (Hx y eq_refl).
Qed.

(** [X6] A component that [validateComponent] accepts comes out with a
    voltage and a current that are finite numbers or undefined, and with a
    finite or undefined parameter of its type (resistance, capacitance,
    inductance); its [values], which the analyses compute, are not looked
    at. *)
Theorem validateComponent_repairs (c : Component.t) :
  fst (SimulationValidator.validateComponent c) = true ->
  let c' := snd (SimulationValidator.validateComponent c) in
  finiteOrUndefined (Component.voltage c')
  /\ finiteOrUndefined (Component.current c')
  /\ (Component.isType "resistor" c = true -> finiteOrUndefined (Component.resistance c'))
  /\ (Component.isType "capacitor" c = true -> finiteOrUndefined (Component.capacitance c'))
  /\ (Component.isType "inductor" c = true -> finiteOrUndefined (Component.inductance c'))
  /\ core c' = core c.
Proof.
  intros Hok. unfold SimulationValidator.validateComponent in *.
  destruct (String.eqb (Component.type c) "") eqn:Hty; [discriminate|].
  cbv zeta. cbn [snd].
  repeat split.
  - destruct c; unfold Component.isType; simpl.
    repeat match goal with |- context [String.eqb ?a ?b] => destruct (String.eqb a b) end;
      simpl; by apply repair_finite.
  - destruct c; unfold Component.isType; simpl.
    repeat match goal with |- context [String.eqb ?a ?b] => destruct (String.eqb a b) end;
      simpl; by apply repair_finite.
  - intros ->. destruct c; simpl. by apply repair_finite.
  - intros Hc. destruct c; unfold Component.isType in *; simpl in *.
    destruct (String.eqb type "resistor") eqn:E.
    { apply String.eqb_eq in E, Hc. congruence. }
    rewrite Hc. simpl. by apply repair_finite.
  - intros Hc. destruct c; unfold Component.isType in *; simpl in *.
    destruct (String.eqb type "resistor") eqn:E.
    { apply String.eqb_eq in E, Hc. congruence. }
    destruct (String.eqb type "capacitor") eqn:E'.
    { apply String.eqb_eq in E', Hc. congruence. }
    rewrite Hc. simpl. by apply repair_finite.
  - destruct c; unfold Component.isType, core; simpl.
    by repeat match goal with |- context [String.eqb ?a ?b] => destruct (String.eqb a b) end.
Qed.

Lemma validateComponent_repairs_witness :
  fst (SimulationValidator.validateComponent
         (Component.mk "V1" "voltage-source" None None None None
            (Some nan) (Some infinity) None None None)) = true
  /\ Component.voltage
       (snd (SimulationValidator.validateComponent
               (Component.mk "V1" "voltage-source" None None None None
                  (Some nan) (Some infinity) None None None))) = Some 5%float
  /\ finiteOrUndefined
       (Component.current
          (snd (SimulationValidator.validateComponent
                  (Component.mk "V1" "voltage-source" None None None None
                     (Some nan) (Some infinity) None None None)))).
Proof.
  split; [reflexivity|]. split; [reflexivity|].
  exact (proj1 (proj2 (validateComponent_repairs
                         (Component.mk "V1" "voltage-source" None None None None
                            (Some nan) (Some infinity) None None None) eq_refl))).
Defined.

Lemma repair_repair d d' x :
  SimulationValidator.isValidNumber d = true ->
  SimulationValidator.repair d' (SimulationValidator.repair d x)
  = SimulationValidator.repair d x.
Proof. intros Hd. apply repair_keeps. by apply repair_finite. Qed.

(** [X7] Validation is idempotent: a component that has been validated is
    returned as it is, with the same verdict, by a second validation. *)
Theorem validateComponent_idempotent (c : Component.t) :
  SimulationValidator.validateComponent (snd (SimulationValidator.validateComponent c))
  = SimulationValidator.validateComponent c.
Proof.
  unfold SimulationValidator.validateComponent.
  destruct c; unfold Component.isType; simpl.
  destruct (String.eqb type "") eqn:Hty; simpl; [by rewrite Hty|].
  repeat match goal with |- context [String.eqb type ?b] =>
    destruct (String.eqb type b) eqn:? end; simpl;
  repeat match goal with H : String.eqb type _ = _ |- _ => rewrite H end; simpl;
  by rewrite !repair_repair.
Qed.

Lemma countInvalid_zero {A} (validate : A -> bool * A) l :
  SimulationValidator.countInvalid validate l = 0
  <-> Forall (fun x => fst (validate x) = true) l.
Proof.
  unfold SimulationValidator.countInvalid.
  induction l as [|x l IH]; simpl; [by split|].
  rewrite filter_cons. destruct (decide (fst (validate x) = false)) as [E|E].
  - simpl. split; [done|]. intros H. apply Forall_cons in H as [H _]. congruence.
  - rewrite IH. split.
    + intros H. constructor; [by destruct (fst (validate x))|done].
    + intros H. by apply Forall_cons in H as [_ H].
Qed.

(** [X8] The verdict of [validateSimulation] depends on no number: the
    circuit is valid exactly when every component has a type and every wire
    names both its ends. *)
Theorem validateSimulation_verdict (components : list Component.t)
    (wires : list Wire.t) :
  Validation.valid (fst (fst (SimulationValidator.validateSimulation components wires)))
  = true
  <-> Forall (fun c => Component.type c <> "") components /\ Forall hasEndpoints wires.
Proof.
  unfold SimulationValidator.validateSimulation. cbv zeta. cbn [fst Validation.valid].
  rewrite andb_true_iff, !Nat.eqb_eq, !countInvalid_zero.
  assert (forall A B C D : Prop, (A <-> C) -> (B <-> D) -> (A /\ B <-> C /\ D)) as Hand
    by tauto.
  apply Hand; apply Forall_iff; intros x.
  - unfold SimulationValidator.validateComponent.
    destruct (String.eqb (Component.type x) "") eqn:E; simpl.
    + apply String.eqb_eq in E. split; [discriminate|done].
    + apply String.eqb_neq in E. done.
  - unfold SimulationValidator.validateWire, hasEndpoints.
    destruct (SimulationValidator.falsyString (Wire.startComponent x));
      destruct (SimulationValidator.falsyString (Wire.endComponent x)); simpl;
      split; try done; intros [? ?]; done.
Qed.

(** ** The histories of a fresh simulation *)

(** [object[key(x)] = value(x)] for each [x] of an array, in turn: the last
    [x] with the key decides. *)
Lemma foldl_insert_lookup {A B} (key : A -> string) (value : A -> B)
    (l : list A) (h : gmap string B) (k : string) :
  foldl (fun h x => <[key x := value x]> h) h l !! k
  = match foldr (fun x found =>
                   match found with
                   | Some y => Some y
                   | None => if String.eqb (key x) k then Some (value x) else None
                   end) None l with
    | Some y => Some y
    | None => h !! k
    end.
Proof.
  revert h. induction l as [|x l IH]; intros h; simpl; [done|].
  rewrite IH. destruct (foldr _ None l) as [y|]; [done|].
  destruct (String.eqb (key x) k) eqn:E.
  - apply String.eqb_eq in E as ->. apply lookup_insert_eq.
  - apply String.eqb_neq in E. by apply lookup_insert_ne.
Qed.

Lemma lookupById_foldr {B} (value : Component.t -> B) components k :
  foldr (fun x found =>
           match found with
           | Some y => Some y
           | None => if String.eqb (Component.id x) k then Some (value x) else None
           end) None components
  = value <$> lookupById components k.
Proof.
  induction components as [|c cs IH]; simpl; [done|].
  rewrite IH. destruct (lookupById cs k); simpl; [done|].
  by destruct (String.eqb (Component.id c) k).
Qed.

Lemma startSimulation_componentValueHistory d w :
  State.componentValueHistory (World.state (startSimulation d w))
  = foldl (fun h component => <[Component.id component := freshEntry component]> h)
          ∅ (default [] (StartData.components d)).
Proof.
  unfold startSimulation. simpl.
  by repeat match goal with |- context [if ?b then _ else _] => destruct b end.
Qed.

Lemma startSimulation_wireValueHistory d w :
  State.wireValueHistory (World.state (startSimulation d w))
  = foldl (fun h wire => <[Wire.id wire := replicate 5 (JS.or (Wire.current wire) 0)]> h)
          ∅ (default [] (StartData.wires d)).
Proof.
  unfold startSimulation. simpl.
  by repeat match goal with |- context [if ?b then _ else _] => destruct b end.
Qed.

(** [X9] [startSimulation] leaves a value history for exactly the ids of
    the circuit it is given, whatever an earlier run had left: under each id,
    five copies of the voltage and of the current in the [values] of the
    last component with that id (0 for one that is missing, zero or not a
    number). *)
Theorem startSimulation_history (d : StartData.t) (w : World.t) (k : string) :
  State.componentValueHistory (World.state (startSimulation d w)) !! k
  = freshEntry <$> lookupById (default [] (StartData.components d)) k.
Proof.
  rewrite startSimulation_componentValueHistory, foldl_insert_lookup.
  rewrite lookupById_foldr. by destruct (lookupById _ k).
Qed.

(** ** The stability of fresh histories *)

(** A number minus itself is 0, or is not a number. *)
Lemma sub_diag_float x : (x - x = 0 \/ x - x = nan)%float.
Proof.
  rewrite <- (SF2Prim_Prim2SF (x - x)), sub_spec. unfold SF64sub.
  destruct (Prim2SF x) as [s|s| |s m e]; simpl.
  - left. by destruct s.
  - right. by destruct s.
  - by right.
  - left. by rewrite Z.sub_diag.
Qed.

Lemma calculateStability_constant x :
  calculateStability (replicate 5 x) = 0%float
  \/ calculateStability (replicate 5 x) = nan.
Proof.
  unfold calculateStability. simpl.
  destruct (sub_diag_float x) as [-> | ->]; [left|right]; reflexivity.
Qed.

Lemma constant_history_stable x :
  (0.1 <? calculateStability (replicate 5 x))%float = false
  /\ (0.01 <? calculateStability (replicate 5 x))%float = false.
Proof. by destruct (calculateStability_constant x) as [-> | ->]. Qed.

(** [X10] A simulation that has just been started counts as stable,
    whatever its circuit: every history holds five copies of one value, whose
    mean change is 0, or is not a number when the value is not finite, and
    neither exceeds a threshold. *)
Theorem fresh_simulation_is_stable (d : StartData.t) (w : World.t) :
  checkSimulationStability (World.state (startSimulation d w)) = true.
Proof.
  unfold checkSimulationStability. apply andb_true_iff. split.
  - apply forallb_forall. intros [k entry] Hin. simpl.
    apply list_elem_of_In, elem_of_map_to_list in Hin.
    rewrite startSimulation_componentValueHistory, foldl_insert_lookup in Hin.
    rewrite lookupById_foldr in Hin.
    destruct (lookupById _ k) as [c|]; [|done]. injection Hin as <-.
    unfold entryStable, freshEntry.
    destruct (constant_history_stable (valuesOr Values.voltage c)) as [-> _].
    by destruct (constant_history_stable (valuesOr Values.current c)) as [_ ->].
  - apply forallb_forall. intros [k entry] Hin. simpl.
    apply list_elem_of_In, elem_of_map_to_list in Hin.
    rewrite startSimulation_wireValueHistory, foldl_insert_lookup in Hin.
    match type of Hin with context [foldr ?f None ?l] =>
      assert (forall y, foldr f None l = Some y -> exists x, y = replicate 5 x) as Hall
    end.
    { clear. induction (default [] (StartData.wires d)) as [|x l IH]; intros y; simpl; [done|].
      destruct (foldr _ None l) as [y'|]; [intros [= <-]; by apply IH|].
      destruct (String.eqb (Wire.id x) k); [|done]. intros [= <-]. by eexists. }
    destruct (foldr _ None _) as [y|]; [|done]. injection Hin as <-.
    destruct (Hall y eq_refl) as [x ->].
    by destruct (constant_history_stable x) as [_ ->].
Qed.

(** ** Transient analysis *)

Section TransientPass.

Variable M : MathLib.

Lemma ensure_is_Some x : is_Some (ensure x).
Proof. destruct x; by eexists. Qed.

Lemma calculateComponent_defined k c :
  hasVoltageAndCurrent (snd (calculateComponent M k c)).
Proof.
  unfold calculateComponent.
  destruct (Component.isType "resistor" c);
    [|destruct (Component.isType "capacitor" c);
      [|destruct (Component.isType "inductor" c)]];
    repeat match goal with |- context [applyStabilization M ?k ?i ?t ?x] =>
      destruct (applyStabilization M k i t x) end;
    split; simpl; first [apply ensure_is_Some | by eexists].
Qed.

(** Each component of the result is what the rule makes of the component
    that stands there, with the tracker as the earlier ones left it. *)
Lemma calculateComponents_lookup cs : forall k j c',
  snd (calculateComponents M k cs) !! j = Some c' ->
  exists k' c, cs !! j = Some c /\ c' = snd (calculateComponent M k' c).
Proof.
  induction cs as [|c cs IH]; intros k j c'; simpl; [done|].
  destruct (calculateComponent M k c) as [k1 c1] eqn:E1.
  destruct (calculateComponents M k1 cs) as [k2 cs2] eqn:E2. simpl.
  destruct j as [|j]; simpl.
  - intros [= <-]. exists k, c. by rewrite E1.
  - intros H. apply (IH k1 j c'). by rewrite E2.
Qed.

Lemma calculateComponents_length cs : forall k,
  length (snd (calculateComponents M k cs)) = length cs.
Proof.
  induction cs as [|c cs IH]; intros k; simpl; [done|].
  destruct (calculateComponent M k c) as [k1 c1].
  specialize (IH k1). destruct (calculateComponents M k1 cs) as [k2 cs2].
  simpl in *. by rewrite IH.
Qed.

Lemma performTransientAnalysis_components s :
  State.components (performTransientAnalysis M s)
  = snd (calculateComponents M (State.stabilityTracker s)
           (map initializeComponent (State.components s))).
Proof.
  unfold performTransientAnalysis.
  by destruct (calculateComponents M _ _) as [k cs].
Qed.

End TransientPass.

(** [X11] After a pass of transient analysis every component has a voltage
    and a current, whatever it had before and whatever its type. *)
Theorem transient_pass_defines_voltage_and_current (M : MathLib) (s : State.t) :
  Forall hasVoltageAndCurrent (State.components (performTransientAnalysis M s)).
Proof.
  rewrite performTransientAnalysis_components. apply Forall_lookup. intros j c' Hc'.
  apply calculateComponents_lookup in Hc' as (k' & c & _ & ->).
  apply calculateComponent_defined.
Qed.

Section TransientSources.

Variable M : MathLib.

Lemma or_truthy x d : JS.truthy d = true -> JS.truthy (JS.or x d) = true.
Proof.
  intros Hd. unfold JS.or. destruct x as [v|]; [|done].
  by destruct (JS.truthy v) eqn:E.
Qed.

Lemma or_of_truthy v d : JS.truthy v = true -> JS.or (Some v) d = v.
Proof. intros H. unfold JS.or. by rewrite H. Qed.

Lemma sourceVoltage_truthy c : JS.truthy (sourceVoltage c) = true.
Proof. unfold sourceVoltage. by do 2 apply or_truthy. Qed.

Lemma sourceCurrent_truthy c : JS.truthy (sourceCurrent c) = true.
Proof. unfold sourceCurrent. by do 2 apply or_truthy. Qed.

(** A component has one type. *)
Lemma isType_other ty ty' c :
  Component.isType ty c = true -> ty <> ty' -> Component.isType ty' c = false.
Proof.
  unfold Component.isType. intros H Hne. apply String.eqb_eq in H.
  apply String.eqb_neq. congruence.
Qed.

(** The second loop on a component that is no resistor, capacitor or
    inductor: it only fills in what is missing. *)
Lemma calculateComponent_other k c :
  Component.isType "resistor" c = false ->
  Component.isType "capacitor" c = false ->
  Component.isType "inductor" c = false ->
  Component.voltage (snd (calculateComponent M k c)) = ensure (Component.voltage c)
  /\ Component.current (snd (calculateComponent M k c)) = ensure (Component.current c).
Proof.
  intros Hr Hc Hl. unfold calculateComponent. rewrite Hr, Hc, Hl. by split.
Qed.

Lemma initializeComponent_voltage_source c :
  Component.isType "voltage-source" c = true ->
  Component.voltage (initializeComponent c) = Some (sourceVoltage c).
Proof.
  intros Hty. unfold initializeComponent, sourceVoltage, falsy, JS.or. rewrite Hty.
  assert (forall x ty, ty <> "voltage-source" ->
            Component.isType ty (Component.set_voltage x c) = false) as Hset
    by (intros x ty Hne; by apply (isType_other "voltage-source" ty c)).
  assert (forall ty, ty <> "voltage-source" -> Component.isType ty c = false) as Hc
    by (intros ty Hne; by apply (isType_other "voltage-source" ty c)).
  destruct (Component.voltage c) as [v|] eqn:Hv; [destruct (JS.truthy v) eqn:Ht|];
    cbn [negb andb];
    repeat (first [rewrite Hset by (intros E; discriminate E)
                  |rewrite Hc by (intros E; discriminate E)]; cbn [andb]);
    done.
Qed.

Lemma initializeComponent_current_source c :
  Component.isType "current-source" c = true ->
  Component.current (initializeComponent c) = Some (sourceCurrent c).
Proof.
  intros Hty. unfold initializeComponent, sourceCurrent, falsy, JS.or.
  rewrite (isType_other "current-source" "voltage-source" c Hty) by (intros E; discriminate E).
  cbn [andb]. rewrite Hty.
  assert (forall x ty, ty <> "current-source" ->
            Component.isType ty (Component.set_current x c) = false) as Hset
    by (intros x ty Hne; by apply (isType_other "current-source" ty c)).
  assert (forall ty, ty <> "current-source" -> Component.isType ty c = false) as Hc
    by (intros ty Hne; by apply (isType_other "current-source" ty c)).
  destruct (Component.current c) as [v|] eqn:Hv; [destruct (JS.truthy v) eqn:Ht|];
    cbn [negb andb];
    repeat (first [rewrite Hset by (intros E; discriminate E)
                  |rewrite Hc by (intros E; discriminate E)]; cbn [andb]);
    done.
Qed.

(** What one pass makes of a source. *)
Lemma transient_source k c :
  let c' := snd (calculateComponent M k (initializeComponent c)) in
  core c' = core c
  /\ (Component.isType "voltage-source" c = true ->
      Component.voltage c' = Some (sourceVoltage c))
  /\ (Component.isType "current-source" c = true ->
      Component.current c' = Some (sourceCurrent c)).
Proof.
  cbv zeta. split; [by rewrite calculateComponent_core, initializeComponent_core|].
  assert (forall ty, Component.isType ty (initializeComponent c) = Component.isType ty c)
    as Hinit by (intros ty; apply core_isType, initializeComponent_core).
  split; intros Hty.
  - destruct (calculateComponent_other k (initializeComponent c)) as [-> _];
      rewrite ?Hinit;
      try (apply (isType_other "voltage-source"); [done|intros E; discriminate E]).
    by rewrite initializeComponent_voltage_source.
  - destruct (calculateComponent_other k (initializeComponent c)) as [_ ->];
      rewrite ?Hinit;
      try (apply (isType_other "current-source"); [done|intros E; discriminate E]).
    by rewrite initializeComponent_current_source.
Qed.

Lemma transient_pass_source s j c :
  State.components s !! j = Some c ->
  exists c', State.components (performTransientAnalysis M s) !! j = Some c'
    /\ core c' = core c
    /\ (Component.isType "voltage-source" c = true ->
        Component.voltage c' = Some (sourceVoltage c))
    /\ (Component.isType "current-source" c = true ->
        Component.current c' = Some (sourceCurrent c)).
Proof.
  intros Hc. rewrite performTransientAnalysis_components.
  destruct (snd (calculateComponents M (State.stabilityTracker s)
                   (map initializeComponent (State.components s))) !! j)
    as [c'|] eqn:Hc'.
  2:{ apply lookup_ge_None in Hc'. apply lookup_lt_Some in Hc.
      rewrite calculateComponents_length, length_map in Hc'. lia. }
  exists c'. split; [done|].
  apply calculateComponents_lookup in Hc' as (k' & c0 & Hc0 & ->).
  change (map initializeComponent ?l) with (initializeComponent <$> l) in Hc0.
  rewrite list_lookup_fmap, Hc in Hc0. injection Hc0 as <-.
  apply transient_source.
Qed.

End TransientSources.

(** [X12] Transient analysis settles a source at its first pass and never
    moves it again: from then on a voltage source keeps as its voltage, and a
    current source as its current, the setting it came with, or
    [component.value] or the default (5 V, 10 mA) when it came with none or
    with zero. *)
Theorem transient_sources_are_settled (M : MathLib) (s : State.t) (n j : nat)
    (c : Component.t) :
  State.components s !! j = Some c ->
  exists c',
    State.components (Nat.iter (S n) (performTransientAnalysis M) s) !! j = Some c'
    /\ (Component.isType "voltage-source" c = true ->
        Component.voltage c' = Some (sourceVoltage c))
    /\ (Component.isType "current-source" c = true ->
        Component.current c' = Some (sourceCurrent c)).
Proof.
  intros Hc.
  assert (exists c',
    State.components (Nat.iter (S n) (performTransientAnalysis M) s) !! j = Some c'
    /\ core c' = core c
    /\ (Component.isType "voltage-source" c = true ->
        Component.voltage c' = Some (sourceVoltage c))
    /\ (Component.isType "current-source" c = true ->
        Component.current c' = Some (sourceCurrent c))) as (c' & ? & ? & ? & ?);
    [|by exists c'].
  induction n as [|n (c1 & Hc1 & Hcore & Hv & Hi)].
  - by apply transient_pass_source.
  - destruct (transient_pass_source M _ j c1 Hc1) as (c2 & Hc2 & Hcore2 & Hv2 & Hi2).
    exists c2. split; [exact Hc2|]. split; [congruence|].
    assert (Component.type c1 = Component.type c /\ Component.value c1 = Component.value c)
      as [Hty Hval] by (unfold core in Hcore; split; congruence).
    unfold Component.isType in *. rewrite Hty in Hv2, Hi2. split; intros H.
    + rewrite (Hv2 H). unfold sourceVoltage at 1. rewrite (Hv H).
      by rewrite or_of_truthy by apply sourceVoltage_truthy.
    + rewrite (Hi2 H). unfold sourceCurrent at 1. rewrite (Hi H).
      by rewrite or_of_truthy by apply sourceCurrent_truthy.
Qed.

Lemma transient_sources_are_settled_witness :
  exists c c',
    State.components (World.state transientWorld) !! 0 = Some c
    /\ Component.isType "voltage-source" c = true
    /\ State.components
         (Nat.iter 3 (performTransientAnalysis exampleMath) (World.state transientWorld))
       !! 0 = Some c'
    /\ Component.voltage c' = Some 5%float.
Proof.
  eexists.
  destruct (transient_sources_are_settled exampleMath (World.state transientWorld)
              2 0 _ eq_refl) as (c' & Hc' & Hv & _).
  exists c'. split; [reflexivity|]. split; [reflexivity|]. split; [exact Hc'|].
  exact (Hv eq_refl).
Defined.

(** ** The windows of the stability tracker *)

Section Windows.

Variable M : MathLib.

Lemma applyStabilization_window bound k id ty x :
  1 <= bound -> windowsWithin bound k ->
  windowsWithin bound (snd (applyStabilization M k id ty x)).
Proof.
  intros Hb [Hmax Hall]. unfold applyStabilization.
  destruct (Tracker.prevValues k !! _) as [d|] eqn:Hd; simpl.
  - split; [done|]. apply map_Forall_insert_2; [|done]. simpl.
    specialize (Hall _ _ Hd). simpl in Hall. rewrite length_app. simpl.
    destruct (Nat.ltb_spec (Tracker.maxSamples k) (length (ValueData.values d) + 1)).
    + destruct (ValueData.values d); simpl in *; [lia|]. rewrite length_app. simpl. lia.
    + rewrite length_app. simpl. lia.
  - split; [done|]. apply map_Forall_insert_2; [|done]. simpl. lia.
Qed.

Lemma calculateComponent_window bound k c :
  1 <= bound -> windowsWithin bound k ->
  windowsWithin bound (fst (calculateComponent M k c)).
Proof.
  intros Hb Hk. unfold calculateComponent.
  destruct (Component.isType "resistor" c);
    [|destruct (Component.isType "capacitor" c);
      [|destruct (Component.isType "inductor" c)]];
    try match goal with |- context [applyStabilization M ?k ?i ?t ?x] =>
      pose proof (applyStabilization_window bound k i t x Hb Hk);
      destruct (applyStabilization M k i t x) end;
    done.
Qed.

Lemma calculateComponents_window bound cs : forall k,
  1 <= bound -> windowsWithin bound k ->
  windowsWithin bound (fst (calculateComponents M k cs)).
Proof.
  induction cs as [|c cs IH]; intros k Hb Hk; simpl; [done|].
  pose proof (calculateComponent_window bound k c Hb Hk) as H1.
  destruct (calculateComponent M k c) as [k1 c1].
  specialize (IH k1 Hb H1). by destruct (calculateComponents M k1 cs) as [k2 cs2].
Qed.

Lemma performTransientAnalysis_window bound s :
  1 <= bound -> windowsWithin bound (State.stabilityTracker s) ->
  windowsWithin bound (State.stabilityTracker (performTransientAnalysis M s)).
Proof.
  intros Hb Hk. unfold performTransientAnalysis.
  pose proof (calculateComponents_window bound
                (map initializeComponent (State.components s)) _ Hb Hk) as H.
  by destruct (calculateComponents M _ _) as [k cs].
Qed.

End Windows.

(** [X13] The windows over which the stability tracker smooths never
    outgrow it: when none holds more than [bound] samples, [bound] being at
    least 1 and at least [maxSamples], none does after any number of passes
    of transient analysis either. *)
Theorem transient_windows_stay_bounded (M : MathLib) (s : State.t) (bound n : nat) :
  1 <= bound ->
  windowsWithin bound (State.stabilityTracker s) ->
  windowsWithin bound
    (State.stabilityTracker (Nat.iter n (performTransientAnalysis M) s)).
Proof.
  intros Hb Hk. induction n as [|n IH]; simpl; [done|].
  by apply performTransientAnalysis_window.
Qed.

Lemma transient_windows_stay_bounded_witness :
  1 <= 5
  /\ windowsWithin 5 (State.stabilityTracker (World.state transientWorld))
  /\ windowsWithin 5
       (State.stabilityTracker
          (Nat.iter 7 (performTransientAnalysis exampleMath) (World.state transientWorld))).
Proof.
  assert (windowsWithin 5 (State.stabilityTracker (World.state transientWorld))) as H
    by (split; [simpl; lia|apply map_Forall_empty]).
  split; [lia|]. split; [exact H|].
  exact (transient_windows_stay_bounded exampleMath _ 5 7 ltac:(lia) H).
Defined.

(** ** Connection strings *)

Lemma untilDash_dashFree s : dashFree s = true -> untilDash s = (s, None).
Proof.
  induction s as [|c s IH]; simpl; [done|].
  destruct (Ascii.eqb c "-"%char); simpl; [done|]. intros H. by rewrite IH.
Qed.

Lemma untilDash_app a b :
  dashFree a = true -> untilDash (a ++ String "-"%char b) = (a, Some b).
Proof.
  induction a as [|c a IH]; simpl; [done|].
  destruct (Ascii.eqb c "-"%char); simpl; [done|]. intros H. by rewrite IH.
Qed.

Lemma untilDash_fst_dashFree s : dashFree (fst (untilDash s)) = true.
Proof.
  induction s as [|c s IH]; simpl; [done|].
  destruct (Ascii.eqb c "-"%char) eqn:E; simpl; [done|].
  destruct (untilDash s) as [a b]. simpl in *. by rewrite E, IH.
Qed.

(** [X14] A connection string ["<id>-<terminal>"] is split back into the id
    and the terminal when neither contains a dash, whatever follows a second
    dash; a string without a dash is an id without a terminal.  In every
    case the id that comes out has no dash. *)
Theorem splitConnection_round_trip (id terminal rest : string) :
  dashFree id = true -> dashFree terminal = true ->
  splitConnection (id ++ "-" ++ terminal) = (id, Some terminal)
  /\ splitConnection (id ++ "-" ++ terminal ++ "-" ++ rest) = (id, Some terminal)
  /\ splitConnection id = (id, None)
  /\ (forall connection, dashFree (fst (splitConnection connection)) = true).
Proof.
  intros Hid Hterminal. unfold splitConnection. repeat split.
  - change (id ++ "-" ++ terminal)%string with (id ++ String "-"%char terminal)%string.
    by rewrite (untilDash_app _ _ Hid), (untilDash_dashFree _ Hterminal).
  - change (id ++ "-" ++ terminal ++ "-" ++ rest)%string
      with (id ++ String "-"%char (terminal ++ String "-"%char rest))%string.
    by rewrite (untilDash_app _ _ Hid), (untilDash_app _ _ Hterminal).
  - by rewrite (untilDash_dashFree _ Hid).
  - intros connection. pose proof (untilDash_fst_dashFree connection) as H.
    by destruct (untilDash connection).
Qed.

Lemma splitConnection_round_trip_witness :
  dashFree "R1" = true /\ dashFree "2" = true
  /\ splitConnection "R1-2" = ("R1"%string, Some "2"%string)
  /\ splitConnection "component-17-ab" = ("component"%string, Some "17"%string).
Proof.
  split; [reflexivity|]. split; [reflexivity|].
  split.
  - exact (proj1 (splitConnection_round_trip "R1" "2" "" eq_refl eq_refl)).
  - reflexivity.
Defined.

Lemma lookupById_Some components key c :
  lookupById components key = Some c -> c ∈ components /\ Component.id c = key.
Proof.
  induction components as [|c0 cs IH]; simpl; [done|].
  destruct (lookupById cs key) as [c'|].
  - intros [= <-]. destruct (IH eq_refl). split; [by right|done].
  - destruct (String.eqb (Component.id c0) key) eqn:E; [|done].
    intros [= <-]. apply String.eqb_eq in E. split; [by left|done].
Qed.

(** [X15] [findConnectedComponents] returns components of the circuit
    only, each under the terminal of a connection of the wire that names it,
    and never the component it is told to leave out. *)
Theorem findConnectedComponents_excludes (components : list Component.t)
    (wire : option Wire.t) (excludeComponentId : string) :
  Forall (fun found =>
            fst found ∈ components
            /\ Component.id (fst found) <> excludeComponentId
            /\ exists w connections connection,
                 wire = Some w /\ Wire.connections w = Some connections
                 /\ connection ∈ connections
                 /\ splitConnection connection = (Component.id (fst found), snd found))
         (findConnectedComponents components wire excludeComponentId).
Proof.
  unfold findConnectedComponents. destruct wire as [w|]; [|constructor].
  destruct (Wire.connections w) as [connections|] eqn:Hw; [|constructor].
  apply Forall_forall. intros [c terminal] Hin.
  apply list_elem_of_In, in_flat_map in Hin as (connection & Hconn & Hin).
  destruct (splitConnection connection) as [componentId t] eqn:Hsplit.
  destruct (String.eqb componentId excludeComponentId) eqn:E; [done|].
  destruct (lookupById components componentId) as [c'|] eqn:Hc; [|done].
  destruct Hin as [[= -> ->]|[]].
  apply lookupById_Some in Hc as [Hc <-]. apply String.eqb_neq in E.
  simpl. repeat split; [done..|].
  exists w, connections, connection.
  repeat split; [done|by apply list_elem_of_In|done].
Qed.

(** ** What the corrector leaves alone *)

Lemma foldThrow_preserves {A S} (P : S -> Prop) (Q : A -> Prop)
    (f : S -> A -> Completion S) :
  (forall s x, Q x -> P s -> P (stateOf (f s x))) ->
  forall l s, Forall Q l -> P s -> P (stateOf (foldThrow f l s)).
Proof.
  intros Hf. induction l as [|x l IH]; intros s Hl Hs; simpl; [done|].
  apply Forall_cons in Hl as [Hx Hl]. specialize (Hf s x Hx Hs).
  destruct (f s x) as [s'|e s']; simpl in *; [|done]. by apply IH.
Qed.

Lemma nodeOfWire_components cs wire node :
  nodeOfWire cs wire = Some node ->
  Forall (fun connection => isComponent connection = true) (Node.connections node).
Proof.
  unfold nodeOfWire. destruct (Wire.connections wire) as [[|c0 connections]|]; [done| |done].
  destruct (_ <? _)%nat; [|done]. intros [= <-]. cbn [Node.connections].
  apply Forall_forall. intros e He. apply list_elem_of_In in He.
  match type of He with In _ (_ ++ flat_map ?f _) =>
    change (In e (flat_map f (c0 :: connections))) in He end.
  apply in_flat_map in He as (connection & _ & He).
  destruct (splitConnection connection) as [componentId terminal].
  destruct (componentAt cs componentId); [|done].
  by destruct He as [<-|[]].
Qed.

Lemma findCurrentNodes_components cs ws :
  Forall (fun node =>
            Forall (fun connection => isComponent connection = true)
                   (Node.connections node))
         (findCurrentNodes cs ws).
Proof.
  unfold findCurrentNodes. apply Forall_forall. intros node Hnode.
  apply list_elem_of_omap in Hnode as (wire & _ & Hnode).
  by eapply nodeOfWire_components.
Qed.

Lemma adjustCurrent_wires corr s e :
  isComponent e = true -> snd (stateOf (adjustCurrent corr s e)) = snd s.
Proof.
  intros He. unfold adjustCurrent. destruct s as [cs ws]. rewrite He.
  destruct (indexById cs (LoopElement.id e)) as [i|]; [|done].
  destruct (cs !! i) as [c|]; [|done].
  destruct (Component.isType "current-source" c); [done|].
  by destruct (Component.values c).
Qed.

Lemma correctNode_wires s node :
  Forall (fun connection => isComponent connection = true) (Node.connections node) ->
  snd (stateOf (correctNode s node)) = snd s.
Proof.
  intros Hnode. unfold correctNode. destruct (_ <? _)%float; [|done].
  apply (foldThrow_preserves (fun s' => snd s' = snd s)
           (fun connection => isComponent connection = true)); [|done..].
  intros s' x Hx Hs'. by rewrite adjustCurrent_wires.
Qed.

(** [X16] The corrector never writes a wire: the nodes it balances hold
    components only, so that whether it completes or throws, and whatever
    the scope holds as [getComponentConnections], the wires come out as they
    went in. *)
Theorem applyConservationLaws_keeps_wires
    (getComponentConnections : option (Component.t -> list Wire.t -> list Connection.t))
    (components : list Component.t) (wires : list Wire.t) :
  snd (stateOf (applyConservationLaws getComponentConnections components wires))
  = wires.
Proof.
  unfold applyConservationLaws.
  destruct (findVoltageLoops getComponentConnections components wires) as [e|loops];
    [done|].
  destruct (foldThrow correctLoop loops components) as [cs'|e cs']; [|done].
  apply (foldThrow_preserves (fun s' => snd s' = wires)
           (fun node => Forall (fun connection => isComponent connection = true)
                               (Node.connections node))); [| |done].
  - intros s node Hnode Hs. by rewrite correctNode_wires.
  - apply findCurrentNodes_components.
Qed.

Lemma spares_insert j c before after i ci v :
  Component.isType "current-source" c = true ->
  sparesCurrentSource j c before after ->
  after !! i = Some ci -> Component.isType "current-source" ci = false ->
  sparesCurrentSource j c before (<[i := Component.set_values v ci]> after).
Proof.
  intros Hc [Hj Hmap] Hi Hci. split.
  - rewrite list_lookup_insert_ne; [done|]. intros ->. congruence.
  - rewrite <- Hmap. change (map withoutValues ?l) with (withoutValues <$> l).
    rewrite list_fmap_insert. apply list_insert_id.
    rewrite list_lookup_fmap, Hi. by destruct ci.
Qed.

Lemma adjustVoltage_spares j c before corr cs e :
  Component.isType "current-source" c = true ->
  sparesCurrentSource j c before cs ->
  sparesCurrentSource j c before (stateOf (adjustVoltage corr cs e)).
Proof.
  intros Hc Hs. unfold adjustVoltage. destruct (isComponent e); [|done].
  destruct (indexById cs (LoopElement.id e)) as [i|]; [|done].
  destruct (cs !! i) as [ci|] eqn:Hi; [|done].
  destruct (Component.isSource ci) eqn:Hci; [done|].
  destruct (Component.values ci) as [v|]; [|done]. simpl.
  apply spares_insert; [done..|].
  unfold Component.isSource in Hci. by apply orb_false_iff in Hci as [_ ?].
Qed.

Lemma adjustCurrent_spares j c before corr s e :
  Component.isType "current-source" c = true ->
  sparesCurrentSource j c before (fst s) ->
  sparesCurrentSource j c before (fst (stateOf (adjustCurrent corr s e))).
Proof.
  intros Hc Hs. unfold adjustCurrent. destruct s as [cs ws]. simpl in Hs.
  destruct (isComponent e).
  - destruct (indexById cs (LoopElement.id e)) as [i|]; [|done].
    destruct (cs !! i) as [ci|] eqn:Hi; [|done].
    destruct (Component.isType "current-source" ci) eqn:Hci; [done|].
    destruct (Component.values ci) as [v|]; [|done]. simpl.
    by apply spares_insert.
  - destruct (isWire e); [|done].
    destruct (wireIndexById ws (LoopElement.id e)) as [i|]; [|done].
    by destruct (ws !! i).
Qed.

(** [X17] The corrector leaves a current source exactly as it is, values
    included, and of every other component it writes the values only:
    whether it completes or throws, and whatever the scope holds as
    [getComponentConnections]. *)
Theorem applyConservationLaws_spares_current_sources
    (getComponentConnections : option (Component.t -> list Wire.t -> list Connection.t))
    (components : list Component.t) (wires : list Wire.t) (j : nat)
    (c : Component.t) :
  components !! j = Some c ->
  Component.isType "current-source" c = true ->
  sparesCurrentSource j c components
    (fst (stateOf (applyConservationLaws getComponentConnections components wires))).
Proof.
  intros Hj Hc. unfold applyConservationLaws.
  assert (sparesCurrentSource j c components components) as H0 by done.
  destruct (findVoltageLoops getComponentConnections components wires) as [e|loops];
    [done|].
  pose proof (foldThrow_preserves (sparesCurrentSource j c components)
                (fun _ => True) correctLoop) as Hkvl.
  specialize (Hkvl ltac:(intros s loop _ Hs; unfold correctLoop;
                         destruct (_ <? _)%float; [|done];
                         apply (foldThrow_preserves _ (fun _ => True));
                         [intros; by apply adjustVoltage_spares
                         |by apply Forall_true|done])
                   loops components ltac:(by apply Forall_true) H0).
  destruct (foldThrow correctLoop loops components) as [cs'|e cs']; [|done].
  simpl in Hkvl.
  apply (foldThrow_preserves (fun s => sparesCurrentSource j c components (fst s))
           (fun _ => True)); [|by apply Forall_true|done].
  intros s node _ Hs. unfold correctNode. destruct (_ <? _)%float; [|done].
  apply (foldThrow_preserves (fun s => sparesCurrentSource j c components (fst s))
           (fun _ => True)); [|by apply Forall_true|done].
  intros; by apply adjustCurrent_spares.
Qed.

Lemma applyConservationLaws_spares_current_sources_witness :
  sourceRing !! 0 = Some (exampleComponent "A" "current-source" (Some (Values.mk 3 1 3)))
  /\ Component.isType "current-source"
       (exampleComponent "A" "current-source" (Some (Values.mk 3 1 3))) = true
  /\ sparesCurrentSource 0
       (exampleComponent "A" "current-source" (Some (Values.mk 3 1 3))) sourceRing
       (fst (stateOf (applyConservationLaws (Some exampleConnections)
                        sourceRing ringWires)))
  /\ findCurrentNodes sourceRing ringWires
     = [Node.mk "node-W1" [LoopElement.mk "component" "A" (-1);
                           LoopElement.mk "component" "B" 1];
        Node.mk "node-W2" [LoopElement.mk "component" "B" (-1);
                           LoopElement.mk "component" "A" 1]]
  /\ map (fun c => Values.current <$> Component.values c)
         (fst (stateOf (applyConservationLaws (Some exampleConnections)
                          sourceRing ringWires)))
     = [Some 1%float; Some 0.75%float].
Proof.
  split; [reflexivity|]. split; [reflexivity|].
  split; [|split; vm_compute; reflexivity].
  exact (applyConservationLaws_spares_current_sources (Some exampleConnections)
           sourceRing ringWires 0 _ eq_refl eq_refl).
Defined.

(** ** The loop of [updateSimulationSpeed] *)

(** [X18] A change of speed on a running simulation replaces the loop:
    the timer that was running is cancelled, so that its firings do nothing
    any more, and the timer that replaces it advances the simulated time by
    [0.01 * speed] at each firing in transient mode. *)
Theorem updateSimulationSpeed_replaces_the_loop (M : MathLib) (speed : float)
    (w : World.t) (h : nat) :
  (speed <=? 0)%float = false ->
  State.running (World.state w) = true ->
  World.simulationInterval w = Declared (Some h) ->
  h <> World.nextTimer w ->
  exists w',
    updateSimulationSpeed speed w = Normal w'
    /\ State.speed (World.state w') = speed
    /\ World.simulationInterval w' = Declared (Some (World.nextTimer w))
    /\ tick M h w' = w'
    /\ (analysisOf (State.type (World.state w)) = Transient ->
        State.time (World.state (tick M (World.nextTimer w) w'))
        = (State.time (World.state w) + 0.01 * speed)%float).
Proof.
  intros Hspeed Hrun Hint Hh. unfold updateSimulationSpeed.
  rewrite Hspeed. simpl. rewrite Hrun, Hint. eexists. split; [reflexivity|].
  split; [reflexivity|]. split; [reflexivity|]. split.
  - unfold tick. simpl. rewrite lookup_insert_ne by done.
    by rewrite lookup_delete_eq.
  - intros Hty. unfold tick. simpl. rewrite lookup_insert_eq.
    rewrite speedLoopStep_time_transient; [done..|]. exact Hty.
Qed.

Lemma updateSimulationSpeed_replaces_the_loop_witness :
  (4 <=? 0)%float = false
  /\ State.running (World.state transientWorld) = true
  /\ World.simulationInterval transientWorld = Declared (Some 1)
  /\ 1 <> World.nextTimer transientWorld
  /\ exists w',
       updateSimulationSpeed 4 transientWorld = Normal w'
       /\ State.time (World.state (tick exampleMath 2 w')) = 0.04%float.
Proof.
  assert (1 <> World.nextTimer transientWorld) as Hne by (intros E; discriminate E).
  split; [reflexivity|]. split; [reflexivity|]. split; [reflexivity|].
  split; [exact Hne|].
  destruct (updateSimulationSpeed_replaces_the_loop exampleMath 4 transientWorld 1
              eq_refl eq_refl eq_refl Hne) as (w' & Hw' & _ & _ & _ & Htime).
  exists w'. split; [exact Hw'|]. exact (Htime eq_refl).
Defined.

(** ** A DC circuit that cannot be analysed *)










(** ** DC analysis settles *)

(** A loop whose body makes [g x] of every element [x], on every array that
    keeps the invariant [P]: it maps [g] over the array. *)
Lemma forEachFrom_pointwise {A} (P : list A -> Prop)
    (body : list A -> A -> Completion A) (g : A -> A) :
  (forall l i x, P l -> l !! i = Some x ->
     body l x = Normal (g x) /\ P (<[i := g x]> l)) ->
  forall n i l, P l ->
  exists l', forEachFrom body n i l = Normal l' /\ P l'
    /\ forall j, l' !! j = if bool_decide (i <= j < i + n) then g <$> l !! j else l !! j.
Proof.
  intros Hbody. induction n as [|n IH]; intros i l Hl; simpl.
  - exists l. split; [done|]. split; [done|]. intros j.
    case_bool_decide; [lia|done].
  - destruct (l !! i) as [x|] eqn:Hx.
    + destruct (Hbody l i x Hl Hx) as [-> Hl'].
      destruct (IH (S i) _ Hl') as (l' & -> & HP & Hlook).
      exists l'. split; [done|]. split; [done|]. intros j. rewrite Hlook.
      destruct (decide (j = i)) as [->|Hne].
      * rewrite bool_decide_eq_false_2 by lia. rewrite bool_decide_eq_true_2 by lia.
        rewrite Hx. simpl. apply list_lookup_insert_eq. by eapply lookup_lt_Some.
      * rewrite list_lookup_insert_ne by done.
        repeat case_bool_decide; try done; lia.
    + exists l. split; [done|]. split; [done|]. intros j.
      case_bool_decide; [|done].
      apply lookup_ge_None in Hx. rewrite (proj2 (lookup_ge_None l j)) by lia. done.
Qed.

Lemma forEach_pointwise {A} (P : list A -> Prop)
    (body : list A -> A -> Completion A) (g : A -> A) l :
  (forall l i x, P l -> l !! i = Some x ->
     body l x = Normal (g x) /\ P (<[i := g x]> l)) ->
  P l -> forEach body l = Normal (map g l) /\ P (map g l).
Proof.
  intros Hbody Hl.
  destruct (forEachFrom_pointwise P body g Hbody (length l) 0 l Hl)
    as (l' & Hrun & HP & Hlook).
  assert (l' = map g l) as <-; [|done].
  apply list_eq. intros j. rewrite Hlook.
  change (map g l) with (g <$> l). rewrite list_lookup_fmap.
  case_bool_decide; [done|].
  rewrite (proj2 (lookup_ge_None l j)) by lia. done.
Qed.

(** Like [forEach_Normal_inv], with what the store looked like. *)
Lemma forEachFrom_Normal_inv_view {A B} (f : A -> B)
    (body : list A -> A -> Completion A) :
  (forall l x, f (stateOf (body l x)) = f x) ->
  forall n i l l', forEachFrom body n i l = Normal l' ->
  forall j x, l !! j = Some x -> i <= j -> j < i + n ->
  exists store x', map f store = map f l /\ body store x = Normal x' /\ l' !! j = Some x'.
Proof.
  intros Hf. induction n as [|n IH]; intros i l l' Hrun j x Hx Hij Hjn; [lia|].
  simpl in Hrun.
  destruct (l !! i) as [xi|] eqn:Hxi.
  2:{ apply lookup_ge_None in Hxi. apply lookup_lt_Some in Hx. lia. }
  destruct (body l xi) as [xi'|e xi'] eqn:Hb; [|discriminate].
  destruct (decide (j = i)) as [->|Hne].
  - assert (x = xi) as -> by congruence.
    exists l, xi'. split; [done|]. split; [done|].
    pose proof (forEachFrom_lookup_lt body n (S i) (<[i:=xi']> l) i) as Hlt.
    rewrite Hrun in Hlt. simpl in Hlt. rewrite Hlt by lia.
    apply list_lookup_insert_eq. by eapply lookup_lt_Some.
  - destruct (IH (S i) (<[i:=xi']> l) l' Hrun j x) as (store & x' & Hst & Hbx & Hl');
      [by rewrite list_lookup_insert_ne|lia..|].
    exists store, x'. split; [|done]. rewrite Hst.
    change (map f ?l) with (f <$> l). rewrite list_fmap_insert.
    apply list_insert_id. rewrite list_lookup_fmap, Hxi. simpl.
    specialize (Hf l xi). rewrite Hb in Hf. simpl in Hf. by rewrite Hf.
Qed.

Section DCSettles.

Lemma dcInputs_kind l l' :
  map dcInputs l = map dcInputs l' -> map dcKind l = map dcKind l'.
Proof.
  revert l'. induction l as [|c l IH]; intros [|c' l'] H; try discriminate; [done|].
  injection H as Hty Hpr _ Hl. simpl. unfold dcKind at 1 3. by rewrite Hty, Hpr, (IH l').
Qed.

Lemma scanLast_ext ty get d l l' :
  map dcKind l = map dcKind l' ->
  scanLast ty (propertyOf get) d l = scanLast ty (propertyOf get) d l'.
Proof.
  unfold scanLast. generalize (Some d) as acc. revert l'.
  induction l as [|c l IH]; intros [|c' l'] acc H; try discriminate; [done|].
  injection H as Hty Hpr Hl. simpl. rewrite (IH l' _ Hl).
  unfold Component.isType, propertyOf. by rewrite Hty, Hpr.
Qed.

Lemma scanCircuitCurrent_ext l l' :
  map dcInputs l = map dcInputs l' -> scanCircuitCurrent l = scanCircuitCurrent l'.
Proof.
  unfold scanCircuitCurrent. generalize (Some 0.1%float) as acc. revert l'.
  induction l as [|c l IH]; intros [|c' l'] acc H; try discriminate; [done|].
  injection H as Hty Hpr Hv Hl. simpl. rewrite (IH l' _ Hl).
  unfold Component.isType in *. rewrite Hty in *.
  destruct acc; [|done]. destruct (String.eqb (Component.type c') "resistor"); [|done].
  by rewrite Hv.
Qed.

Lemma dcComponent_ext l l' c :
  map dcInputs l = map dcInputs l' -> dcComponent l c = dcComponent l' c.
Proof.
  intros H. unfold dcComponent.
  rewrite (scanCircuitCurrent_ext _ _ H).
  by rewrite !(scanLast_ext _ _ _ _ _ (dcInputs_kind _ _ H)).
Qed.

Lemma dcComponent_kind l c : dcKind (stateOf (dcComponent l c)) = dcKind c.
Proof.
  unfold dcComponent.
  repeat match goal with
         | |- context [if ?b then _ else _] => destruct b
         | |- context [match ?x with _ => _ end] => destruct x
         end; reflexivity.
Qed.

(** A second call with the same circuit finds nothing to change. *)
Lemma dcComponent_idem l c c' :
  dcComponent l c = Normal c' -> dcComponent l c' = Normal c'.
Proof.
  intros Hrun.
  assert (dcKind c' = dcKind c) as Hkind.
  { change c' with (stateOf (Normal c')). rewrite <- Hrun. apply dcComponent_kind. }
  injection Hkind as Hty Hpr.
  revert Hrun. unfold dcComponent, Component.isType, propertyOf. rewrite Hty, Hpr.
  destruct (String.eqb (Component.type c) "voltage-source").
  { destruct (Component.values c) as [v|]; [|done].
    destruct (match Component.properties c with
              | Some p => Properties.voltage p | None => None end)
      as [volts|] eqn:E; [|done].
    destruct (scanLast _ _ _ l) as [r|] eqn:Es; [|done].
    by intros [= <-]. }
  destruct (String.eqb (Component.type c) "resistor").
  { destruct (scanLast _ _ _ l) as [sv|] eqn:Es; [|done].
    destruct (match Component.properties c with
              | Some p => Properties.resistance p | None => None end)
      as [r|] eqn:E; [|done].
    destruct (Component.values c) as [v|]; [|done].
    by intros [= <-]. }
  destruct (String.eqb (Component.type c) "capacitor").
  { destruct (Component.values c) as [v|]; [|done]. by intros [= <-]. }
  destruct (String.eqb (Component.type c) "inductor").
  { destruct (Component.values c) as [v|]; [|done].
    destruct (scanCircuitCurrent l) as [i|] eqn:Es; [|done].
    by intros [= <-]. }
  destruct (Component.values c) as [v|]; [|done]. by intros [= <-].
Qed.

(** What a call has made of a resistor, a call on any circuit with the same
    types and properties leaves as it is. *)
Lemma dcComponent_resistor_settled store store' c c' :
  Component.isType "resistor" c = true ->
  dcComponent store c = Normal c' ->
  map dcKind store' = map dcKind store ->
  dcComponent store' c' = Normal c'.
Proof.
  intros Hr Hrun Hk. apply (dcComponent_idem store' c).
  rewrite <- Hrun. unfold dcComponent.
  destruct (Component.isType "voltage-source" c) eqn:Hv.
  { unfold Component.isType in *. apply String.eqb_eq in Hr, Hv. congruence. }
  rewrite Hr. by rewrite (scanLast_ext "voltage-source" Properties.voltage 5 _ _ Hk).
Qed.

End DCSettles.

Lemma dc_components_settle cs :
  Forall dcReady cs ->
  exists cs1 cs2,
    forEach dcComponent cs = Normal cs1
    /\ forEach dcComponent cs1 = Normal cs2
    /\ forEach dcComponent cs2 = Normal cs2
    /\ Forall dcReady cs1 /\ Forall dcReady cs2.
Proof.
  intros Hready.
  destruct (forEach_completes dcReady dcComponent cs) as (cs1 & Hrun1 & Hready1);
    [intros l x Hl Hx; by apply dcComponent_completes|done|].
  pose proof (forEach_length dcComponent cs) as Hlen. rewrite Hrun1 in Hlen. simpl in Hlen.
  set (g := fun x => stateOf (dcComponent cs1 x)).
  assert (forall c, dcReady c -> dcComponent cs1 c = Normal (g c) /\ dcReady (g c)) as Hg.
  { intros c Hc. destruct (dcComponent_completes cs1 c Hready1 Hc) as (c' & Hc' & Hr').
    unfold g. by rewrite Hc'. }
  assert (forall c, dcReady c -> g (g c) = g c) as Hgg.
  { intros c Hc. destruct (Hg c Hc) as [Hrun _].
    unfold g at 1. by rewrite (dcComponent_idem _ _ _ Hrun). }
  assert (forall c, c ∈ cs1 -> Component.isType "resistor" c = true -> g c = c) as Hsettled.
  { intros c Hin Hres. apply list_elem_of_lookup_1 in Hin as [j Hj].
    destruct (lookup_lt_is_Some_2 cs j) as [x Hx].
    { rewrite <- Hlen. by eapply lookup_lt_Some. }
    destruct (forEachFrom_Normal_inv_view dcKind dcComponent dcComponent_kind
                (length cs) 0 cs cs1 Hrun1 j x Hx) as (store & x' & Hst & Hbody & Hx');
      [lia|by eapply lookup_lt_Some|].
    assert (x' = c) as -> by congruence.
    assert (dcKind c = dcKind x) as Hk.
    { change c with (stateOf (Normal c)). rewrite <- Hbody. apply dcComponent_kind. }
    assert (Component.isType "resistor" x = true) as Hresx.
    { unfold Component.isType in *. injection Hk as <- _. done. }
    assert (map dcKind cs1 = map dcKind store) as Hk1.
    { rewrite Hst. change cs1 with (stateOf (Normal cs1)). rewrite <- Hrun1.
      apply forEach_map. apply dcComponent_kind. }
    unfold g. by rewrite (dcComponent_resistor_settled store cs1 x c Hresx Hbody Hk1). }
  assert (forall c, c ∈ cs1 -> dcInputs (g c) = dcInputs c) as Hinputs.
  { intros c Hin. pose proof (dcComponent_kind cs1 c) as Hk. fold (g c) in Hk.
    injection Hk as Hty Hpr. unfold dcInputs, Component.isType. rewrite Hty, Hpr.
    destruct (String.eqb (Component.type c) "resistor") eqn:E; [|done].
    by rewrite (Hsettled c Hin E). }
  set (P := fun l : list Component.t => Forall2 (fun x c => x = c \/ x = g c) l cs1).
  assert (forall l, P l -> map dcInputs l = map dcInputs cs1) as HPinputs.
  { assert (forall l cs', Forall2 (fun x c => x = c \/ x = g c) l cs' ->
              (forall c, c ∈ cs' -> dcInputs (g c) = dcInputs c) ->
              map dcInputs l = map dcInputs cs') as Hgen.
    { intros l cs' Hl. induction Hl as [|x c l' cs'' Hx Hl IH]; intros Hin'; [done|].
      simpl. f_equal.
      - destruct Hx as [-> | ->]; [done|]. apply Hin'. by left.
      - apply IH. intros c' Hc'. apply Hin'. by right. }
    intros l Hl. by apply Hgen. }
  assert (forall l i x, P l -> l !! i = Some x ->
            dcComponent l x = Normal (g x) /\ P (<[i := g x]> l)) as Hbody.
  { intros l i x Hl Hx. rewrite (dcComponent_ext l cs1 x (HPinputs l Hl)).
    destruct (Forall2_lookup_l _ _ _ _ _ Hl Hx) as (c & Hc & Hxc).
    assert (dcReady c) as Hrc by (eapply Forall_lookup_1; eauto).
    assert (dcComponent cs1 x = Normal (g x) /\ g x = g c) as [Hrun Hgx].
    { destruct Hxc as [-> | ->].
      - split; [by apply Hg|done].
      - destruct (Hg c Hrc) as [Hrun _]. rewrite (Hgg c Hrc).
        split; [by apply (dcComponent_idem cs1 c)|done]. }
    split; [done|]. unfold P. rewrite <- (list_insert_id cs1 i c Hc).
    apply Forall2_insert; [done|]. right. done. }
  assert (P cs1) as HP1.
  { unfold P. apply Forall2_same_length_lookup. split; [done|].
    intros i x y Hx Hy. left. congruence. }
  destruct (forEach_pointwise P dcComponent g cs1 Hbody HP1) as [Hrun2 HP2].
  destruct (forEach_pointwise P dcComponent g (map g cs1) Hbody HP2) as [Hrun3 _].
  assert (map g (map g cs1) = map g cs1) as Hfix.
  { rewrite map_map. apply map_ext_in. intros c Hin. apply Hgg.
    eapply Forall_forall; [exact Hready1|]. by apply list_elem_of_In. }
  rewrite Hfix in Hrun3.
  exists cs1, (map g cs1). repeat split; try done.
  apply Forall_forall. intros c' Hin. apply list_elem_of_In, in_map_iff in Hin as (c & <- & Hin).
  apply Hg. eapply Forall_forall; [exact Hready1|]. by apply list_elem_of_In.
Qed.

Lemma dcWire_idem cs wire wire' :
  dcWire cs wire = Normal wire' -> dcWire cs wire' = Normal wire'.
Proof.
  intros Hrun.
  assert (Wire.source wire' = Wire.source wire /\ Wire.target wire' = Wire.target wire)
    as [Hs Ht].
  { revert Hrun. unfold dcWire.
    repeat match goal with
           | |- context [match ?x with _ => _ end] => destruct x
           end; intros [= <-]; done. }
  revert Hrun. unfold dcWire. rewrite Hs, Ht.
  destruct (lookupOpt cs (Wire.source wire)) as [sc|];
    destruct (lookupOpt cs (Wire.target wire)) as [tc|];
    repeat match goal with
           | |- context [match Component.values ?c with _ => _ end] =>
               destruct (Component.values c)
           | |- context [if JS.truthy ?x then _ else _] => destruct (JS.truthy x)
           end;
    intros [= <-]; done.
Qed.

Lemma dc_wires_pass cs ws :
  Forall dcReady cs ->
  forEach (fun _ wire => dcWire cs wire) ws
  = Normal (map (fun wire => stateOf (dcWire cs wire)) ws).
Proof.
  intros Hready.
  apply (forEach_pointwise (fun _ => True) (fun _ wire => dcWire cs wire)
           (fun wire => stateOf (dcWire cs wire))); [|done].
  intros l i x _ _. split; [|done].
  by destruct (dcWire_completes cs x Hready) as [w' ->].
Qed.

(** [X20] DC analysis settles at its second pass: on a circuit that is
    ready for it every pass completes, and a third pass, or any later one,
    changes nothing of what the second has left, in the components or in the
    wires.  (An inductor reads the current of the resistors as it finds
    them, which the first pass may not have computed yet.) *)
Theorem dc_analysis_settles (components : list Component.t) (wires : list Wire.t) :
  Forall dcReady components ->
  exists first second,
    performDCAnalysis components wires = Normal first
    /\ performDCAnalysis (fst first) (snd first) = Normal second
    /\ performDCAnalysis (fst second) (snd second) = Normal second.
Proof.
  intros Hready.
  destruct (dc_components_settle components Hready)
    as (cs1 & cs2 & Hrun1 & Hrun2 & Hrun3 & Hready1 & Hready2).
  unfold performDCAnalysis. rewrite Hrun1, (dc_wires_pass cs1 wires Hready1).
  eexists. eexists. split; [reflexivity|]. simpl.
  rewrite Hrun2, (dc_wires_pass cs2 _ Hready2). split; [reflexivity|]. simpl.
  rewrite Hrun3, (dc_wires_pass cs2 _ Hready2). do 2 f_equal.
  rewrite map_map. apply map_ext. intros wire.
  destruct (dcWire_completes cs2 wire Hready2) as [w' Hw'].
  rewrite Hw'. simpl. by rewrite (dcWire_idem _ _ _ Hw').
Qed.

Lemma dc_analysis_settles_witness :
  Forall dcReady settlingCircuit
  /\ exists first second,
       performDCAnalysis settlingCircuit [] = Normal first
       /\ performDCAnalysis (fst first) (snd first) = Normal second
       /\ performDCAnalysis (fst second) (snd second) = Normal second
       /\ (Component.values <$> fst first !! 0) = Some (Some (Values.mk 0 0.1 0))
       /\ (Component.values <$> fst second !! 0) = Some (Some (Values.mk 0 0.05 0)).
Proof.
  assert (Forall dcReady settlingCircuit) as H.
  { repeat apply Forall_cons_2; [..|apply Forall_nil_2];
      (split; [by eexists|split; intros E; try discriminate E; by eexists]). }
  split; [exact H|].
  destruct (dc_analysis_settles settlingCircuit [] H) as (first & second & H1 & H2 & H3).
  exists first, second. split; [exact H1|]. split; [exact H2|]. split; [exact H3|].
  assert (Normal first = performDCAnalysis settlingCircuit []) as E1 by (symmetry; exact H1).
  vm_compute in E1. injection E1 as ->.
  assert (Normal second = performDCAnalysis
                            (fst (stateOf (performDCAnalysis settlingCircuit [])))
                            (snd (stateOf (performDCAnalysis settlingCircuit []))))
    as E2 by (symmetry; exact H2).
  vm_compute in E2. injection E2 as ->.
  split; reflexivity.
Defined.

(** ** Rounding never makes a NaN *)

Lemma shr_1_nonneg mrs : (0 <= shr_m mrs -> 0 <= shr_m (shr_1 mrs))%Z.
Proof. destruct mrs as [[|[p|p|]|p] r s]; simpl; lia. Qed.

Lemma iter_pos_shr_1_nonneg p : forall mrs,
  (0 <= shr_m mrs -> 0 <= shr_m (SpecFloat.iter_pos shr_1 p mrs))%Z.
Proof.
  induction p as [p IH|p IH|]; intros mrs H; simpl.
  - apply IH, IH. by apply shr_1_nonneg.
  - by apply IH, IH.
  - by apply shr_1_nonneg.
Qed.

Lemma shr_fexp_nonneg m e l :
  (0 <= m -> 0 <= shr_m (fst (shr_fexp prec emax m e l)))%Z.
Proof.
  intros Hm. unfold shr_fexp, shr.
  assert (0 <= shr_m (shr_record_of_loc m l))%Z as H0 by (by destruct l as [|[]]).
  destruct (_ - e)%Z; simpl; [done| |done]. by apply iter_pos_shr_1_nonneg.
Qed.

Lemma binary_round_aux_not_nan sx mx ex lx :
  (0 <= mx)%Z -> binary_round_aux prec emax sx mx ex lx <> S754_nan.
Proof.
  intros Hm. unfold binary_round_aux.
  pose proof (shr_fexp_nonneg mx ex lx Hm) as H1.
  destruct (shr_fexp prec emax mx ex lx) as [mrs' e']. simpl in H1.
  assert (0 <= round_nearest_even (shr_m mrs') (loc_of_shr_record mrs'))%Z as H2.
  { unfold round_nearest_even. destruct (loc_of_shr_record mrs') as [|[]]; try lia.
    destruct (Z.even (shr_m mrs')); lia. }
  pose proof (shr_fexp_nonneg _ e' loc_Exact H2) as H3.
  destruct (shr_fexp prec emax _ e' loc_Exact) as [mrs'' e'']. simpl in H3.
  destruct (shr_m mrs'') as [|m|m]; [done| |lia].
  by destruct (_ <=? _)%Z.
Qed.

Lemma SFdiv_not_nan sx mx ex y :
  y <> S754_nan -> SFdiv prec emax (S754_finite sx mx ex) y <> S754_nan.
Proof.
  intros Hy. destruct y as [sy|sy| |sy my ey]; simpl; try done.
  unfold SFdiv_core_binary.
  match goal with |- context [Z.div_eucl ?a ?b] =>
    pose proof (Z.div_pos a b) as Hq; unfold Z.div in Hq;
    assert (0 <= a)%Z as Ha; [|destruct (Z.div_eucl a b) as [q r]]
  end.
  { match goal with |- context [match ?s with Z0 => _ | Zpos _ => _ | Zneg _ => _ end] =>
      destruct s eqn:Es end; try lia.
    apply Z.shiftl_nonneg. lia. }
  apply binary_round_aux_not_nan. apply Hq; [done|lia].
Qed.

Lemma finite_nonzero_Prim2SF a :
  is_finite a = true -> is_zero a = false ->
  exists s m e, Prim2SF a = S754_finite s m e.
Proof.
  unfold is_finite, is_zero, is_nan, is_infinity.
  rewrite !FloatAxioms.eqb_spec, abs_spec.
  change (Prim2SF PrimFloat.zero) with (S754_zero false).
  change (Prim2SF infinity) with (S754_infinity false).
  destruct (Prim2SF a) as [s|s| |s m e]; simpl.
  - by destruct s.
  - by destruct s.
  - done.
  - by eauto.
Qed.

Lemma not_nan_SFeqb x : x <> S754_nan -> SFeqb x x = true.
Proof.
  intros Hx. unfold SFeqb. destruct x as [s|s| |s m e]; simpl; try done.
  - by destruct s.
  - destruct s; rewrite Z.compare_refl, Pos.compare_cont_refl; done.
Qed.

(** A finite number that is not zero, divided by a number, is a number. *)
Lemma div_not_nan a b :
  is_finite a = true -> is_zero a = false -> is_nan b = false ->
  is_nan (a / b) = false.
Proof.
  intros Hfin Hz Hb. apply is_nan_Prim2SF in Hb.
  destruct (finite_nonzero_Prim2SF a Hfin Hz) as (s & m & e & Ha).
  unfold is_nan. rewrite FloatAxioms.eqb_spec, div_spec, Ha.
  rewrite not_nan_SFeqb; [done|]. by apply SFdiv_not_nan.
Qed.

(** ** The period of the loop *)

Lemma truthy_not_nan x : JS.truthy x = true -> is_nan x = false.
Proof.
  unfold JS.truthy. intros H. apply negb_true_iff, orb_false_iff in H as [_ H]. done.
Qed.

Lemma Math_max_10 x : is_nan x = false -> (10 <=? JS.Math_max 10 x)%float = true.
Proof.
  intros Hx. unfold JS.Math_max. change (is_nan 10) with false. rewrite Hx. simpl orb.
  cbv iota. destruct (10 <? x)%float eqn:H1; [by apply ltb_leb|].
  destruct (x <? 10)%float; [done|]. change (get_sign 10) with false. done.
Qed.

(** [X21] Whatever speed it is given, [startSimulation] installs a timer
    whose period is a number, and at least 10 ms. *)
Theorem startSimulation_period (d : StartData.t) (w : World.t) :
  exists interval,
    World.timers (startSimulation d w) !! World.nextTimer w = Some (StepLoop, interval)
    /\ (10 <=? interval)%float = true.
Proof.
  unfold startSimulation. cbv zeta. simpl World.timers. simpl World.nextTimer.
  rewrite lookup_insert_eq. eexists. split; [reflexivity|].
  apply Math_max_10.
  assert (JS.truthy (JS.or (StartData.simulationSpeed d) 1) = true) as Hs
    by (by apply or_truthy).
  match goal with |- is_nan (50 / ?s) = false =>
    assert (s = JS.or (StartData.simulationSpeed d) 1) as ->
  end.
  { by repeat match goal with |- context [if ?b then _ else _] => destruct b end. }
  apply div_not_nan; [done..|]. by apply truthy_not_nan.
Qed.

(** ** The filters of SignalProcessing *)

Lemma insertSorted_elem_of x l y : y ∈ JS.insertSorted x l <-> y = x \/ y ∈ l.
Proof.
  induction l as [|z l IH]; simpl.
  - rewrite list_elem_of_singleton, elem_of_nil. tauto.
  - destruct (0 <? x - z)%float.
    + rewrite !elem_of_cons, IH. tauto.
    + rewrite !elem_of_cons. tauto.
Qed.

Lemma insertSorted_length x l : length (JS.insertSorted x l) = S (length l).
Proof.
  induction l as [|z l IH]; simpl; [done|].
  destruct (0 <? x - z)%float; simpl; [by rewrite IH|done].
Qed.

Lemma sortNumbers_elem_of l y : y ∈ JS.sortNumbers l <-> y ∈ l.
Proof.
  unfold JS.sortNumbers. induction l as [|x l IH]; simpl; [done|].
  rewrite insertSorted_elem_of, IH, elem_of_cons. tauto.
Qed.

Lemma sortNumbers_length l : length (JS.sortNumbers l) = length l.
Proof.
  unfold JS.sortNumbers. induction l as [|x l IH]; simpl; [done|].
  by rewrite insertSorted_length, IH.
Qed.

Lemma sliceLast_subseteq {A} k (l : list A) : SignalProcessing.sliceLast k l ⊆ l.
Proof. destruct k; simpl; [done|]. apply subseteq_drop. Qed.

Lemma sliceLast_length {A} k (l : list A) :
  0 < k -> k <= length l -> length (SignalProcessing.sliceLast k l) = k.
Proof. intros Hk Hl. destruct k; [lia|]. simpl. rewrite length_drop. lia. Qed.

(** [X22] Over a window of odd size, of samples none of which is [NaN],
    the median filter returns one of the samples it is given: it never makes
    up a value.  (The window is the [windowSize] last samples, or all of
    them when there are fewer.) *)
Theorem medianFilter_returns_a_sample (inputArray : list float) (windowSize : nat) :
  Forall (fun sample => is_nan sample = false) inputArray ->
  Nat.odd (Nat.min windowSize (length inputArray)) = true ->
  SignalProcessing.medianFilter inputArray (Some windowSize) ∈ inputArray.
Proof.
  intros _ Hodd. unfold SignalProcessing.medianFilter. cbv zeta. simpl default.
  set (k := Nat.min windowSize (length inputArray)) in *.
  assert (0 < k) as Hk by (destruct k; [discriminate Hodd|lia]).
  assert (k <= length inputArray) as Hle by (unfold k; lia).
  destruct (Nat.eqb_spec (length inputArray) 0) as [E|_]; [lia|].
  rewrite sortNumbers_length, sliceLast_length by done.
  rewrite <- Nat.negb_odd, Hodd. simpl.
  apply (sliceLast_subseteq k), sortNumbers_elem_of.
  destruct (nth_lookup_or_length
              (JS.sortNumbers (SignalProcessing.sliceLast k inputArray)) (k / 2) nan)
    as [Hin|Hlen].
  - by eapply list_elem_of_lookup_2.
  - rewrite sortNumbers_length, sliceLast_length in Hlen by done.
    pose proof (Nat.div_lt k 2 Hk). lia.
Qed.

Lemma medianFilter_returns_a_sample_witness :
  Forall (fun sample => is_nan sample = false) [5; 1; 9; 2; 7]%float
  /\ Nat.odd (Nat.min 3 (length [5; 1; 9; 2; 7]%float)) = true
  /\ SignalProcessing.medianFilter [5; 1; 9; 2; 7]%float (Some 3) = 7%float
  /\ SignalProcessing.medianFilter [5; 1; 9; 2; 7]%float (Some 3) ∈ [5; 1; 9; 2; 7]%float.
Proof.
  assert (Forall (fun sample => is_nan sample = false) [5; 1; 9; 2; 7]%float) as H
    by (repeat constructor).
  split; [exact H|]. split; [reflexivity|]. split; [reflexivity|].
  exact (medianFilter_returns_a_sample [5; 1; 9; 2; 7]%float 3 H eq_refl).
Defined.

Lemma binary_normalize_not_nan m e szero :
  binary_normalize prec emax m e szero <> S754_nan.
Proof.
  unfold binary_normalize, binary_round.
  destruct m as [|m|m]; [done|..];
    destruct (shl_align _ _ _) as [mz ez]; by apply binary_round_aux_not_nan.
Qed.

(** 1 minus a number is a number. *)
Lemma one_minus_not_nan s : is_nan s = false -> is_nan (1 - s) = false.
Proof.
  intros Hs. apply is_nan_Prim2SF in Hs.
  unfold is_nan. rewrite FloatAxioms.eqb_spec, sub_spec.
  rewrite not_nan_SFeqb; [done|].
  change (Prim2SF 1) with (S754_finite false 4503599627370496 (-52)).
  unfold SF64sub, SFsub.
  destruct (Prim2SF s) as [sy|sy| |sy my ey]; try done.
  apply binary_normalize_not_nan.
Qed.

(** [X23] The adaptive filter returns the new value when there is no
    history.  Otherwise, for a stability that is a number, it is a low-pass
    filter whose strength is 0.9, or lies between 0.1 and 0.8: the weighted
    mean of the new value and the last of the history. *)
Theorem adaptiveFilter_strength (newValue stability : float) (history : list float)
    (previous : float) :
  is_nan stability = false ->
  SignalProcessing.adaptiveFilter newValue [] stability = newValue
  /\ exists strength,
       (strength = 0.9%float
        \/ (0.1 <=? strength)%float = true /\ (strength <=? 0.8)%float = true)
       /\ SignalProcessing.adaptiveFilter newValue (history ++ [previous]) stability
          = (strength * newValue + (1 - strength) * previous)%float.
Proof.
  intros Hs. split; [reflexivity|].
  unfold SignalProcessing.adaptiveFilter. rewrite last_snoc. cbv zeta.
  unfold SignalProcessing.lowPassFilter. simpl default.
  eexists. split; [|reflexivity].
  destruct (0.8 <? stability)%float; [by left|right].
  pose proof (one_minus_not_nan _ Hs) as Hn.
  generalize dependent (1 - stability)%float. intros x Hx.
  unfold JS.Math_max. change (is_nan 0.1) with false. rewrite Hx. simpl orb. cbv iota.
  change (get_sign 0.1) with false. cbv iota.
  destruct (0.1 <? x)%float eqn:H1.
  - unfold JS.Math_min. change (is_nan 0.8) with false. rewrite Hx. simpl orb. cbv iota.
    change (get_sign 0.8) with false. cbv iota.
    destruct (0.8 <? x)%float eqn:H2; [by split|].
    replace (if (x <? 0.8)%float then x else x) with x by (by destruct (x <? 0.8)%float).
    split; [by apply ltb_leb|by apply ltb_false_leb].
  - replace (if (x <? 0.1)%float then 0.1%float else 0.1%float) with 0.1%float
      by (by destruct (x <? 0.1)%float).
    by split.
Qed.

Lemma adaptiveFilter_strength_witness :
  is_nan 0.5 = false
  /\ SignalProcessing.adaptiveFilter 2 [] 0.5 = 2%float
  /\ SignalProcessing.adaptiveFilter 2 [4; 6]%float 0.5 = (0.5 * 2 + (1 - 0.5) * 6)%float.
Proof.
  split; [reflexivity|].
  split; [exact (proj1 (adaptiveFilter_strength 2 0.5 [4]%float 6 eq_refl))|].
  reflexivity.
Defined.

(** ** The accuracy settings *)

(** [X24] Whatever settings it is sent, and whatever [parseInt] makes of
    them, [updateAccuracy] keeps the stability tracker within bounds: it
    smooths over 3 to 12 samples with a factor between 0.5 and 1.  Of the
    state it touches nothing but the tracker, whose samples it keeps, and
    [calcResolution], which it leaves as it is or sets to what [parseInt]
    has made of the resolution it is sent, a number of at least 1. *)
Theorem updateAccuracy_within_bounds (JSValue : Type) (truthyValue : JSValue -> bool)
    (parseInt : JSValue -> option ParsedNumber) (settings : option (Settings JSValue))
    (s : AccuracyState) :
  accuracyWithin (State.stabilityTracker (simulationState s)) ->
  let s' := updateAccuracy JSValue truthyValue parseInt settings s in
  accuracyWithin (State.stabilityTracker (simulationState s'))
  /\ Tracker.prevValues (State.stabilityTracker (simulationState s'))
     = Tracker.prevValues (State.stabilityTracker (simulationState s))
  /\ State.set_stabilityTracker (State.stabilityTracker (simulationState s))
       (simulationState s')
     = simulationState s
  /\ (calcResolution s' = calcResolution s
      \/ exists settings' resolution factor,
           settings = Some settings'
           /\ calculationResolution JSValue settings' = Some resolution
           /\ truthyValue resolution = true
           /\ parseInt resolution = Some factor
           /\ atLeastOne factor = true
           /\ calcResolution s' = Some factor).
Proof.
  intros Hin. unfold updateAccuracy. destruct settings as [settings|]; cbv zeta.
  2:{ split; [done|]. split; [done|]. split; [by destruct (simulationState s)|by left]. }
  set (k1 := if String.eqb _ "low" then _ else _).
  assert (accuracyWithin k1
          /\ Tracker.prevValues k1
             = Tracker.prevValues (State.stabilityTracker (simulationState s)))
    as [H1 Hp1].
  { unfold k1.
    repeat match goal with |- context [if String.eqb ?a ?b then _ else _] =>
      destruct (String.eqb a b) end;
      (split; [|done]); try done; (split; [simpl; lia|by split]). }
  clearbody k1.
  assert (forall k2, applyStabilityFactor JSValue truthyValue parseInt
                       (stabilityFactor JSValue settings) k1 = Some k2 ->
                     accuracyWithin k2 /\ Tracker.prevValues k2 = Tracker.prevValues k1)
    as H2.
  { intros k2. unfold applyStabilityFactor.
    destruct (stabilityFactor JSValue settings) as [v|]; [|by intros [= <-]].
    destruct (truthyValue v); [|by intros [= <-]].
    destruct (parseInt v) as [factor|]; [|done]. intros [= <-].
    unfold fromOneToTen. destruct factor as [| |factor]; [done..|].
    destruct ((1 <=? factor)%Z && (factor <=? 10)%Z) eqn:E; [|done].
    apply andb_true_iff in E as [Hlo Hhi]. apply Z.leb_le in Hlo, Hhi.
    split; [|done].
    assert (factor = 1 \/ factor = 2 \/ factor = 3 \/ factor = 4 \/ factor = 5
            \/ factor = 6 \/ factor = 7 \/ factor = 8 \/ factor = 9 \/ factor = 10)%Z
      as Hcases by lia.
    repeat destruct Hcases as [->|Hcases]; try subst factor;
      (split; [vm_compute; lia|split; vm_compute; reflexivity]). }
  assert (forall k, State.set_stabilityTracker
                      (State.stabilityTracker (simulationState s))
                      (State.set_stabilityTracker k (simulationState s))
                    = simulationState s) as Hframe
    by (intros k; by destruct (simulationState s)).
  unfold applyResolution.
  destruct (calculationResolution JSValue settings) as [v|] eqn:Hv.
  - destruct (truthyValue v) eqn:Ht.
    + destruct (parseInt v) as [factor|] eqn:Hf.
      * cbn [simulationState calcResolution].
        destruct (applyStabilityFactor _ _ _ _ k1) as [k2|] eqn:Hk2.
        -- destruct (H2 k2 eq_refl) as [Hk Hp].
           split; [done|]. split; [simpl; congruence|]. split; [apply Hframe|].
           destruct (atLeastOne factor) eqn:Ha; [right|by left].
           by exists settings, v, factor.
        -- split; [done|]. split; [done|]. split; [apply Hframe|].
           destruct (atLeastOne factor) eqn:Ha; [right|by left].
           by exists settings, v, factor.
      * cbn [simulationState calcResolution].
        split; [done|]. split; [done|]. split; [apply Hframe|by left].
    + cbn [simulationState calcResolution].
      destruct (applyStabilityFactor _ _ _ _ k1) as [k2|] eqn:Hk2.
      * destruct (H2 k2 eq_refl) as [Hk Hp].
        split; [done|]. split; [simpl; congruence|]. split; [apply Hframe|by left].
      * split; [done|]. split; [done|]. split; [apply Hframe|by left].
  - cbn [simulationState calcResolution].
    destruct (applyStabilityFactor _ _ _ _ k1) as [k2|] eqn:Hk2.
    + destruct (H2 k2 eq_refl) as [Hk Hp].
      split; [done|]. split; [simpl; congruence|]. split; [apply Hframe|by left].
    + split; [done|]. split; [done|]. split; [apply Hframe|by left].
Qed.

Lemma updateAccuracy_within_bounds_witness :
  accuracyWithin (State.stabilityTracker State.initial)
  /\ updateAccuracy Z (fun z => negb (Z.eqb z 0)) (fun z => Some (ParsedInteger z))
       (Some {| accuracyLevel := Some "ultra";
                calculationResolution := Some 4%Z;
                stabilityFactor := Some 7%Z |})
       {| simulationState := State.initial; calcResolution := None |}
     = {| simulationState :=
            State.set_stabilityTracker
              (Tracker.mk 0 8 ∅ (0.5 + 7 * 0.05)%float 0.02%float) State.initial;
          calcResolution := Some (ParsedInteger 4) |}
  /\ accuracyWithin
       (State.stabilityTracker
          (simulationState
             (updateAccuracy Z (fun z => negb (Z.eqb z 0))
                (fun z => Some (ParsedInteger z))
                (Some {| accuracyLevel := Some "ultra";
                         calculationResolution := Some 4%Z;
                         stabilityFactor := Some 7%Z |})
                {| simulationState := State.initial; calcResolution := None |}))).
Proof.
  assert (accuracyWithin (State.stabilityTracker State.initial)) as H.
  { split; [simpl; lia|]. split; reflexivity. }
  split; [exact H|]. split; [reflexivity|].
  exact (proj1 (updateAccuracy_within_bounds Z (fun z => negb (Z.eqb z 0))
                  (fun z => Some (ParsedInteger z))
                  (Some {| accuracyLevel := Some "ultra";
                           calculationResolution := Some 4%Z;
                           stabilityFactor := Some 7%Z |})
                  {| simulationState := State.initial; calcResolution := None |} H)).
Defined.

(** ** Which source and which resistor DC analysis goes by *)

Lemma scanLast_lastProperty ty get d components :
  (forall c, c ∈ components -> Component.isType ty c = true ->
             is_Some (propertyOf get c)) ->
  scanLast ty (propertyOf get) d components = lastProperty ty get d components.
Proof.
  unfold scanLast, lastProperty, ofType.
  induction components as [|c cs IH] using rev_ind; intros Hall; [done|].
  rewrite foldl_app, filter_app. simpl.
  assert (is_Some (foldl (fun acc c0 =>
                            match acc with
                            | Some x => if Component.isType ty c0 then propertyOf get c0
                                        else Some x
                            | None => None
                            end) (Some d) cs)) as [x Hx].
  { apply (scanLast_completes ty (propertyOf get) d cs).
    intros c' Hin. apply Hall. apply elem_of_app. by left. }
  rewrite Hx. rewrite filter_cons, filter_nil.
  destruct (decide (Component.isType ty c = true)) as [E|E].
  - rewrite E, last_snoc. done.
  - apply not_true_is_false in E. rewrite E, app_nil_r.
    rewrite <- Hx. apply IH. intros c' Hin. apply Hall. apply elem_of_app. by left.
Qed.

(** [X25] In DC analysis every resistor is given the voltage of one source
    and every source the resistance of one resistor, the last of the array in
    both cases (5 V and 1 kOhm when there is none): a source of voltage [V]
    carries [V / R], and a resistor of resistance [r] carries [V / r] with the
    voltage [(V / r) * r]. *)
Theorem dc_analysis_goes_by_the_last (components : list Component.t)
    (wires : list Wire.t) (j : nat) (c : Component.t) :
  Forall dcReady components ->
  components !! j = Some c ->
  exists first c' V R,
    performDCAnalysis components wires = Normal first
    /\ fst first !! j = Some c'
    /\ lastProperty "voltage-source" Properties.voltage 5 components = Some V
    /\ lastProperty "resistor" Properties.resistance 1000 components = Some R
    /\ (Component.isType "voltage-source" c = true ->
        forall v, propertyOf Properties.voltage c = Some v ->
        Component.values c' = Some (Values.mk v (v / R) (v * (v / R))))
    /\ (Component.isType "resistor" c = true ->
        forall r, propertyOf Properties.resistance c = Some r ->
        Component.values c' = Some (Values.mk (V / r * r) (V / r) (V / r * r * (V / r)))).
Proof.
  intros Hready Hc.
  destruct (forEach_completes dcReady dcComponent components) as (cs1 & Hrun & Hready1);
    [intros l x Hl Hx; by apply dcComponent_completes|done|].
  assert (forall ty get, (ty = "voltage-source" /\ get = Properties.voltage)
                         \/ (ty = "resistor" /\ get = Properties.resistance) ->
          forall c0, c0 ∈ components -> Component.isType ty c0 = true ->
                     is_Some (propertyOf get c0)) as Hprops.
  { intros ty get Hty c0 Hin Hc0.
    eapply Forall_forall in Hready as (_ & Hv & Hr); [|exact Hin].
    destruct Hty as [[-> ->]|[-> ->]]; auto. }
  destruct (scanLast_completes "voltage-source" (propertyOf Properties.voltage) 5 components)
    as [V HV]; [apply Hprops; auto|].
  destruct (scanLast_completes "resistor" (propertyOf Properties.resistance) 1000 components)
    as [R HR]; [apply Hprops; auto|].
  destruct (forEachFrom_Normal_inv_view dcKind dcComponent dcComponent_kind
              (length components) 0 components cs1 Hrun j c Hc)
    as (store & c' & Hst & Hbody & Hc'); [lia|by eapply lookup_lt_Some|].
  exists (cs1, map (fun wire => stateOf (dcWire cs1 wire)) wires), c', V, R.
  split. { unfold performDCAnalysis. by rewrite Hrun, (dc_wires_pass cs1 wires Hready1). }
  split; [done|].
  split. { rewrite <- HV. symmetry. apply scanLast_lastProperty. apply Hprops. auto. }
  split. { rewrite <- HR. symmetry. apply scanLast_lastProperty. apply Hprops. auto. }
  assert (is_Some (Component.values c)) as [v0 Hv0].
  { eapply Forall_lookup_1 in Hready as (? & _); eauto. }
  unfold dcComponent in Hbody.
  rewrite !(scanLast_ext _ _ _ store components Hst), HV, HR, Hv0 in Hbody.
  split.
  - intros Hty v Hv. rewrite Hty, Hv in Hbody. by injection Hbody as <-.
  - intros Hty r Hr.
    destruct (Component.isType "voltage-source" c) eqn:Hvs.
    { unfold Component.isType in *. apply String.eqb_eq in Hty, Hvs. congruence. }
    rewrite Hty, Hr in Hbody. by injection Hbody as <-.
Qed.

Lemma dc_analysis_goes_by_the_last_witness :
  Forall dcReady settlingCircuit
  /\ exists c first c',
       settlingCircuit !! 1 = Some c
       /\ performDCAnalysis settlingCircuit [] = Normal first
       /\ fst first !! 1 = Some c'
       /\ Component.values c'
          = Some (Values.mk (5 / 100 * 100) (5 / 100) (5 / 100 * 100 * (5 / 100))).
Proof.
  assert (Forall dcReady settlingCircuit) as H.
  { repeat apply Forall_cons_2; [..|apply Forall_nil_2];
      (split; [by eexists|split; intros E; try discriminate E; by eexists]). }
  split; [exact H|]. eexists.
  destruct (dc_analysis_goes_by_the_last settlingCircuit [] 1 _ H eq_refl)
    as (first & c' & V & R & Hrun & Hc' & HV & HR & _ & Hres).
  exists first, c'. split; [reflexivity|]. split; [exact Hrun|]. split; [exact Hc'|].
  injection HV as <-. exact (Hres eq_refl 100%float eq_refl).
Defined.

(** ** What a transient step leaves in the components *)







(** ** When AC analysis completes *)

Section ACCompletes.

Variable M : MathLib.

Lemma hasValues_set_values v c : hasValues (Component.set_values (Some v) c).
Proof. by eexists. Qed.

Lemma acSource_completes time l c :
  hasValues c -> exists c', acSource M time l c = Normal c' /\ hasValues c'.
Proof.
  intros [v Hv]. unfold acSource, acVoltageSource.
  destruct (Component.isType "voltage-source" c); [|by eexists; split; [|eexists]].
  rewrite Hv. eexists. split; [done|]. apply hasValues_set_values.
Qed.

Lemma acOnly_completes ty time i f a l c :
  hasValues c ->
  (ty = "resistor" -> Component.isType "resistor" c = true -> is_Some i) ->
  exists c', acOnly M ty time i f a l c = Normal c' /\ hasValues c'.
Proof.
  intros [v Hv] Hi. unfold acOnly.
  destruct (Component.isType ty c) eqn:Hty; [|by eexists; split; [|eexists]].
  unfold acPassive. rewrite Hv.
  destruct (Component.isType "resistor" c) eqn:Hr.
  { destruct (Hi) as [x ->]; [|done|].
    - unfold Component.isType in *. apply String.eqb_eq in Hty, Hr. congruence.
    - eexists. split; [done|]. apply hasValues_set_values. }
  destruct (Component.isType "capacitor" c).
  { eexists. split; [done|]. apply hasValues_set_values. }
  destruct (Component.isType "inductor" c).
  { eexists. split; [done|]. apply hasValues_set_values. }
  eexists. split; [done|]. by eexists.
Qed.

Lemma ofType_types ty l l' :
  map Component.type l = map Component.type l' ->
  ofType ty l = [] -> ofType ty l' = [].
Proof.
  unfold ofType. revert l'.
  induction l as [|c l IH]; intros [|c' l'] H; try discriminate; [done|].
  injection H as Hc Hl. rewrite !filter_cons.
  assert (Component.isType ty c' = Component.isType ty c) as Hty
    by (unfold Component.isType; by rewrite Hc).
  destruct (decide (Component.isType ty c = true)) as [E|E]; [done|].
  destruct (decide (Component.isType ty c' = true)) as [E'|E']; [congruence|].
  by apply IH.
Qed.

End ACCompletes.

(** [X27] AC analysis completes on every circuit whose components all have
    their [values], provided that it has a voltage source or no resistor: it
    posts the frequency response, leaves every component with its values and
    its type, and gives the wires what [updateACWireValues] reads off the
    components. *)
Theorem ac_analysis_completes (M : MathLib) (time : float)
    (components : list Component.t) (wires : list Wire.t) :
  Forall hasValues components ->
  ofType "voltage-source" components <> [] \/ ofType "resistor" components = [] ->
  exists components' data,
    performACAnalysis M time components wires
    = (Normal (components', map (updateACWire components') wires),
       [frequency_response data])
    /\ Forall hasValues components'
    /\ map Component.type components' = map Component.type components.
Proof.
  intros Hvalues Hsource. unfold performACAnalysis.
  destruct (forEach_completes hasValues (acSource M time) components)
    as (cs1 & Hrun1 & Hv1); [intros l x _ Hx; by apply acSource_completes|done|].
  pose proof (forEach_map Component.type (acSource M time) components
                (acSource_type M time)) as Hty1.
  rewrite Hrun1 in *. simpl in Hty1.
  unfold processComponents. cbv zeta.
  set (i := match head (ofType "voltage-source" cs1) with
            | Some vs => match Component.values vs with
                         | Some v => Some (Values.current v)
                         | None => None
                         end
            | None => None
            end).
  set (f := match head (ofType "voltage-source" cs1) with
            | Some vs => acFrequency vs | None => 1000%float end).
  set (a := match head (ofType "voltage-source" cs1) with
            | Some vs => acAmplitude vs | None => 5%float end).
  assert (forall x, x ∈ cs1 -> Component.isType "resistor" x = true -> is_Some i) as Hi.
  { intros x Hx Hr. destruct Hsource as [Hs|Hs].
    - unfold i. destruct (ofType "voltage-source" cs1) as [|vs rest] eqn:E.
      { exfalso. apply Hs. by apply (ofType_types _ cs1 components). }
      simpl. assert (vs ∈ cs1) as Hin.
      { assert (vs ∈ ofType "voltage-source" cs1) as H by (rewrite E; left).
        by apply list_elem_of_filter in H as [_ ?]. }
      eapply Forall_forall in Hv1 as [v ->]; [|exact Hin]. by eexists.
    - apply (ofType_types _ _ cs1) in Hs; [|done].
      rewrite (ofType_nil _ _ _ Hs Hx) in Hr. discriminate. }
  set (P := fun x => hasValues x
                     /\ (Component.isType "resistor" x = true -> is_Some i)).
  assert (Forall P cs1) as HP1.
  { apply Forall_forall. intros x Hx. split; [by eapply Forall_forall in Hv1|].
    by apply Hi. }
  destruct (forEach_completes P (acOnly M "resistor" time i f a) cs1)
    as (cs2 & Hrun2 & HP2); [|done|].
  { intros l x _ [Hx Hxi].
    destruct (acOnly_completes M "resistor" time i f a l x Hx) as (x' & Hrun & Hx');
      [by intros _|].
    exists x'. split; [done|]. split; [done|].
    intros Hr. apply Hxi. unfold Component.isType in *.
    change x' with (stateOf (Normal x')) in Hr. rewrite <- Hrun in Hr.
    by rewrite acOnly_type in Hr. }
  assert (Forall hasValues cs2) as Hv2 by (eapply Forall_impl; [exact HP2|by intros x [? _]]).
  pose proof (forEach_map Component.type (acOnly M "resistor" time i f a) cs1
                (acOnly_type M "resistor" time i f a)) as Hty2.
  rewrite Hrun2 in *. simpl in Hty2.
  destruct (forEach_completes hasValues (acOnly M "capacitor" time i f a) cs2)
    as (cs3 & Hrun3 & Hv3); [|done|].
  { intros l x _ Hx. apply acOnly_completes; [done|]. intros E. discriminate E. }
  pose proof (forEach_map Component.type (acOnly M "capacitor" time i f a) cs2
                (acOnly_type M "capacitor" time i f a)) as Hty3.
  rewrite Hrun3 in *. simpl in Hty3.
  destruct (forEach_completes hasValues (acOnly M "inductor" time i f a) cs3)
    as (cs4 & Hrun4 & Hv4); [|done|].
  { intros l x _ Hx. apply acOnly_completes; [done|]. intros E. discriminate E. }
  pose proof (forEach_map Component.type (acOnly M "inductor" time i f a) cs3
                (acOnly_type M "inductor" time i f a)) as Hty4.
  rewrite Hrun4 in *. simpl in Hty4.
  exists cs4. eexists. split; [reflexivity|]. split; [done|]. congruence.
Qed.

Lemma ac_analysis_completes_witness :
  Forall hasValues acCircuit
  /\ ofType "voltage-source" acCircuit <> []
  /\ exists components' data,
       performACAnalysis exampleMath 0 acCircuit []
       = (Normal (components', []), [frequency_response data])
       /\ length data = 100.
Proof.
  assert (Forall hasValues acCircuit) as H
    by (repeat apply Forall_cons_2; [..|apply Forall_nil_2]; by eexists).
  assert (ofType "voltage-source" acCircuit <> []) as Hs by (intros E; discriminate E).
  split; [exact H|]. split; [exact Hs|].
  destruct (ac_analysis_completes exampleMath 0 acCircuit [] H (or_introl Hs))
    as (cs' & data & Hrun & _).
  exists cs', data. split; [exact Hrun|].
  assert (snd (performACAnalysis exampleMath 0 acCircuit []) = [frequency_response data]) as E
    by (by rewrite Hrun).
  vm_compute in E. by injection E as <-.
Defined.
